(** * ScholarFinder reviewer-recommendation pipeline: a shallow embedding

  The development follows [scholarfinder_api.py].  The endpoints the
  properties below talk about are translated into Rocq functions:

  - [KeywordQuery]    : [keyword_string_generator], lines 436-458 (the
                        parsing of the two form fields, the nested
                        [build_string] and the AND-combination);
  - [CandidateMerger] : [database_search] from line 611 on (filtering of
                        the combined source table, flattening, [dropna],
                        name cleaning, the files written);
  - [ManualAuthors]   : [manual_authors];
  - [Validation]      : [validate_authors] (metric columns, the
                        coauthorship loop, the eight condition columns,
                        the score, the ranking and the files written);
  - [KeywordEnhancement] : [keyword_enhancement], lines 272-286 and
                        321-345 (the nested [smart_split], the keyword
                        lists and the rows of [keywords.csv]);
  - [Endpoints]       : [metadata_extraction], the whole of
                        [keyword_string_generator] and [database_search]
                        (the checks, the files read and written, the four
                        sources), and [recommended_reviewers].

  Modelling conventions.

  - Python [str] values are [string]s: a character stands for the code
    point of its number, so the texts of the model are those over
    U+0000..U+00FF.  The character classes used by [str.strip], [\s],
    [\w] and [\b] are Python's (Unicode) ones on that range.
  - Integer columns are [Z]; their division is float64 division, with
    its rounding.
  - A DataFrame is the list of its rows, in index order.  A cell read
    back from a CSV file is an [option]: [None] is the missing value
    ([NaN]) that [pd.read_csv] gives for an empty field and for the other
    default missing-value markers ([NA], [None], [null], ...).  Other
    type inference of [pd.read_csv] is outside the model.
  - External collaborators (PubMed look-ups, the coauthorship check, the
    affiliation parsers) and pandas' sorting routine are not part of the
    repository: they are parameters, taken as total functions.
  - [BASE_DIR] is a finite map from job identifiers to job directories, a
    job directory a finite map from file names to artifacts.
  - An endpoint returns a [Response], either the [JSONResponse] it builds
    or the exception that escapes it, together with the new store. *)

From Stdlib Require Import ZArith QArith Qround Qpower Lqa Ascii String List Lia.
From stdpp Require Import base option list sorting gmap strings pretty.

Local Open Scope Z_scope.

(** ** Python strings *)

Module PyStr.

(** [str.isspace] on one character, which is also the class [\s] of a
    [str] pattern: TAB..CR, FS..US, the space, NEL (U+0085) and the
    no-break space (U+00A0). *)
Definition isspace (c : ascii) : bool :=
  let n := N_of_ascii c in
  ((9 <=? n) && (n <=? 13) || (28 <=? n) && (n <=? 32)
   || (n =? 133) || (n =? 160))%N.

(** Truth value of a string: the empty string is falsy. *)
Definition truthy (s : string) : bool :=
  match s with EmptyString => false | String _ _ => true end.

Fixpoint lstrip (s : string) : string :=
  match s with
  | EmptyString => EmptyString
  | String c s' => if isspace c then lstrip s' else s
  end.

Fixpoint rstrip (s : string) : string :=
  match s with
  | EmptyString => EmptyString
  | String c s' =>
      match rstrip s' with
      | EmptyString => if isspace c then EmptyString else String c EmptyString
      | r => String c r
      end
  end.

(** [s.strip()] *)
Definition strip (s : string) : string := rstrip (lstrip s).

(** [sep.join(l)] *)
Definition join (sep : string) (l : list string) : string :=
  String.concat sep l.

(** [s.split(sep)] for a one-character separator: always at least one
    field, empty fields kept. *)
Fixpoint split (sep : ascii) (s : string) : list string :=
  match s with
  | EmptyString => [EmptyString]
  | String c s' =>
      if Ascii.eqb c sep then EmptyString :: split sep s'
      else match split sep s' with
           | [] => [String c EmptyString]
           | f :: fs => String c f :: fs
           end
  end.

End PyStr.

(** ** 3. keyword_string_generator *)

Module KeywordQuery.

(** Lines 437-438: [[kw.strip() for kw in input.split(',') if kw.strip()]] *)
Definition parse_keywords (input : string) : list string :=
  omap (fun kw => let k := PyStr.strip kw in
                  if PyStr.truthy k then Some k else None)
       (PyStr.split "," input).

(** The nested function [build_string]. *)
Definition build_string (keywords : list string) : string :=
  let kws := filter (fun kw => PyStr.truthy kw = true) keywords in
  match kws with
  | [] => ""
  | [kw] => "(" +:+ kw +:+ ")"
  | _ => "(" +:+ PyStr.join " OR " kws +:+ ")"
  end.

(** Lines 451-458: the two clauses and their combination. *)
Definition keyword_string (primary_keywords secondary_keywords : list string)
  : string :=
  let primary_str := build_string primary_keywords in
  let secondary_str := build_string secondary_keywords in
  if PyStr.truthy primary_str && PyStr.truthy secondary_str
  then primary_str +:+ " AND " +:+ secondary_str
  else if PyStr.truthy primary_str then primary_str else secondary_str.

(** The query string as the endpoint computes it from its two form fields. *)
Definition keyword_string_of_inputs (primary_keywords_input
                                     secondary_keywords_input : string)
  : string :=
  keyword_string (parse_keywords primary_keywords_input)
                 (parse_keywords secondary_keywords_input).

(** The query string as the specification words it, to compare with
    [keyword_string]: the terms of a group joined by OR inside one pair of
    parentheses, the two clauses joined by AND, an empty group leaving only
    the other clause. *)
Definition nonempty_terms (group : list string) : list string :=
  filter (fun kw => PyStr.truthy kw = true) group.

Definition or_clause (terms : list string) : string :=
  "(" +:+ PyStr.join " OR " terms +:+ ")".

Definition query_spec (primary secondary : list string) : string :=
  match nonempty_terms primary, nonempty_terms secondary with
  | [], [] => ""
  | [], s => or_clause s
  | p, [] => or_clause p
  | p, s => or_clause p +:+ " AND " +:+ or_clause s
  end.

End KeywordQuery.

(** ** Tables, artifacts and the job store *)

(** A value that is a text or missing: [None] is Python's [None] in a
    dict handed over by a collaborator, and the [NaN] that [pd.read_csv]
    gives for an empty field, or another missing-value marker, in a table
    read back from a CSV file. *)
Abbreviation Cell := (option string).

Module Table.

(** The fields [pd.read_csv] reads as a missing value when it is called
    without [na_values] and [keep_default_na]: pandas' default markers,
    the empty field among them. *)
Definition STR_NA_VALUES : list string :=
  [""; "#N/A"; "#N/A N/A"; "#NA"; "-1.#IND"; "-1.#QNAN"; "-NaN"; "-nan";
   "1.#IND"; "1.#QNAN"; "<NA>"; "N/A"; "NA"; "NULL"; "NaN"; "None";
   "n/a"; "nan"; "null"].

Definition is_na (s : string) : bool := existsb (String.eqb s) STR_NA_VALUES.

(** [DataFrame.to_csv] followed by [pd.read_csv] on one text cell: the
    text comes back, unless it is one of the markers. *)
Definition csv_cell (s : string) : Cell :=
  if is_na s then None else Some s.

(** What an affiliation parser ([extract_city], [extract_country]) may
    hand back: nothing, a text, a set of candidates (with the order in
    which the set iterates and the text [str] prints for it), or any other
    object (with the text [str] prints for it, its truth value, and, when
    [json.dumps] refuses it, the name of its type). *)
Inductive ParseResult :=
| PNone
| PStr (s : string)
| PSet (elems : list string) (repr : string)
| POther (repr : string) (truth : bool) (type_name : option string).

Definition parse_truthy (r : ParseResult) : bool :=
  match r with
  | PNone => false
  | PStr s => PyStr.truthy s
  | PSet elems _ => match elems with [] => false | _ => true end
  | POther _ t _ => t
  end.

(** [str(r)] *)
Definition py_str (r : ParseResult) : string :=
  match r with
  | PNone => "None"
  | PStr s => s
  | PSet _ repr => repr
  | POther repr _ _ => repr
  end.

(** [json.dumps] on a parser result: the name of the type it refuses.
    [None] and texts are rendered, a set is not. *)
Definition unserializable (r : ParseResult) : option string :=
  match r with
  | PNone => None
  | PStr _ => None
  | PSet _ _ => Some "set"
  | POther _ _ type_name => type_name
  end.

(** The cell [to_csv] writes for a parser result stored as it is. *)
Definition csv_parse_cell (r : ParseResult) : Cell :=
  match r with
  | PNone => None
  | _ => csv_cell (py_str r)
  end.

(** One row of the aggregated source table [final_df]. *)
Record SourceRow := {
  Title : string;
  Authors : string;
  Emails : string;
  Author_Email_Map : list (string * Cell);
  Author_with_Affiliation : list (string * Cell);
  Website : string }.

(** The four columns of [final_df_1]. *)
Record SourceView := {
  v_Website : string;
  v_Authors : string;
  v_Emails : string;
  v_Title : string }.

(** One row of [author_email_df] while [database_search] builds it. *)
Record AuthorRow := {
  author : string;
  email : string;
  aff : string;
  city : ParseResult;
  country : ParseResult }.

(** One row of [author_email_df_before_val.csv] as it is read back. *)
Record CandidateRow := {
  c_author : Cell;
  c_email : Cell;
  c_aff : Cell;
  c_city : Cell;
  c_country : Cell }.

Definition to_csv_row (r : AuthorRow) : CandidateRow :=
  {| c_author := csv_cell (author r);
     c_email := csv_cell (email r);
     c_aff := csv_cell (aff r);
     c_city := csv_parse_cell (city r);
     c_country := csv_parse_cell (country r) |}.

(** The per-candidate statistics columns [validate_authors] adds. *)
Record ValidationMetrics := {
  Total_Publications : Z;
  Total_Publications_first : Z;
  Total_Publications_last : Z;
  Publications_10_years : Z;
  Publications_10_years_first : Z;
  Publications_10_years_last : Z;
  Publications_5_years : Z;
  Publications_5_years_first : Z;
  Publications_5_years_last : Z;
  Relevant_Publications_5_years : Z;
  Relevant_Publications_5_years_first : Z;
  Relevant_Publications_5_years_last : Z;
  Publications_2_years : Z;
  Publications_2_years_first : Z;
  Publications_2_years_last : Z;
  Publications_last_year : Z;
  Publications_last_year_first : Z;
  Publications_last_year_last : Z;
  Clinical_Trials_no : Z;
  Retracted_Pubs_no : Z;
  Clinical_study_no : Z;
  Case_reports_no : Z;
  TF_Publications_last_year : Z;
  English_Pubs : Z;
  coauthor : bool;
  country_match : string;
  aff_match : string }.

(** The eight condition columns, their sum and its label. *)
Record ConditionScore := {
  no_of_pub_condition_10_years : Z;
  no_of_pub_condition_5_years : Z;
  no_of_pub_condition_2_years : Z;
  english_condition : Z;
  coauthor_condition : Z;
  aff_condition : Z;
  country_match_condition : Z;
  retracted_condition : Z;
  conditions_met : Z;
  conditions_satisfied : string }.

(** One row of the validated table. *)
Record ScoredRow := {
  candidate : CandidateRow;
  metrics : ValidationMetrics;
  score : ConditionScore }.

End Table.

Module Store.
Import Table.

Inductive Exn :=
| KeyError (key : string)
| AttributeError (msg : string)
| TypeError (msg : string)
| Exception (msg : string).

(** The files a job directory holds, by what the stages read from them. *)
Inductive Artifact :=
| SourceTable (rows : list SourceRow)
| SourceViewTable (rows : list SourceView)
| CandidateTable (rows : list CandidateRow)
| ScoredTable (rows : list ScoredRow)
| DisplayTable (columns : list string) (rows : list ScoredRow)
| KeywordJson (keyword_string : option string)
| OtherFile (text : string).

(** [BASE_DIR]: job identifier to job directory, file name to artifact. *)
Abbreviation JobDir := (gmap string Artifact).
Abbreviation JobStore := (gmap string (gmap string Artifact)).

(** The body of a [JSONResponse]. *)
Inductive Content :=
| error (msg : string)
| added (message job_id : string) (author_data : CandidateRow)
| searched (job_id : string) (reviewers_count : nat)
| validated (message job_id : string) (total_authors : nat)
            (top_5_preview : list ScoredRow).

Inductive Response :=
| JSONResponse (content : Content) (status_code : Z)
| Raised (e : Exn).

(** The file the search stage leaves for the later stages. *)
Definition candidates_file : string := "author_email_df_before_val.csv".

(** [list(job_dir.glob("*" + suffix))], as the artifacts found. *)
Definition glob_suffix (suffix : string) (job_dir : JobDir)
  : list (string * Artifact) :=
  filter (fun kv => String.prefix (String.rev suffix) (String.rev (fst kv)) = true)
         (map_to_list job_dir).

End Store.

(** ** 4. database_search: from the combined source table to the candidate table *)

Module CandidateMerger.
Import Table Store.

(** [d.get(k, default)] on a dict kept as its items in insertion order. *)
Fixpoint dict_get {V} (d : list (string * V)) (k : string) (default : V) : V :=
  match d with
  | [] => default
  | (k', v) :: d' => if String.eqb k' k then v else dict_get d' k default
  end.

(** Line 612: rows whose email map and affiliation map both differ from [{}]. *)
Definition filter_valid (final_df : list SourceRow) : list SourceRow :=
  filter (fun row => Author_Email_Map row <> [] /\ Author_with_Affiliation row <> [])
         final_df.

(** An element of [records] (lines 625-629). *)
Record Triple := {
  t_author : string;
  t_email : Cell;
  t_aff : Cell }.

(** Lines 616-629: one triple per key of each row's email map.  (A map
    that arrives as text is first evaluated to the dict it denotes; the
    rows here hold the dicts.) *)
Definition row_records (row : SourceRow) : list Triple :=
  map (fun author =>
         {| t_author := author;
            t_email := dict_get (Author_Email_Map row) author (Some "");
            t_aff := dict_get (Author_with_Affiliation row) author (Some "") |})
      (map fst (Author_Email_Map row)).

Definition records (final_df : list SourceRow) : list Triple :=
  flat_map row_records final_df.

(** Line 632, [dropna]: a triple with a missing email or affiliation goes. *)
Definition dropna_triple (t : Triple) : option (string * string * string) :=
  match t_email t, t_aff t with
  | Some e, Some a => Some (t_author t, e, a)
  | _, _ => None
  end.

(** [\w] of a [str] pattern, the alphanumeric characters and the
    underscore: the ASCII digits and letters, and among U+0080..U+00FF the
    letters (U+00AA, U+00B5, U+00BA, U+00C0..U+00D6, U+00D8..U+00F6,
    U+00F8..U+00FF) and the numeric characters (superscripts U+00B2,
    U+00B3, U+00B9 and fractions U+00BC..U+00BE). *)
Definition is_word (c : ascii) : bool :=
  let n := N_of_ascii c in
  ((48 <=? n) && (n <=? 57) || (65 <=? n) && (n <=? 90)
   || (97 <=? n) && (n <=? 122) || (n =? 95)
   || (n =? 170) || (n =? 181) || (n =? 186)
   || (192 <=? n) && (n <=? 214) || (216 <=? n) && (n <=? 246)
   || (248 <=? n) && (n <=? 255)
   || (n =? 178) || (n =? 179) || (n =? 185)
   || (188 <=? n) && (n <=? 190))%N.

Definition is_word_at (c : option ascii) : bool :=
  match c with Some c => is_word c | None => false end.

(** [\b] between the character before and the character after a position. *)
Definition boundary (before after : option ascii) : bool :=
  xorb (is_word_at before) (is_word_at after).

Definition DEGREE_WORDS : list string :=
  ["MD"; "PhD"; "BD"; "MS"; "MSc"; "BSc"; "DDS"; "DO"; "DVM"; "DrPH";
   "MPH"; "MBA"; "EdD"; "DPhil"; "ScD"; "DSc"; "FRCP"; "FRCS"; "DPM"].

Definition head_char (s : string) : option ascii :=
  match s with EmptyString => None | String c _ => Some c end.

Fixpoint last_char (s : string) : option ascii :=
  match s with
  | EmptyString => None
  | String c EmptyString => Some c
  | String _ s' => last_char s'
  end.

Fixpoint drop_string (n : nat) (s : string) : string :=
  match n, s with
  | O, _ => s
  | S n', String _ s' => drop_string n' s'
  | S _, EmptyString => EmptyString
  end.

(** Does the alternative [w] of the pattern match at the head of [s], the
    character before being [before]? *)
Definition word_matches (before : option ascii) (s w : string) : bool :=
  boundary before (head_char s)
  && String.prefix w s
  && boundary (last_char w) (head_char (drop_string (String.length w) s)).

(** Length of the match of [\b(MD|PhD|...)\b] at the head of [s], if any.
    The alternatives come from a set; whichever order the set iterates in,
    at most one of them can match at a given position, because a word that
    is a proper prefix of another is followed there by a letter. *)
Definition match_degree (before : option ascii) (s : string) : option nat :=
  String.length <$> find (word_matches before s) DEGREE_WORDS.

(** A degree word that is a proper prefix of another is followed in it by
    a word character: the test behind the remark at [match_degree]. *)
Definition no_boundary_inside (w1 w2 : string) : bool :=
  String.eqb w1 w2
  || negb (String.prefix w1 w2)
  || negb (boundary (last_char w1) (head_char (drop_string (String.length w1) w2))).

(** [re.sub(pattern, "", s)]: scan left to right, [skip] is what is left to
    drop of the match in progress, [before] the character just passed. *)
Fixpoint sub_degrees (before : option ascii) (skip : nat) (s : string) : string :=
  match s with
  | EmptyString => EmptyString
  | String c s' =>
      match skip with
      | S k => sub_degrees (Some c) k s'
      | O =>
          match match_degree before s with
          | Some n => sub_degrees (Some c) (pred n) s'
          | None => String c (sub_degrees (Some c) O s')
          end
      end
  end.

(** [re.sub(",", "", s)] *)
Fixpoint sub_commas (s : string) : string :=
  match s with
  | EmptyString => EmptyString
  | String c s' => if Ascii.eqb c "," then sub_commas s' else String c (sub_commas s')
  end.

(** [re.sub("\s+", " ", s)]; [in_run] says the previous character was
    whitespace already replaced. *)
Fixpoint sub_spaces (in_run : bool) (s : string) : string :=
  match s with
  | EmptyString => EmptyString
  | String c s' =>
      if PyStr.isspace c
      then if in_run then sub_spaces true s' else String " " (sub_spaces true s')
      else String c (sub_spaces false s')
  end.

(** Lines 641-647: the four chained string operations on the author column. *)
Definition clean_author (name : string) : string :=
  PyStr.strip (sub_spaces false (sub_commas (sub_degrees None O name))).

Section Merge.

Variables extract_city extract_country : string -> ParseResult.

(** Lines 633-647 on one surviving triple. *)
Definition author_row (t : string * string * string) : AuthorRow :=
  let '(a, e, f) := t in
  {| author := clean_author a;
     email := e;
     aff := f;
     city := extract_city f;
     country := extract_country f |}.

(** Lines 614-647, on the filtered table.  With no record at all the frame
    built from [records] has no column and [author_email_df["aff"]] raises. *)
Definition author_email_df (final_df : list SourceRow) : Exn + list AuthorRow :=
  match records final_df with
  | [] => inl (KeyError "aff")
  | recs => inr (map author_row (omap dropna_triple recs))
  end.

(** Lines 611-647: the candidate table of an aggregated source table. *)
Definition candidate_pool (final_df : list SourceRow) : Exn + list AuthorRow :=
  author_email_df (filter_valid final_df).

Definition source_view (row : SourceRow) : SourceView :=
  {| v_Website := Website row;
     v_Authors := Authors row;
     v_Emails := Emails row;
     v_Title := Title row |}.

(** Lines 656-663: the response body holds the first ten rows of
    [author_email_df] with the city and country objects as the parsers
    returned them; [JSONResponse] renders its body when it is built and
    raises [TypeError] at the first object [json.dumps] refuses. *)
Definition render_error (df : list AuthorRow) : option Exn :=
  match omap unserializable
             (flat_map (fun r => [city r; country r]) (firstn 10 df)) with
  | [] => None
  | type_name :: _ =>
      Some (TypeError ("Object of type " +:+ type_name
                       +:+ " is not JSON serializable"))
  end.

(** Lines 611-663 for a job whose directory is [job_dir]: the three files
    written, and the response or the exception of its rendering. *)
Definition merge_and_store (store : JobStore) (job_id : string)
    (job_dir : JobDir) (final_df : list SourceRow) : Response * JobStore :=
  let final_df := filter_valid final_df in
  match author_email_df final_df with
  | inl e => (Raised e, store)
  | inr df =>
      let d1 := <["final_df.csv" := SourceTable final_df]> job_dir in
      let d2 := <["final_df_1.csv" := SourceViewTable (map source_view final_df)]> d1 in
      let d3 := <[candidates_file := CandidateTable (map to_csv_row df)]> d2 in
      match render_error df with
      | Some e => (Raised e, <[job_id := d3]> store)
      | None =>
          (JSONResponse (searched job_id (length final_df)) 200,
           <[job_id := d3]> store)
      end
  end.

End Merge.

(** The triples that survive [dropna], in the order they were recorded. *)
Definition surviving (final_df : list SourceRow) : list (string * string * string) :=
  omap dropna_triple (records (filter_valid final_df)).

(** Those of them whose author cleans to a given name. *)
Definition occurrences (name : string) (final_df : list SourceRow)
  : list (string * string * string) :=
  filter (fun t => clean_author (fst (fst t)) = name) (surviving final_df).

(** The entries of a candidate table that carry a given name. *)
Definition entries_for (name : string) (df : list AuthorRow) : list AuthorRow :=
  filter (fun r => author r = name) df.

End CandidateMerger.

(** ** 5. manual_authors *)

Module ManualAuthors.
Import Table Store.

(** Truth value of a value that is [None] or a text. *)
Definition cell_truthy (c : Cell) : bool :=
  match c with Some s => PyStr.truthy s | None => false end.

(** Lines 723-732: the parser result as the text kept in [new_author]. *)
Definition parse_text (r : ParseResult) : string :=
  match r with
  | PSet elems _ => if parse_truthy r then PyStr.join ", " elems else ""
  | PStr s => s
  | _ => if parse_truthy r then py_str r else ""
  end.

(** Line 749, [dropna]: rows with a missing cell go. *)
Definition complete (r : CandidateRow) : bool :=
  match c_author r, c_email r, c_aff r, c_city r, c_country r with
  | Some _, Some _, Some _, Some _, Some _ => true
  | _, _, _, _, _ => false
  end.

(** The table a written CSV file gives back: the missing-value markers,
    the empty text among them, read as missing. *)
Definition reread (c : Cell) : Cell :=
  match c with Some s => Table.csv_cell s | None => None end.

Definition to_csv (r : CandidateRow) : CandidateRow :=
  {| c_author := reread (c_author r);
     c_email := reread (c_email r);
     c_aff := reread (c_aff r);
     c_city := reread (c_city r);
     c_country := reread (c_country r) |}.

Section Manual.

(** [search_pubmed_author]: an exception, or the pair (email, affiliation). *)
Variable search_pubmed_author : string -> Exn + (Cell * Cell).
Variables extract_city extract_country : string -> ParseResult.

(** Lines 752-753 on one row. *)
Definition refresh_city_country (r : CandidateRow) : CandidateRow :=
  let x := default "" (c_aff r) in
  {| c_author := c_author r;
     c_email := c_email r;
     c_aff := c_aff r;
     c_city := Some (if parse_truthy (extract_city x)
                     then py_str (extract_city x) else "");
     c_country := Some (if parse_truthy (extract_country x)
                        then py_str (extract_country x) else "") |}.

(** Lines 690-697: the stored candidate table, or an empty one. *)
Definition load_candidates (job_dir : JobDir) : Exn + list CandidateRow :=
  match job_dir !! candidates_file with
  | None => inr []
  | Some (CandidateTable rows) => inr rows
  | Some _ => inl (Exception "read_csv")
  end.

Definition manual_authors (store : JobStore) (job_id author_name : string)
  : Response * JobStore :=
  match store !! job_id with
  | None =>
      (JSONResponse
         (error ("Invalid job_id '" +:+ job_id
                 +:+ "'. Please upload and extract metadata first.")) 404,
       store)
  | Some job_dir =>
      match load_candidates job_dir with
      | inl e => (Raised e, store)
      | inr author_email_df =>
          match search_pubmed_author author_name with
          | inl _ =>
              (JSONResponse
                 (error ("Failed to search for author '" +:+ author_name
                         +:+ "'. Please try again.")) 500,
               store)
          | inr (author_email, author_affiliation) =>
              if negb (PyStr.truthy (PyStr.strip author_name))
                 || negb (cell_truthy author_email)
                 || negb (cell_truthy author_affiliation)
              then
                (JSONResponse
                   (error ("Author '" +:+ author_name
                           +:+ "' not found or missing email/affiliation.")) 404,
                 store)
              else
                let author_email := default "" author_email in
                let author_affiliation := default "" author_affiliation in
                let new_author :=
                  {| c_author := Some (PyStr.strip author_name);
                     c_email := Some (PyStr.strip author_email);
                     c_aff := Some (PyStr.strip author_affiliation);
                     c_city := Some (parse_text
                                 (extract_city (PyStr.strip author_affiliation)));
                     c_country := Some (parse_text
                                 (extract_country (PyStr.strip author_affiliation))) |} in
                let df := filter (fun r => complete r = true)
                                 (author_email_df ++ [new_author]) in
                let df := map refresh_city_country df in
                (JSONResponse
                   (added ("Author '" +:+ author_name +:+ "' added successfully.")
                          job_id new_author) 200,
                 <[job_id := <[candidates_file := CandidateTable (map to_csv df)]>
                               job_dir]> store)
          end
      end
  end.

End Manual.

End ManualAuthors.

(** ** 6. validate_authors *)

Module Validation.
Import Table Store.

Inductive Role := role_first | role_last.

(** The external look-ups [validate_authors] calls.  A look-up is handed
    the cell as it is in the table; the optional arguments are the keyword
    arguments of the source ([last_n_years], [keyword_string], [role]).
    [country_extract] stands for the call followed by [json.loads]. *)
Record Collaborators := {
  get_pubmed_count_selenium : Cell -> option Z -> option string -> option Role -> Z;
  clinical_trails_no : Cell -> Z -> Z;
  pubmed_filtered_count : Cell -> string -> option Z -> Z;
  search_tandfonline_author : Cell -> string -> string -> Z;
  pubmed_english_count : Cell -> Z;
  check_coauthorship_selenium : string -> string -> bool;
  country_extract : list Cell -> list string;
  check_country_in_list : Cell -> list string -> string;
  check_aff_match : Cell -> list Cell -> string }.

(** *** The condition columns (lines 977-994) *)

(** **** float64 arithmetic

    A finite float64 number is kept as the rational it stands for.
    Rounding is to the nearest number with 53 significant bits, a tie
    going to the even significand.  The exponent range is not modelled:
    the columns are int64, whose values and quotients are normal numbers
    or zero. *)

(** The integer part of the binary logarithm of a positive rational. *)
Definition ilog2 (q : Q) : Z :=
  let k := Z.log2 (Qnum q) - Z.log2 (Zpos (Qden q)) in
  if Qle_bool (2 ^ k) q then k else k - 1.

(** The nearest integer, a tie going to the even one. *)
Definition round_half_even (m : Q) : Z :=
  let f := Qfloor m in
  match (m - inject_Z f ?= 1 # 2)%Q with
  | Lt => f
  | Gt => (f + 1)%Z
  | Eq => if Z.even f then f else (f + 1)%Z
  end.

(** The nearest number with 53 significant bits to a positive rational:
    the significand [q / 2^(e-52)] lies in [2^52, 2^53) and is rounded. *)
Definition nearest (q : Q) : Q :=
  let e := ilog2 q in
  (inject_Z (round_half_even (q * 2 ^ (52 - e))) * 2 ^ (e - 52))%Q.

(** The float64 number a rational is rounded to. *)
Definition float64 (q : Q) : Q :=
  match (q ?= 0)%Q with
  | Eq => 0%Q
  | Gt => nearest q
  | Lt => (- nearest (- q))%Q
  end.

(** The value of [English_Pubs / Total_Publications] on a row: the
    element-wise division of two int64 columns converts both operands to
    float64, divides and rounds, and never raises; a zero divisor gives an
    infinity or [NaN]. *)
Inductive Float :=
| Finite (q : Q)
| PosInf
| NegInf
| NaN.

Definition truediv (a b : Z) : Float :=
  if b =? 0 then
    if 0 <? a then PosInf else if a <? 0 then NegInf else NaN
  else Finite (float64 (float64 (inject_Z a) / float64 (inject_Z b))).

(** Counts that float64 holds exactly. *)
Definition below_2_53 (z : Z) : Prop := - 2 ^ 53 < z < 2 ^ 53.

(** [x > 0.5] on a float; every comparison with [NaN] is false. *)
Definition gt_half (x : Float) : bool :=
  match x with
  | Finite q => negb (Qle_bool q (1 # 2))
  | PosInf => true
  | NegInf => false
  | NaN => false
  end.

Definition astype_int (b : bool) : Z := if b then 1 else 0.

(** [lambda x: 1 if x >= 8 else 0] *)
Definition pub_condition_10_years (x : Z) : Z := if x >=? 8 then 1 else 0.

(** [lambda x: 1 if x >= 3 else 0] *)
Definition pub_condition_5_years (x : Z) : Z := if x >=? 3 then 1 else 0.

(** [lambda x: 1 if x >= 1 else 0] *)
Definition pub_condition_2_years (x : Z) : Z := if x >=? 1 then 1 else 0.

(** [((Total_Publications > 0) & ((English_Pubs / Total_Publications) > 0.5)).astype(int)]:
    both operands of [&] are computed on every row. *)
Definition english_cond (total english : Z) : Z :=
  let positive := 0 <? total in
  let ratio := gt_half (truediv english total) in
  astype_int (positive && ratio).

(** [lambda x: 1 if not x else 0] *)
Definition coauthor_cond (x : bool) : Z := if negb x then 1 else 0.

(** [lambda x: 1 if x == "NO" else 0] *)
Definition aff_cond (x : string) : Z := if String.eqb x "NO" then 1 else 0.

(** [lambda x: 1 if x == "YES" else 0] *)
Definition country_match_cond (x : string) : Z := if String.eqb x "YES" then 1 else 0.

(** [lambda x: 1 if x > 1 else 0] *)
Definition retracted_cond (x : Z) : Z := if x >? 1 then 1 else 0.

(** Lines 977-1004 on one row: a function of the row's metric columns. *)
Definition condition_score (m : ValidationMetrics) : ConditionScore :=
  let c10 := pub_condition_10_years (Publications_10_years m) in
  let c5 := pub_condition_5_years (Relevant_Publications_5_years m) in
  let c2 := pub_condition_2_years (Publications_2_years m) in
  let ce := english_cond (Total_Publications m) (English_Pubs m) in
  let cc := coauthor_cond (coauthor m) in
  let ca := aff_cond (aff_match m) in
  let cm := country_match_cond (country_match m) in
  let cr := retracted_cond (Retracted_Pubs_no m) in
  let met := c10 + ce + cc + ca + cm + c5 + c2 + cr in
  {| no_of_pub_condition_10_years := c10;
     no_of_pub_condition_5_years := c5;
     no_of_pub_condition_2_years := c2;
     english_condition := ce;
     coauthor_condition := cc;
     aff_condition := ca;
     country_match_condition := cm;
     retracted_condition := cr;
     conditions_met := met;
     conditions_satisfied := pretty met +:+ " of 8" |}.

(** The scored row of a candidate with its metrics. *)
Definition scored (c : CandidateRow) (m : ValidationMetrics) : ScoredRow :=
  {| candidate := c; metrics := m; score := condition_score m |}.

(** *** The coauthorship loop (lines 948-960) *)

Section Coauthorship.

Variable check : string -> string -> bool.

(** The inner loop for one candidate: the reference names handed to the
    collaborator, in call order, and the flag or the exception. *)
Fixpoint coauthored_with_any (author_from_df : string) (authors : list Cell)
  : list string * (Exn + bool) :=
  match authors with
  | [] => ([], inr false)
  | None :: _ => ([], inl (AttributeError "strip"))
  | Some ref_author :: rest =>
      let ref := PyStr.strip ref_author in
      if check author_from_df ref then ([ref], inr true)
      else let '(calls, r) := coauthored_with_any author_from_df rest in
           (ref :: calls, r)
  end.

(** The outer loop over the rows; [authors] is the whole author column. *)
Fixpoint coauthor_loop (rows authors : list Cell) : Exn + list bool :=
  match rows with
  | [] => inr []
  | None :: _ => inl (AttributeError "strip")
  | Some a :: rows' =>
      match snd (coauthored_with_any (PyStr.strip a) authors) with
      | inl e => inl e
      | inr flag =>
          match coauthor_loop rows' authors with
          | inl e => inl e
          | inr flags => inr (flag :: flags)
          end
      end
  end.

Definition coauthor_results (authors : list Cell) : Exn + list bool :=
  coauthor_loop authors authors.

End Coauthorship.

(** The coauthor flag as the specification words it, to compare with the
    loop: the collaborator answers yes for the candidate at index [i]
    paired with an entry of the pool other than its own. *)
Definition coauthored_with_other (check : string -> string -> bool)
    (names : list string) (i : nat) (X : string) : Prop :=
  exists (j : nat) (Y : string),
    j <> i /\ names !! j = Some Y
    /\ check (PyStr.strip X) (PyStr.strip Y) = true.

(** [list(dict.fromkeys(l))]: first occurrences, in order. *)
Fixpoint dict_fromkeys (l : list string) : list string :=
  match l with
  | [] => []
  | x :: l' => x :: filter (fun y => y <> x) (dict_fromkeys l')
  end.

(** *** The ranking (line 1005) *)

Definition by_conditions_met (r : ScoredRow) : Z := conditions_met (score r).

(** [a] may come before [b] in a table sorted by [conditions_met],
    descending. *)
Definition descending (a b : ScoredRow) : Prop :=
  by_conditions_met b <= by_conditions_met a.

#[global] Instance descending_dec : RelDecision descending :=
  fun a b => Z_le_dec (by_conditions_met b) (by_conditions_met a).

(** What [sort_values(by='conditions_met', ascending=False)] promises with
    the default [kind]: the rows reordered, keys in descending order. *)
Definition sort_values_contract (sort : list ScoredRow -> list ScoredRow) : Prop :=
  forall df, sort df ≡ₚ df /\ Sorted descending (sort df).

(** *** The endpoint *)

Definition after_val_file : string := "author_email_df_after_val.csv".
Definition final_authors_file : string := "Final_authors.csv".
Definition display_file : string := "Final_authors_display.csv".

(** The columns of [author_email_df_before_val.csv]. *)
Definition csv_columns : list string := ["author"; "email"; "aff"; "city"; "country"].

(** The columns lines 823-1004 add to the frame, in order, under the
    names the assignments give them. *)
Definition added_columns : list string :=
  ["Total_Publications"; "Total_Publications_first"; "Total_Publications_last";
   "Publications_10_years"; "Publications_10_years_first"; "Publications_10_years_last";
   "Publications_5_years"; "Publications_5_years_first"; "Publications_5_years_last";
   "Relevant_Publications_5_years"; "Relevant_Publications_5_years_first";
   "Relevant_Publications_5_years_last";
   "Publications_2_years)"; "Publications_2_years_first)"; "Publications_2_years_last)";
   "Publications_last_year)"; "Publications_last_year_first)";
   "Publications_last_year_last)";
   "Clinical_Trials_no"; "Retracted_Pubs_no"; "Clinical_study_no"; "Case_reports_no";
   "TF_Publications_last_year"; "English_Pubs";
   "coauthor"; "country_match"; "aff_match";
   "no_of_pub_condition_10_years"; "no_of_pub_condition_5_years";
   "no_of_pub_condition_2_years"; "english_condition"; "coauthor_condition";
   "aff_condition"; "country_match_condition"; "retracted_condition";
   "conditions_met"; "conditions_satisfied"].

(** [rename(columns={old: new})] on the column labels. *)
Definition rename (old new : string) (columns : list string) : list string :=
  map (fun c => if String.eqb c old then new else c) columns.

(** The labels of the frame when line 1016 selects from it. *)
Definition frame_columns : list string :=
  rename "author" "reviewer" (csv_columns ++ added_columns).

(** The labels line 1016 selects (lines 1017-1023). *)
Definition display_columns : list string :=
  ["reviewer"; "email"; "aff"; "country"; "Total_Publications"; "English_Pubs";
   "Publications_10_years"; "Relevant_Publications_5_years";
   "Publications_2_years)"; "Publications_last_year"; "Clinical_Trials_no";
   "Clinical_study_no"; "Case_reports_no"; "Retracted_Pubs_no";
   "TF_Publications_last_year"; "coauthor"; "country_match"; "aff_match";
   "no_of_pub_condition_10_years"; "no_of_pub_condition_5_years";
   "no_of_pub_condition_2_years"; "english_condition"; "coauthor_condition";
   "aff_condition"; "country_match_condition"; "retracted_condition";
   "conditions_met"; "conditions_satisfied"].

(** [df[labels]]: the labels that are no column of the frame; the
    selection raises [KeyError] when there is one. *)
Definition missing_labels (labels columns : list string) : list string :=
  filter (fun label => existsb (String.eqb label) columns = false) labels.

(** Lines 810-816: the keyword string of the first [*_keywordstring.json]
    found, the empty string when there is none. *)
Definition load_keyword_string (job_dir : JobDir) : Exn + string :=
  match glob_suffix "_keywordstring.json" job_dir with
  | [] => inr ""
  | (_, KeywordJson k) :: _ => inr (default "" k)
  | _ :: _ => inl (Exception "json.load")
  end.

Section Endpoint.

Variable C : Collaborators.
Variable sort_values : list ScoredRow -> list ScoredRow.

(** Lines 820-943 and 962-975 on one row. *)
Definition metrics_row (keyword_string : string) (unique_countries_list : list string)
    (original_aff : list Cell) (r : CandidateRow) (coauthored : bool)
  : ValidationMetrics :=
  let x := c_author r in
  let count := get_pubmed_count_selenium C x in
  {| Total_Publications := count None None None;
     Total_Publications_first := count None None (Some role_first);
     Total_Publications_last := count None None (Some role_last);
     Publications_10_years := count (Some 10) None None;
     Publications_10_years_first := count (Some 10) None (Some role_first);
     Publications_10_years_last := count (Some 10) None (Some role_last);
     Publications_5_years := count (Some 5) None None;
     Publications_5_years_first := count (Some 5) None (Some role_first);
     Publications_5_years_last := count (Some 5) None (Some role_last);
     Relevant_Publications_5_years := count (Some 5) (Some keyword_string) None;
     Relevant_Publications_5_years_first :=
       count (Some 5) (Some keyword_string) (Some role_first);
     Relevant_Publications_5_years_last :=
       count (Some 5) (Some keyword_string) (Some role_last);
     Publications_2_years := count (Some 2) None None;
     Publications_2_years_first := count (Some 2) None (Some role_first);
     Publications_2_years_last := count (Some 2) None (Some role_last);
     Publications_last_year := count (Some 1) None None;
     Publications_last_year_first := count (Some 1) None (Some role_first);
     Publications_last_year_last := count (Some 1) None (Some role_last);
     Clinical_Trials_no := clinical_trails_no C x 2;
     Retracted_Pubs_no := pubmed_filtered_count C x "Retracted Publication" None;
     Clinical_study_no := pubmed_filtered_count C x "Clinical Study" (Some 2);
     Case_reports_no := pubmed_filtered_count C x "Case Reports" (Some 2);
     TF_Publications_last_year := search_tandfonline_author C x "2024" "2025";
     English_Pubs := pubmed_english_count C x;
     coauthor := coauthored;
     country_match := check_country_in_list C (c_aff r) unique_countries_list;
     aff_match := check_aff_match C (c_aff r) original_aff |}.

(** Lines 820-1004: the scored table before it is sorted. *)
Definition scored_pool (keyword_string : string) (df : list CandidateRow)
  : Exn + list ScoredRow :=
  match coauthor_results (check_coauthorship_selenium C) (map c_author df) with
  | inl e => inl e
  | inr coauthor_flags =>
      let original_aff := map c_aff df in
      let unique_countries_list := dict_fromkeys (country_extract C original_aff) in
      inr (zip_with
             (fun r flag =>
                scored r (metrics_row keyword_string unique_countries_list
                                      original_aff r flag))
             df coauthor_flags)
  end.

(** Lines 820-1005: the ranked table. *)
Definition ranked_pool (keyword_string : string) (df : list CandidateRow)
  : Exn + list ScoredRow :=
  match scored_pool keyword_string df with
  | inl e => inl e
  | inr pool => inr (sort_values pool)
  end.

(** The endpoint.  The display projection (line 1016) comes after the
    first two files are written; a label that is no column of the frame
    makes it raise [KeyError] (kept here with the first such label),
    otherwise the display file is written and the success body returned. *)
Definition validate_authors (store : JobStore) (job_id : string)
  : Response * JobStore :=
  match store !! job_id with
  | None =>
      (JSONResponse
         (error ("Invalid job_id '" +:+ job_id
                 +:+ "'. Please run /database_search first.")) 404,
       store)
  | Some job_dir =>
      match job_dir !! candidates_file with
      | None =>
          (JSONResponse
             (error "No author_email_df_before_val.csv found. Please run /database_search first.")
             404,
           store)
      | Some (CandidateTable author_email_df) =>
          match load_keyword_string job_dir with
          | inl e => (Raised e, store)
          | inr keyword_string =>
              match ranked_pool keyword_string author_email_df with
              | inl e => (Raised e, store)
              | inr ranked =>
                  let d1 := <[after_val_file := ScoredTable ranked]> job_dir in
                  let d2 := <[final_authors_file := ScoredTable ranked]> d1 in
                  match missing_labels display_columns frame_columns with
                  | label :: _ => (Raised (KeyError label), <[job_id := d2]> store)
                  | [] =>
                      let d3 := <[display_file := DisplayTable display_columns ranked]>
                                  d2 in
                      (JSONResponse
                         (validated
                            ("Author validation and scoring completed successfully for job_id '"
                             +:+ job_id +:+ "'.")
                            job_id (length ranked) (firstn 5 ranked)) 200,
                       <[job_id := d3]> store)
                  end
              end
          end
      | Some _ => (Raised (Exception "read_csv"), store)
      end
  end.

End Endpoint.

End Validation.

(** ** Shapes of texts *)

Module Shape.

(** Some character of [s] satisfies [P]. *)
Fixpoint any_char (P : ascii -> bool) (s : string) : bool :=
  match s with
  | EmptyString => false
  | String c s' => P c || any_char P s'
  end.

Definition has_comma (s : string) : bool := any_char (Ascii.eqb ",") s.

Definition starts_with_space (s : string) : bool :=
  match s with
  | EmptyString => false
  | String c _ => PyStr.isspace c
  end.

(** Every whitespace character of [s] is a space, and no two of them are
    adjacent. *)
Fixpoint single_spaced (s : string) : bool :=
  match s with
  | EmptyString => true
  | String c s' =>
      (if PyStr.isspace c then Ascii.eqb c " " && negb (starts_with_space s') else true)
      && single_spaced s'
  end.

(** A keyword as [parse_keywords] keeps them: not empty, nothing to strip,
    no comma. *)
Definition clean_keyword (kw : string) : Prop :=
  PyStr.truthy kw = true /\ PyStr.strip kw = kw /\ has_comma kw = false.

(** What the comprehension of lines 437-438 does with one field. *)
Definition keep (kw : string) : option string :=
  let k := PyStr.strip kw in if PyStr.truthy k then Some k else None.

End Shape.

(** ** The row of a manually added author *)

Module ManualRows.
Import Table.

(** [new_author] of lines 738-744, for a look-up that returned the email
    [e] and the affiliation [a]. *)
Definition new_row (extract_city extract_country : string -> ParseResult)
    (author_name e a : string) : CandidateRow :=
  {| c_author := Some (PyStr.strip author_name);
     c_email := Some (PyStr.strip e);
     c_aff := Some (PyStr.strip a);
     c_city := Some (ManualAuthors.parse_text (extract_city (PyStr.strip a)));
     c_country := Some (ManualAuthors.parse_text (extract_country (PyStr.strip a))) |}.

End ManualRows.

(** ** More of Python's text operations *)

Module PyText.

(** [s.startswith(prefix)] and [s.endswith(suffix)] *)
Definition startswith (prefix s : string) : bool := String.prefix prefix s.

Definition endswith (suffix s : string) : bool :=
  String.prefix (String.rev suffix) (String.rev s).

(** [s[:-1]] *)
Fixpoint drop_last (s : string) : string :=
  match s with
  | EmptyString => EmptyString
  | String _ EmptyString => EmptyString
  | String c s' => String c (drop_last s')
  end.

(** [s[1:-1]] *)
Definition slice_inner (s : string) : string :=
  drop_last (CandidateMerger.drop_string 1 s).

(** [s.replace(old, new)] for a non-empty [old]: occurrences are replaced
    left to right, without overlap; [skip] is what is left to pass of the
    occurrence in progress. *)
Fixpoint replace_from (old new : string) (skip : nat) (s : string) : string :=
  match s with
  | EmptyString => EmptyString
  | String c s' =>
      match skip with
      | S k => replace_from old new k s'
      | O =>
          if String.prefix old s
          then new +:+ replace_from old new (pred (String.length old)) s'
          else String c (replace_from old new O s')
      end
  end.

Definition replace (old new s : string) : string := replace_from old new O s.

(** [s.rfind(".")], counting from [i]. *)
Fixpoint rfind_dot (i : nat) (s : string) : option nat :=
  match s with
  | EmptyString => None
  | String c s' =>
      match rfind_dot (S i) s' with
      | Some j => Some j
      | None => if Ascii.eqb c "." then Some i else None
      end
  end.

(** [Path(name).stem]: the name without its last suffix; a leading or a
    final dot starts no suffix. *)
Definition stem (name : string) : string :=
  match rfind_dot O name with
  | Some i =>
      if (0 <? i)%nat && (i <? String.length name - 1)%nat
      then String.substring 0 i name
      else name
  | None => name
  end.

End PyText.

(** ** 3. keyword_enhancement: the focus strings (lines 272-286, 321-337) *)

Module KeywordEnhancement.
Import CandidateMerger.

(** Number of whitespace characters at the head of [s]. *)
Fixpoint span_space (s : string) : nat :=
  match s with
  | EmptyString => O
  | String c s' => if PyStr.isspace c then S (span_space s') else O
  end.

(** [(?=OR|AND)] at the head of [s]. *)
Definition ahead_or_and (s : string) : bool :=
  String.prefix "OR" s || String.prefix "AND" s.

(** [[^()]*\)] matches at the head of [s]: the first parenthesis met is a
    closing one. *)
Fixpoint closes_paren (s : string) : bool :=
  match s with
  | EmptyString => false
  | String c s' =>
      if Ascii.eqb c ")" then true
      else if Ascii.eqb c "(" then false
      else closes_paren s'
  end.

(** The pattern [\s+(?=OR|AND)(?![^()]*\))\s+] at the head of [s] when its
    first [\s+] takes [k] characters: both look-aheads are tested where
    the first [\s+] stops, and the second [\s+] must match there too.
    The result is the length of the match. *)
Definition match_with (k : nat) (s : string) : option nat :=
  let rest := drop_string k s in
  if ahead_or_and rest && negb (closes_paren rest)
  then match span_space rest with
       | O => None
       | S m => Some (k + S m)%nat
       end
  else None.

(** Backtracking over the length of the first [\s+], longest first. *)
Fixpoint match_from (k : nat) (s : string) : option nat :=
  match k with
  | O => None
  | S k' =>
      match match_with k s with
      | Some n => Some n
      | None => match_from k' s
      end
  end.

Definition match_pattern (s : string) : option nat :=
  match_from (span_space s) s.

(** [re.split] for a pattern without groups that matches no empty text:
    [matcher] gives the length of the match at the head of a text, [skip]
    is what is left to pass of the match in progress.  The head of the
    result is the field in progress. *)
Fixpoint re_split (matcher : string -> option nat) (skip : nat) (s : string)
  : list string :=
  match s with
  | EmptyString => [EmptyString]
  | String c s' =>
      match skip with
      | S k => re_split matcher k s'
      | O =>
          match matcher s with
          | Some (S n) => EmptyString :: re_split matcher n s'
          | _ =>
              match re_split matcher O s' with
              | [] => [String c EmptyString]
              | f :: fs => String c f :: fs
              end
          end
      end
  end.

(** Lines 274-275: one pair of enclosing parentheses is taken off. *)
Definition unwrap (focus_str : string) : string :=
  if PyText.startswith "(" focus_str && PyText.endswith ")" focus_str
  then PyStr.strip (PyText.slice_inner focus_str)
  else focus_str.

(** The nested function [smart_split]. *)
Definition smart_split (focus_str : string) : list string :=
  let focus_str := unwrap (PyStr.strip focus_str) in
  map PyStr.strip (re_split match_pattern O focus_str).

(** Lines 279-337 for one of the two groups: the focus text given by the
    model, the additional keywords it gave, and the resulting keyword
    list.  [focus[0]] raises on an empty list. *)
Definition all_focus_list (focus_str : string) (additional : list string)
  : Store.Exn + list string :=
  match smart_split focus_str with
  | [] => inl (Store.Exception "IndexError")
  | first :: _ =>
      let focus_string := PyText.replace " OR " ", " first in
      let additional_string := PyStr.join ", " additional in
      let all_focus_string := focus_string +:+ ", " +:+ additional_string in
      inr (map PyStr.strip (PyStr.split "," all_focus_string))
  end.

(** [zip_longest] of the two keyword lists followed by [fillna("")]: the
    rows of [keywords.csv] (lines 343-345). *)
Fixpoint keyword_rows (primary secondary : list string) : list (string * string) :=
  match primary, secondary with
  | [], [] => []
  | p :: ps, [] => (p, EmptyString) :: keyword_rows ps []
  | [], s :: ss => (EmptyString, s) :: map (fun s => (EmptyString, s)) ss
  | p :: ps, s :: ss => (p, s) :: keyword_rows ps ss
  end.

End KeywordEnhancement.

(** ** The other endpoints over the job store *)

Module Endpoints.
Import Table Store.

(** What an endpoint with its own success body gives back. *)
Inductive Reply (A : Type) :=
| Ok (content : A)
| Refused (msg : string) (status_code : Z)
| Escaped (e : Exn).

Arguments Ok {A} content.
Arguments Refused {A} msg status_code.
Arguments Escaped {A} e.

(** A JSON object as far as the endpoints look into it: texts, lists of
    texts, and values left as they are. *)
Inductive JValue :=
| JString (s : string)
| JStrings (l : list string)
| JOther (text : string).

Abbreviation JObject := (list (string * JValue)).

(** [d[k] = v]: an existing key keeps its place. *)
Fixpoint dict_set (d : JObject) (k : string) (v : JValue) : JObject :=
  match d with
  | [] => [(k, v)]
  | (k', v') :: d' =>
      if String.eqb k' k then (k, v) :: d' else (k', v') :: dict_set d' k v
  end.

(** [d.update(items)] *)
Definition dict_update (d items : JObject) : JObject :=
  fold_left (fun acc kv => dict_set acc (fst kv) (snd kv)) items d.

(** *** metadata_extraction (lines 163-206) *)

(** The body of the success response. *)
Record MetadataAnswer := {
  ma_job_id : string;
  ma_file_name : string;
  ma_data : JObject }.

(** *** keyword_string_generator (lines 393-492) *)

(** The body of the success response. *)
Record KeywordAnswer := {
  ka_message : string;
  ka_job_id : string;
  ka_metadata_file : string;
  ka_keyword_file : string;
  ka_input_primary_keywords : list string;
  ka_input_secondary_keywords : list string;
  ka_keyword_string : string }.

(** Lines 427-428: the name of the keyword-string file of a metadata file. *)
Definition keyword_file_name (metadata_name : string) : string :=
  PyText.replace "_metadata" "" (PyText.stem metadata_name) +:+ "_keywordstring.json".

Section WithJson.

(** [json.load] on the text of a file and [json.dump] of an object; the
    metadata files hold JSON objects. *)
Variable json_load : string -> Exn + JObject.
Variable json_dump : JObject -> string.

(** The text of the clock, [datetime.now().strftime(...)]. *)
Variable now : string.

(** [json.load] on a stored metadata file.  A file kept as text is
    parsed; a keyword-string file is an object; a table is no JSON. *)
Definition read_json (file : Artifact) : Exn + JObject :=
  match file with
  | OtherFile text => json_load text
  | KeywordJson (Some k) => inr [("keyword_string", JString k)]
  | KeywordJson None => inr []
  | _ => inl (Exception "json.load")
  end.

(** Line 182: the [*_keywords.json] files if there is any, the
    [*_metadata.json] files otherwise. *)
Definition metadata_files (job_dir : JobDir) : list (string * Artifact) :=
  match glob_suffix "_keywords.json" job_dir with
  | [] => glob_suffix "_metadata.json" job_dir
  | found => found
  end.

Definition metadata_extraction (store : JobStore) (job_id : string)
  : Reply MetadataAnswer :=
  match store !! job_id with
  | None =>
      Refused ("Invalid job_id '" +:+ job_id
               +:+ "'. Please check or re-upload your file.") 404
  | Some job_dir =>
      match metadata_files job_dir with
      | [] => Refused ("No metadata found for job_id '" +:+ job_id +:+ "'.") 404
      | (metadata_name, metadata_file) :: _ =>
          match read_json metadata_file with
          | inl e => Escaped e
          | inr metadata_result =>
              Ok {| ma_job_id := job_id;
                    ma_file_name := metadata_name;
                    ma_data := metadata_result |}
          end
      end
  end.

Definition keyword_string_generator (store : JobStore)
    (job_id primary_keywords_input secondary_keywords_input : string)
  : Reply KeywordAnswer * JobStore :=
  match store !! job_id with
  | None =>
      (Refused ("Invalid job_id '" +:+ job_id
                +:+ "'. Please upload and extract metadata first.") 404,
       store)
  | Some job_dir =>
      match glob_suffix "_metadata.json" job_dir with
      | [] =>
          (Refused "No metadata file found. Please run /upload_extract_metadata first." 404,
           store)
      | (metadata_name, metadata_file) :: _ =>
          let keyword_name := keyword_file_name metadata_name in
          match read_json metadata_file with
          | inl e => (Escaped e, store)
          | inr input_data =>
              let primary_keywords :=
                KeywordQuery.parse_keywords primary_keywords_input in
              let secondary_keywords :=
                KeywordQuery.parse_keywords secondary_keywords_input in
              let keyword_string :=
                KeywordQuery.keyword_string primary_keywords secondary_keywords in
              let keyword_string_json :=
                [("timestamp", JString now);
                 ("input_primary_keywords", JStrings primary_keywords);
                 ("input_secondary_keywords", JStrings secondary_keywords);
                 ("keyword_string", JString keyword_string)] in
              let d1 := <[keyword_name := KeywordJson (Some keyword_string)]> job_dir in
              let updated_data := dict_update input_data keyword_string_json in
              let d2 := <[metadata_name := OtherFile (json_dump updated_data)]> d1 in
              (Ok {| ka_message :=
                       "Keyword string generated successfully for "
                       +:+ PyText.replace "_metadata" "" (PyText.stem metadata_name)
                       +:+ ".";
                     ka_job_id := job_id;
                     ka_metadata_file := metadata_name;
                     ka_keyword_file := keyword_name;
                     ka_input_primary_keywords := primary_keywords;
                     ka_input_secondary_keywords := secondary_keywords;
                     ka_keyword_string := keyword_string |},
               <[job_id := d2]> store)
          end
      end
  end.

(** *** database_search (lines 498-663) *)

(** The four search collaborators; [None] stands for a result that is no
    table ([None], or no list for T&F). *)
Record Searchers := {
  scrape_sciencedirect : string -> option (list SourceRow);
  search_tandfonline : string -> option (list SourceRow);
  fetch_article_details : string -> option (list SourceRow);
  get_pubmed_data : string -> option (list SourceRow) }.

(** [df['Website'] = website] on one row. *)
Definition tag (website : string) (row : SourceRow) : SourceRow :=
  {| Title := Title row;
     Authors := Authors row;
     Emails := Emails row;
     Author_Email_Map := Author_Email_Map row;
     Author_with_Affiliation := Author_with_Affiliation row;
     Website := website |}.

(** One of the four [if ... in selected_websites_list] blocks: the rows
    appended to [all_data_df] for a source. *)
Definition source_rows (selected : list string) (website : string)
    (result : option (list SourceRow)) : list SourceRow :=
  if bool_decide (website ∈ selected)
  then map (tag website) (default [] result)
  else [].

(** Lines 553-609: the combined table. *)
Definition combined (S : Searchers) (selected : list string) (keyword_string : string)
  : list SourceRow :=
  source_rows selected "ScienceDirect" (scrape_sciencedirect S keyword_string)
  ++ source_rows selected "TandFonline" (search_tandfonline S keyword_string)
  ++ source_rows selected "WileyLibrary" (fetch_article_details S keyword_string)
  ++ source_rows selected "PubMed" (get_pubmed_data S keyword_string).

Variable S : Searchers.
Variables extract_city extract_country : string -> ParseResult.

Definition database_search (store : JobStore) (job_id selected_websites : string)
  : Response * JobStore :=
  match store !! job_id with
  | None =>
      (JSONResponse
         (error ("Invalid job_id '" +:+ job_id
                 +:+ "'. Please upload and extract metadata first.")) 404,
       store)
  | Some job_dir =>
      match glob_suffix "_keywordstring.json" job_dir with
      | [] =>
          (JSONResponse
             (error ("No keyword string found for job_id '" +:+ job_id
                     +:+ "'. Please run /keyword_string_generator first.")) 404,
           store)
      | _ :: _ =>
          match Validation.load_keyword_string job_dir with
          | inl e => (Raised e, store)
          | inr keyword_string =>
              match
                match glob_suffix "_metadata.json" job_dir with
                | [] => inr []
                | (_, metadata_file) :: _ => read_json metadata_file
                end
              with
              | inl e => (Raised e, store)
              | inr metadata_data =>
                  let selected_websites_list :=
                    KeywordQuery.parse_keywords selected_websites in
                  CandidateMerger.merge_and_store extract_city extract_country
                    store job_id job_dir
                    (combined S selected_websites_list keyword_string)
              end
          end
      end
  end.

End WithJson.

(** *** recommended_reviewers (lines 1042-1084) *)

(** The body of the success response. *)
Record ReviewersAnswer := {
  ra_job_id : string;
  ra_reviewer_count : nat;
  ra_reviewers : list ScoredRow }.

Definition recommended_reviewers (store : JobStore) (job_id : string)
  : Reply ReviewersAnswer :=
  match store !! job_id with
  | None =>
      Refused ("Invalid job_id '" +:+ job_id
               +:+ "'. Please upload and process metadata first.") 404
  | Some job_dir =>
      match job_dir !! Validation.final_authors_file with
      | None =>
          Refused ("No reviewer data found for job_id '" +:+ job_id
                   +:+ "'. Please run the validation first.") 404
      | Some (ScoredTable author_email_df) =>
          Ok {| ra_job_id := job_id;
                ra_reviewer_count := length author_email_df;
                ra_reviewers := author_email_df |}
      | Some _ => Escaped (Exception "read_csv")
      end
  end.

End Endpoints.

(** ** Concrete data for the examples *)

Module Samples.
Import Table Store Validation.

(** Collaborators of a world in which nobody has published: every count
    is 0, two names are coauthors exactly when they are the same name. *)
Definition quiet : Collaborators :=
  {| get_pubmed_count_selenium := fun _ _ _ _ => 0;
     clinical_trails_no := fun _ _ => 0;
     pubmed_filtered_count := fun _ _ _ => 0;
     search_tandfonline_author := fun _ _ _ => 0;
     pubmed_english_count := fun _ => 0;
     check_coauthorship_selenium := String.eqb;
     country_extract := fun affs => omap id affs;
     check_country_in_list := fun _ _ => "YES";
     check_aff_match := fun _ _ => "NO" |}.

(** A sorting function that orders a table by [conditions_met]
    descending: a merge sort. *)
Definition sort_desc (df : list ScoredRow) : list ScoredRow :=
  merge_sort descending df.

Definition candidate_row (name mail affiliation : string) : CandidateRow :=
  {| c_author := Some name;
     c_email := Some mail;
     c_aff := Some affiliation;
     c_city := None;
     c_country := None |}.

Definition ada : CandidateRow := candidate_row "Ada Park" "ada@uni-a.edu" "University A".
Definition ben : CandidateRow := candidate_row "Ben Ruiz" "ben@uni-b.edu" "University B".

(** A job that has its candidate table but no keyword-string file. *)
Definition job_without_keywords : JobStore :=
  {[ "job-1" := {[ candidates_file := CandidateTable [ada; ben] ]} ]}.

(** A job that has its keyword-string file but no candidate table. *)
Definition job_without_candidates : JobStore :=
  {[ "job-1" := {[ "paper_keywordstring.json" := KeywordJson (Some "(asthma)") ]} ]}.

(** Two source records for the same person, with different emails and
    affiliations. *)
Definition jane_first : SourceRow :=
  {| Title := "Asthma in children";
     Authors := "Jane Doe, MD, PhD";
     Emails := "jane@uni-a.edu";
     Author_Email_Map := [("Jane Doe, MD, PhD", Some "jane@uni-a.edu")];
     Author_with_Affiliation := [("Jane Doe, MD, PhD", Some "University A")];
     Website := "PubMed" |}.

Definition jane_second : SourceRow :=
  {| Title := "COPD in adults";
     Authors := "Jane Doe";
     Emails := "jdoe@clinic-b.org";
     Author_Email_Map := [("Jane Doe", Some "jdoe@clinic-b.org")];
     Author_with_Affiliation := [("Jane Doe", Some "Clinic B")];
     Website := "WileyLibrary" |}.

Definition no_parse (aff : string) : ParseResult := PNone.

(** The same world, except that every author has three publications
    counted as English and none counted in total. *)
Definition english_only : Collaborators :=
  {| get_pubmed_count_selenium := fun _ _ _ _ => 0;
     clinical_trails_no := fun _ _ => 0;
     pubmed_filtered_count := fun _ _ _ => 0;
     search_tandfonline_author := fun _ _ _ => 0;
     pubmed_english_count := fun _ => 3;
     check_coauthorship_selenium := String.eqb;
     country_extract := fun affs => omap id affs;
     check_country_in_list := fun _ _ => "YES";
     check_aff_match := fun _ _ => "NO" |}.

Definition english_only_metrics : ValidationMetrics :=
  metrics_row english_only "" ["University A"] [c_aff ada] ada true.

(** Two answers of the author look-up: an affiliation without an email,
    and a complete answer. *)
Definition lookup_without_email (name : string) : Exn + (Cell * Cell) :=
  inr (None, Some "University C").

Definition lookup_found (name : string) : Exn + (Cell * Cell) :=
  inr (Some " cy@uni-c.edu", Some "University C ").

Definition city_of (aff : string) : ParseResult := PStr "Springfield".
Definition country_of (aff : string) : ParseResult := PSet ["USA"] "{'USA'}".

(** A job whose candidate table has its city and country columns filled. *)
Definition dana : CandidateRow :=
  {| c_author := Some "Dana Fox";
     c_email := Some "dana@uni-d.edu";
     c_aff := Some "University D";
     c_city := Some "Shelbyville";
     c_country := Some "USA" |}.

Definition job_with_dana : JobStore :=
  {[ "job-2" := {[ candidates_file := CandidateTable [dana] ]} ]}.

(** The row [validate_authors] computes for [ada] or [ben] in the job
    above, under the collaborators [quiet]. *)
Definition quiet_scored (c : CandidateRow) : ScoredRow :=
  scored c (metrics_row quiet "" ["University A"; "University B"]
                        [c_aff ada; c_aff ben] c true).

End Samples.

(** ** Concrete data for the further examples *)

Module MoreSamples.
Import Table Store Validation Endpoints Samples.

(** A candidate row read from a line with an empty author field. *)
Definition nameless : CandidateRow :=
  {| c_author := None;
     c_email := Some "x@uni-x.edu";
     c_aff := Some "University X";
     c_city := None;
     c_country := None |}.

Definition job_with_nameless : JobStore :=
  {[ "job-3" := {[ candidates_file := CandidateTable [ada; nameless] ]} ]}.

(** A job as the upload leaves it: its metadata file and nothing else. *)
Definition job_with_metadata : JobStore :=
  {[ "job-4" := {[ "paper_metadata.json" := OtherFile "{}" ]} ]}.

Definition metadata_dir : JobDir := {[ "paper_metadata.json" := OtherFile "{}" ]}.

(** The directory of the job of [job_without_candidates]. *)
Definition keyword_dir : JobDir :=
  {[ "paper_keywordstring.json" := KeywordJson (Some "(asthma)") ]}.

(** A JSON reader that finds an empty object in every text, a writer that
    prints every object the same way, and a time of day. *)
Definition load_empty (text : string) : Exn + JObject := inr [].
Definition dump_flat (d : JObject) : string := "{...}".
Definition noon : string := "2025-01-01 12:00:00".

(** Search collaborators of a world with two articles: PubMed knows the
    first record of [Jane Doe], Wiley the second; the two other sources
    return nothing. *)
Definition two_sources : Searchers :=
  {| scrape_sciencedirect := fun _ => None;
     search_tandfonline := fun _ => None;
     fetch_article_details := fun _ => Some [jane_second];
     get_pubmed_data := fun _ => Some [jane_first] |}.

(** Collaborators of a world in which every author has four
    publications, three of them counted as English. *)
Definition mostly_english : Collaborators :=
  {| get_pubmed_count_selenium := fun _ _ _ _ => 4;
     clinical_trails_no := fun _ _ => 0;
     pubmed_filtered_count := fun _ _ _ => 0;
     search_tandfonline_author := fun _ _ _ => 0;
     pubmed_english_count := fun _ => 3;
     check_coauthorship_selenium := String.eqb;
     country_extract := fun affs => omap id affs;
     check_country_in_list := fun _ _ => "YES";
     check_aff_match := fun _ _ => "NO" |}.

Definition mostly_english_metrics : ValidationMetrics :=
  metrics_row mostly_english "" ["University A"] [c_aff ada] ada true.

(** A source record whose author is listed by degrees only, and search
    collaborators of a world in which PubMed knows the first record of
    [Jane Doe] and that record. *)
Definition degrees_only : SourceRow :=
  {| Title := "COPD in adults";
     Authors := "MD, PhD";
     Emails := "md@clinic-b.org";
     Author_Email_Map := [("MD, PhD", Some "md@clinic-b.org")];
     Author_with_Affiliation := [("MD, PhD", Some "Clinic B")];
     Website := "PubMed" |}.

Definition degree_sources : Searchers :=
  {| scrape_sciencedirect := fun _ => None;
     search_tandfonline := fun _ => None;
     fetch_article_details := fun _ => None;
     get_pubmed_data := fun _ => Some [jane_first; degrees_only] |}.

End MoreSamples.

(** * Properties *)

(** ** The keyword query *)

Module KeywordQueryProps.
Import KeywordQuery.

Lemma build_string_nonempty_terms (keywords : list string) :
  build_string keywords
  = match nonempty_terms keywords with
    | [] => ""
    | terms => or_clause terms
    end.
Proof.
  unfold build_string, nonempty_terms.
  destruct (filter _ keywords) as [|kw [|kw' rest]]; reflexivity.
Qed.

Lemma or_clause_truthy (terms : list string) : PyStr.truthy (or_clause terms) = true.
Proof. reflexivity. Qed.

(** C6.  The generated query string is the one the specification
    describes: within a group the (non-empty) terms are joined by [" OR "]
    inside one pair of parentheses, the two clauses are joined by
    [" AND "], a one-term group is the term in parentheses, and when a
    group is empty the result is the other group's clause alone (the empty
    string when both are empty).  The two documented examples evaluate as
    stated. *)
Theorem keyword_string_meets_spec :
  (forall primary secondary : list string,
      keyword_string primary secondary = query_spec primary secondary)
  /\ (forall (c : ascii) (rest : string),
        build_string [String c rest] = "(" +:+ String c rest +:+ ")")
  /\ (forall primary : list string, keyword_string primary [] = build_string primary)
  /\ (forall secondary : list string, keyword_string [] secondary = build_string secondary)
  /\ keyword_string ["asthma"; "COPD"] ["pediatric"] = "(asthma OR COPD) AND (pediatric)"
  /\ keyword_string ["asthma"] [] = "(asthma)".
Proof.
  repeat split.
  - intros primary secondary. unfold keyword_string, query_spec.
    rewrite !build_string_nonempty_terms.
    destruct (nonempty_terms primary) as [|p ps], (nonempty_terms secondary) as [|q qs];
      reflexivity.
  - intros primary. unfold keyword_string.
    rewrite !build_string_nonempty_terms.
    destruct (nonempty_terms primary) as [|p ps]; reflexivity.
Qed.

End KeywordQueryProps.

(** ** The condition columns *)

Module ConditionProps.
Import Table Store Validation Samples.

Lemma astype_int_range (b : bool) : 0 <= astype_int b <= 1.
Proof. destruct b; simpl; lia. Qed.

Lemma pub_condition_10_years_range (x : Z) : 0 <= pub_condition_10_years x <= 1.
Proof. unfold pub_condition_10_years. destruct (x >=? 8); lia. Qed.

Lemma pub_condition_5_years_range (x : Z) : 0 <= pub_condition_5_years x <= 1.
Proof. unfold pub_condition_5_years. destruct (x >=? 3); lia. Qed.

Lemma pub_condition_2_years_range (x : Z) : 0 <= pub_condition_2_years x <= 1.
Proof. unfold pub_condition_2_years. destruct (x >=? 1); lia. Qed.

Lemma english_cond_range (t e : Z) : 0 <= english_cond t e <= 1.
Proof. apply astype_int_range. Qed.

Lemma coauthor_cond_range (x : bool) : 0 <= coauthor_cond x <= 1.
Proof. unfold coauthor_cond. destruct x; simpl; lia. Qed.

Lemma aff_cond_range (x : string) : 0 <= aff_cond x <= 1.
Proof. unfold aff_cond. destruct (String.eqb x "NO"); lia. Qed.

Lemma country_match_cond_range (x : string) : 0 <= country_match_cond x <= 1.
Proof. unfold country_match_cond. destruct (String.eqb x "YES"); lia. Qed.

Lemma retracted_cond_range (x : Z) : 0 <= retracted_cond x <= 1.
Proof. unfold retracted_cond. destruct (x >? 1); lia. Qed.

Lemma conditions_met_range (m : ValidationMetrics) :
  0 <= conditions_met (condition_score m) <= 8.
Proof.
  simpl.
  pose proof (pub_condition_10_years_range (Publications_10_years m)).
  pose proof (pub_condition_5_years_range (Relevant_Publications_5_years m)).
  pose proof (pub_condition_2_years_range (Publications_2_years m)).
  pose proof (english_cond_range (Total_Publications m) (English_Pubs m)).
  pose proof (coauthor_cond_range (coauthor m)).
  pose proof (aff_cond_range (aff_match m)).
  pose proof (country_match_cond_range (country_match m)).
  pose proof (retracted_cond_range (Retracted_Pubs_no m)).
  lia.
Qed.

(** C8.  Condition 1 is 1 exactly when the trailing-10-year publication
    count is at least 8, and 0 otherwise; a count of 8 satisfies it, a
    count of 7 does not. *)
Theorem condition_10_years_boundary :
  (forall m : ValidationMetrics,
      no_of_pub_condition_10_years (condition_score m) = 1
      <-> 8 <= Publications_10_years m)
  /\ (forall m : ValidationMetrics,
      no_of_pub_condition_10_years (condition_score m) = 0
      <-> Publications_10_years m < 8)
  /\ pub_condition_10_years 8 = 1
  /\ pub_condition_10_years 7 = 0.
Proof.
  repeat split; simpl; unfold pub_condition_10_years;
    destruct (Z.geb_spec (Publications_10_years m) 8); intros; lia.
Qed.

(** C1 (what the code computes).  The retraction column is 1 exactly when
    the retracted-publication count is greater than 1, and 0 when it is at
    most 1: a candidate without retractions gets 0, a candidate with two
    retractions gets 1. *)
Theorem retracted_condition_is_inverted :
  (forall m : ValidationMetrics,
      retracted_condition (condition_score m) = 1 <-> 1 < Retracted_Pubs_no m)
  /\ (forall m : ValidationMetrics,
      retracted_condition (condition_score m) = 0 <-> Retracted_Pubs_no m <= 1)
  /\ retracted_cond 0 = 0
  /\ retracted_cond 1 = 0
  /\ retracted_cond 2 = 1.
Proof.
  repeat split; simpl; unfold retracted_cond;
    destruct (Z.gtb_spec (Retracted_Pubs_no m) 1); intros; lia.
Qed.

(** C9.  For a candidate whose total-publication count is 0 the division
    of the English count by the total yields an infinity or NaN (a value,
    not an exception), and the English-ratio condition is 0 because the
    test [Total_Publications > 0] fails. *)
Theorem english_condition_zero_total (m : ValidationMetrics) :
  Total_Publications m = 0 ->
  (exists x : Float,
      truediv (English_Pubs m) (Total_Publications m) = x
      /\ (x = PosInf \/ x = NegInf \/ x = NaN))
  /\ english_condition (condition_score m) = 0.
Proof.
  intros Hzero. split.
  - rewrite Hzero. unfold truediv. simpl.
    destruct (0 <? English_Pubs m); [eauto|].
    destruct (English_Pubs m <? 0); eauto.
  - simpl. unfold english_cond. rewrite Hzero. reflexivity.
Qed.

(** The theorem for a candidate with three English publications and a
    total count of 0: the quotient is an infinity, the condition is 0. *)
Lemma english_condition_zero_total_witness :
  truediv (English_Pubs english_only_metrics) (Total_Publications english_only_metrics)
  = PosInf
  /\ english_condition (condition_score english_only_metrics) = 0.
Proof.
  split; [reflexivity|].
  exact (proj2 (english_condition_zero_total english_only_metrics eq_refl)).
Defined.

End ConditionProps.

(** ** The coauthorship loop *)

Module CoauthorshipProps.
Import Table Store Validation.

Section Loop.

Variable check : string -> string -> bool.

Lemma coauthored_with_any_cons (x Y : string) (rest : list string) :
  coauthored_with_any check x (Some <$> Y :: rest)
  = if check x (PyStr.strip Y) then ([PyStr.strip Y], inr true)
    else (PyStr.strip Y :: fst (coauthored_with_any check x (Some <$> rest)),
          snd (coauthored_with_any check x (Some <$> rest))).
Proof.
  change (Some <$> Y :: rest) with (Some Y :: (Some <$> rest)).
  cbn [coauthored_with_any].
  by destruct (coauthored_with_any check x (Some <$> rest)).
Qed.

(** The inner loop on a pool whose names are all texts: the flag is the
    disjunction over the whole pool, and the calls made are the names up
    to the first positive answer. *)
Lemma coauthored_with_any_text (x : string) (names : list string) :
  let f := fun Y => check x (PyStr.strip Y) in
  let r := coauthored_with_any check x (Some <$> names) in
  snd r = inr (existsb f names)
  /\ exists n : nat,
      fst r = PyStr.strip <$> take n names
      /\ (forall (k : nat) (Y : string),
             (S k < n)%nat -> names !! k = Some Y -> f Y = false)
      /\ (existsb f names = true ->
          exists Y, (0 < n)%nat /\ names !! pred n = Some Y /\ f Y = true)
      /\ (existsb f names = false -> n = length names).
Proof.
  intros f. induction names as [|Y rest IH]; intros r.
  - split; [reflexivity|]. exists 0%nat. repeat split; try done; intros; lia.
  - subst r. rewrite coauthored_with_any_cons.
    cbn [existsb]. change (check x (PyStr.strip Y)) with (f Y).
    destruct (f Y) eqn:HY; cbn [orb fst snd].
    + split; [reflexivity|]. exists 1%nat. split; [done|]. split; [|split].
      * intros; lia.
      * intros _. exists Y. split; [lia|done].
      * done.
    + cbv zeta in IH. destruct IH as [Hsnd (n & Hfst & Hneg & Hpos & Hall)].
      split; [done|]. exists (S n). split; [|split; [|split]].
      * by rewrite Hfst.
      * intros [|k] Z Hk HZ; simpl in HZ; [congruence|]. apply (Hneg k); [lia|done].
      * intros Hex. destruct (Hpos Hex) as (Z & Hn & HZ & HfZ).
        exists Z. split; [lia|]. split; [|done].
        destruct n; [lia|done].
      * intros Hex. by rewrite (Hall Hex).
Qed.

Lemma coauthor_loop_text (rows names : list string) :
  coauthor_loop check (Some <$> rows) (Some <$> names)
  = inr ((fun X => existsb (fun Y => check (PyStr.strip X) (PyStr.strip Y)) names)
           <$> rows).
Proof.
  induction rows as [|X rows IH]; [done|].
  change (Some <$> X :: rows) with (Some X :: (Some <$> rows)).
  cbn [coauthor_loop].
  destruct (coauthored_with_any_text (PyStr.strip X) names) as [-> _].
  by rewrite IH.
Qed.

End Loop.

(** C4 (amended).  On a pool whose names are all texts the loop returns
    one flag per candidate; the flag of candidate X is true exactly when
    the collaborator answers yes for X paired with some entry of the pool,
    X's own entry included; and the calls made for X are the pool's names
    in order up to the first positive answer: every earlier answer is no,
    a true flag comes from the last call made, and a false flag means the
    whole pool was asked. *)
Theorem coauthor_flag_any_pool_member (check : string -> string -> bool)
    (names : list string) :
  exists flags : list bool,
    coauthor_results check (Some <$> names) = inr flags
    /\ length flags = length names
    /\ forall (i : nat) (X : string),
        names !! i = Some X ->
        (flags !! i = Some true
         <-> exists (j : nat) (Y : string),
               names !! j = Some Y
               /\ check (PyStr.strip X) (PyStr.strip Y) = true)
        /\ exists n : nat,
            fst (coauthored_with_any check (PyStr.strip X) (Some <$> names))
            = PyStr.strip <$> take n names
            /\ (forall (k : nat) (Y : string),
                   (S k < n)%nat -> names !! k = Some Y ->
                   check (PyStr.strip X) (PyStr.strip Y) = false)
            /\ (flags !! i = Some true ->
                exists Y : string,
                  (0 < n)%nat /\ names !! pred n = Some Y
                  /\ check (PyStr.strip X) (PyStr.strip Y) = true)
            /\ (flags !! i = Some false -> n = length names).
Proof.
  eexists. split; [apply coauthor_loop_text|].
  split; [by rewrite length_fmap|].
  intros i X HX. rewrite list_lookup_fmap, HX. simpl.
  destruct (coauthored_with_any_text check (PyStr.strip X) names)
    as [_ (n & Hcalls & Hneg & Hpos & Hall)].
  split.
  - split.
    + intros [= Hex]. apply existsb_exists in Hex as (Y & HY & Hc).
      apply list_elem_of_In, list_elem_of_lookup in HY as [j Hj]. eauto.
    + intros (j & Y & Hj & Hc). f_equal. apply existsb_exists.
      exists Y. split; [|done]. apply list_elem_of_In, list_elem_of_lookup. eauto.
  - exists n. split; [done|]. split; [done|]. split.
    + intros [= Hex]. auto.
    + intros [= Hex]. auto.
Qed.

(** The theorem at the pool [Ada Park; Ben Ruiz] with name equality as the
    collaborator, for the first candidate. *)
Lemma coauthor_flag_any_pool_member_witness :
  exists flags : list bool,
    coauthor_results String.eqb (Some <$> ["Ada Park"; "Ben Ruiz"]) = inr flags
    /\ (flags !! 0%nat = Some true
        <-> exists (j : nat) (Y : string),
              ["Ada Park"; "Ben Ruiz"] !! j = Some Y
              /\ String.eqb (PyStr.strip "Ada Park") (PyStr.strip Y) = true).
Proof.
  destruct (coauthor_flag_any_pool_member String.eqb ["Ada Park"; "Ben Ruiz"])
    as (flags & Hrun & _ & Hflag).
  exists flags. split; [exact Hrun|].
  exact (proj1 (Hflag 0%nat "Ada Park" eq_refl)).
Defined.

(** C4 (as stated, refuted).  In a pool with the single candidate
    [Ada Park] and a collaborator that answers yes for a name paired with
    itself, the flag is true although no other entry of the pool exists. *)
Lemma coauthor_flag_counts_own_entry :
  coauthor_results String.eqb (Some <$> ["Ada Park"]) = inr [true]
  /\ ~ coauthored_with_other String.eqb ["Ada Park"] 0 "Ada Park".
Proof.
  split; [reflexivity|].
  intros (j & Y & Hj & HY & _). destruct j; [done|]. discriminate HY.
Qed.

End CoauthorshipProps.

(** ** A sort that honours the contract *)

Module RankingProps.
Import Table Store Validation Samples.

#[local] Instance descending_total : Total descending.
Proof. intros a b. unfold descending. lia. Qed.

#[local] Instance descending_transitive : Transitive descending.
Proof. intros a b c. unfold descending. lia. Qed.

Lemma sort_desc_contract : sort_values_contract sort_desc.
Proof.
  intros df. split.
  - apply merge_sort_Permutation.
  - apply (Sorted_merge_sort descending).
Qed.

End RankingProps.

(** ** The prerequisites of the validation stage *)

Module StageProps.
Import Table Store Validation Samples.

(** C5 (amended).  The validation stage refuses to run, answering 404
    with the missing prerequisite named and the store left as it was,
    when the job's directory or the candidate table is absent.  When the
    candidate table is there and no keyword-string file is, the stage
    does run, with the empty keyword string. *)
Theorem validate_authors_prerequisites (C : Collaborators)
    (sort : list ScoredRow -> list ScoredRow) (store : JobStore) (job_id : string) :
  (store !! job_id = None ->
   validate_authors C sort store job_id
   = (JSONResponse
        (error ("Invalid job_id '" +:+ job_id
                +:+ "'. Please run /database_search first.")) 404,
      store))
  /\ (forall job_dir : JobDir,
      store !! job_id = Some job_dir ->
      job_dir !! candidates_file = None ->
      validate_authors C sort store job_id
      = (JSONResponse
           (error "No author_email_df_before_val.csv found. Please run /database_search first.")
           404,
         store))
  /\ (forall (job_dir : JobDir) (df : list CandidateRow),
      store !! job_id = Some job_dir ->
      job_dir !! candidates_file = Some (CandidateTable df) ->
      glob_suffix "_keywordstring.json" job_dir = [] ->
      validate_authors C sort store job_id
      = match ranked_pool C sort "" df with
        | inl e => (Raised e, store)
        | inr ranked =>
            (Raised (KeyError "Publications_last_year"),
             <[job_id := <[final_authors_file := ScoredTable ranked]>
                           (<[after_val_file := ScoredTable ranked]> job_dir)]> store)
        end).
Proof.
  split; [|split].
  - intros Hjob. unfold validate_authors. by rewrite Hjob.
  - intros job_dir Hjob Hfile. unfold validate_authors. by rewrite Hjob, Hfile.
  - intros job_dir df Hjob Hfile Hglob. unfold validate_authors.
    rewrite Hjob, Hfile. unfold load_keyword_string. by rewrite Hglob.
Qed.

(** The theorem on three stores: no job at all, a job without its
    candidate table, a job without its keyword-string file. *)
Lemma validate_authors_prerequisites_witness :
  snd (validate_authors quiet sort_desc ∅ "job-1") = ∅
  /\ validate_authors quiet sort_desc job_without_candidates "job-1"
     = (JSONResponse
          (error "No author_email_df_before_val.csv found. Please run /database_search first.")
          404,
        job_without_candidates)
  /\ fst (validate_authors quiet sort_desc job_without_keywords "job-1")
     = Raised (KeyError "Publications_last_year").
Proof.
  split; [|split].
  - rewrite (proj1 (validate_authors_prerequisites quiet sort_desc ∅ "job-1")
               (lookup_empty "job-1")).
    reflexivity.
  - exact (proj1 (proj2 (validate_authors_prerequisites quiet sort_desc
                           job_without_candidates "job-1"))
             {[ "paper_keywordstring.json" := KeywordJson (Some "(asthma)") ]}
             eq_refl eq_refl).
  - rewrite (proj2 (proj2 (validate_authors_prerequisites quiet sort_desc
                             job_without_keywords "job-1"))
               {[ candidates_file := CandidateTable [ada; ben] ]} [ada; ben]
               eq_refl eq_refl eq_refl).
    reflexivity.
Defined.

(** The keyword string is read from whichever file of the job ends in
    [_keywordstring.json]. *)
Example load_keyword_string_found :
  load_keyword_string
    {[ "paper_keywordstring.json" := KeywordJson (Some "(asthma)");
       "paper_metadata.json" := OtherFile "{}";
       candidates_file := CandidateTable [ada; ben] ]}
  = inr "(asthma)".
Proof. reflexivity. Qed.

(** C5 (as stated, refuted).  The job below has its candidate table and
    no keyword-string file; the stage does not answer with a refusal and
    the validated table is written to the job's directory. *)
Lemma validate_authors_runs_without_keyword_file :
  job_without_keywords !! "job-1" = Some {[ candidates_file := CandidateTable [ada; ben] ]}
  /\ glob_suffix "_keywordstring.json"
       ({[ candidates_file := CandidateTable [ada; ben] ]} : JobDir) = []
  /\ (forall msg : string,
         fst (validate_authors quiet sort_desc job_without_keywords "job-1")
         <> JSONResponse (error msg) 404)
  /\ snd (validate_authors quiet sort_desc job_without_keywords "job-1") !! "job-1"
       ≫= (fun d => d !! after_val_file)
     = Some (ScoredTable [quiet_scored ada; quiet_scored ben])
  /\ snd (validate_authors quiet sort_desc job_without_keywords "job-1")
     <> job_without_keywords.
Proof.
  split; [reflexivity|]. split; [reflexivity|]. split; [|split].
  - intros msg. vm_compute. discriminate.
  - reflexivity.
  - intros Heq.
    assert (Hfile : snd (validate_authors quiet sort_desc job_without_keywords "job-1")
                      !! "job-1" ≫= (fun d => d !! after_val_file)
                    = job_without_keywords !! "job-1" ≫= (fun d => d !! after_val_file))
      by (by rewrite Heq).
    vm_compute in Hfile. discriminate Hfile.
Qed.

End StageProps.

(** ** The candidate table built by the search stage *)

Module CandidateMergerProps.
Import Table Store CandidateMerger Samples.

(** The name-cleaning example of the specification. *)
Example clean_author_degrees : clean_author "Jane Doe, MD, PhD" = "Jane Doe".
Proof. reflexivity. Qed.

Lemma prefix_cons_inv (a b : ascii) (w s : string) :
  String.prefix (String a w) (String b s) = true -> a = b /\ String.prefix w s = true.
Proof. simpl. destruct (ascii_dec a b); [done|discriminate]. Qed.

Lemma prefix_nil_inv (a : ascii) (w : string) :
  String.prefix (String a w) EmptyString = true -> False.
Proof. discriminate. Qed.

Lemma prefix_common (w1 : string) :
  forall w2 s : string,
    String.prefix w1 s = true -> String.prefix w2 s = true ->
    (String.length w1 <= String.length w2)%nat ->
    String.prefix w1 w2 = true.
Proof.
  induction w1 as [|a w1 IH]; intros w2 s H1 H2 Hlen.
  - by destruct w2.
  - destruct w2 as [|b w2]; [simpl in Hlen; lia|].
    destruct s as [|c s]; [discriminate H1|].
    apply prefix_cons_inv in H1 as [-> H1].
    apply prefix_cons_inv in H2 as [-> H2].
    simpl. destruct (ascii_dec c c); [|done].
    apply (IH w2 s); [done..|]. simpl in Hlen. lia.
Qed.

Lemma head_char_drop_prefix (n : nat) :
  forall w s : string,
    String.prefix w s = true -> (n < String.length w)%nat ->
    head_char (drop_string n s) = head_char (drop_string n w).
Proof.
  induction n as [|n IH]; intros w s Hp Hn.
  - destruct w as [|a w]; [simpl in Hn; lia|].
    destruct s as [|b s]; [discriminate Hp|].
    by apply prefix_cons_inv in Hp as [-> _].
  - destruct w as [|a w]; [simpl in Hn; lia|].
    destruct s as [|b s]; [discriminate Hp|].
    apply prefix_cons_inv in Hp as [-> Hp]. simpl.
    apply IH; [done|]. simpl in Hn. lia.
Qed.

Lemma prefix_same_length (w1 : string) :
  forall w2 : string,
    String.prefix w1 w2 = true -> String.length w1 = String.length w2 -> w1 = w2.
Proof.
  induction w1 as [|a w1 IH]; intros [|b w2] Hp Hlen; try done.
  apply prefix_cons_inv in Hp as [-> Hp]. f_equal. apply IH; [done|].
  simpl in Hlen. lia.
Qed.

Lemma degree_words_no_boundary_inside :
  forallb (fun w1 => forallb (no_boundary_inside w1) DEGREE_WORDS) DEGREE_WORDS = true.
Proof. vm_compute. reflexivity. Qed.

Lemma word_matches_unique_le (before : option ascii) (s w1 w2 : string) :
  In w1 DEGREE_WORDS -> In w2 DEGREE_WORDS ->
  word_matches before s w1 = true -> word_matches before s w2 = true ->
  (String.length w1 <= String.length w2)%nat ->
  w1 = w2.
Proof.
  intros Hw1 Hw2 Hm1 Hm2 Hlen.
  unfold word_matches in Hm1, Hm2.
  apply andb_prop in Hm1 as [Hm1 Hb1]. apply andb_prop in Hm1 as [_ Hp1].
  apply andb_prop in Hm2 as [Hm2 _]. apply andb_prop in Hm2 as [_ Hp2].
  pose proof (prefix_common w1 w2 s Hp1 Hp2 Hlen) as Hp.
  destruct (decide (String.length w1 = String.length w2)) as [Heq|Hne].
  { by apply prefix_same_length. }
  pose proof degree_words_no_boundary_inside as Hall.
  rewrite forallb_forall in Hall. specialize (Hall w1 Hw1).
  rewrite forallb_forall in Hall. specialize (Hall w2 Hw2).
  unfold no_boundary_inside in Hall.
  rewrite Hp in Hall. simpl in Hall. rewrite orb_false_r in Hall.
  apply orb_prop in Hall as [Heq|Hnb].
  { by apply String.eqb_eq in Heq. }
  rewrite <- (head_char_drop_prefix (String.length w1) w2 s Hp2) in Hnb by lia.
  rewrite Hb1 in Hnb. discriminate Hnb.
Qed.

Lemma word_matches_unique (before : option ascii) (s w1 w2 : string) :
  In w1 DEGREE_WORDS -> In w2 DEGREE_WORDS ->
  word_matches before s w1 = true -> word_matches before s w2 = true ->
  w1 = w2.
Proof.
  intros Hw1 Hw2 Hm1 Hm2.
  destruct (Nat.le_ge_cases (String.length w1) (String.length w2)).
  - by apply (word_matches_unique_le before s).
  - symmetry. by apply (word_matches_unique_le before s).
Qed.

(** X4.  The alternatives of the degree pattern come from a set, whose
    iteration order is not fixed: whatever order they are tried in, the
    match found at a position is the same. *)
Lemma match_degree_any_order (before : option ascii) (s : string) (words : list string) :
  words ≡ₚ DEGREE_WORDS ->
  String.length <$> find (word_matches before s) words = match_degree before s.
Proof.
  intros Hperm. unfold match_degree. f_equal.
  destruct (find (word_matches before s) words) as [w|] eqn:Hw;
    destruct (find (word_matches before s) DEGREE_WORDS) as [w'|] eqn:Hw'.
  - apply find_some in Hw as [Hin Hm]. apply find_some in Hw' as [Hin' Hm'].
    f_equal. apply (word_matches_unique before s); try done.
    apply list_elem_of_In. rewrite <- Hperm. by apply list_elem_of_In.
  - apply find_some in Hw as [Hin Hm].
    rewrite (find_none _ _ Hw' w) in Hm; [discriminate|].
    apply list_elem_of_In. rewrite <- Hperm. by apply list_elem_of_In.
  - apply find_some in Hw' as [Hin' Hm'].
    rewrite (find_none _ _ Hw w') in Hm'; [discriminate|].
    apply list_elem_of_In. rewrite Hperm. by apply list_elem_of_In.
  - done.
Qed.

Section Merge.

Variables extract_city extract_country : string -> ParseResult.

Lemma entries_for_author_rows (name : string) (ts : list (string * string * string)) :
  entries_for name (author_row extract_city extract_country <$> ts)
  = author_row extract_city extract_country
      <$> filter (fun t => clean_author (fst (fst t)) = name) ts.
Proof.
  unfold entries_for. induction ts as [|[[a e] f] ts IH]; [done|].
  rewrite fmap_cons, !filter_cons, IH. simpl.
  destruct (decide (clean_author a = name)); done.
Qed.

Lemma candidate_pool_surviving (final_df : list SourceRow) (pool : list AuthorRow) :
  candidate_pool extract_city extract_country final_df = inr pool ->
  pool = author_row extract_city extract_country <$> surviving final_df.
Proof.
  unfold candidate_pool, author_email_df, surviving.
  destruct (records (filter_valid final_df)); [discriminate|].
  by intros [= <-].
Qed.

End Merge.

(** C2 (amended).  The candidate table has one entry per recorded
    (author, email, affiliation) occurrence that survives [dropna]: for
    every name, the entries carrying that name are, in input order, the
    occurrences whose author cleans to that name, each with its own email
    and affiliation.  Nothing is merged; the first entry for a name
    carries the first-seen email and affiliation. *)
Theorem candidate_pool_keeps_every_occurrence
    (extract_city extract_country : string -> ParseResult)
    (final_df : list SourceRow) (pool : list AuthorRow) :
  candidate_pool extract_city extract_country final_df = inr pool ->
  length pool = length (surviving final_df)
  /\ forall name : string,
      (fun r => (email r, aff r)) <$> entries_for name pool
      = (fun t => (snd (fst t), snd t)) <$> occurrences name final_df
      /\ (fun r => (email r, aff r)) <$> head (entries_for name pool)
         = (fun t => (snd (fst t), snd t)) <$> head (occurrences name final_df).
Proof.
  intros Hpool.
  apply candidate_pool_surviving in Hpool as ->.
  split; [by rewrite length_fmap|].
  intros name. rewrite entries_for_author_rows. unfold occurrences.
  set (occ := filter _ (surviving final_df)).
  assert (Hrows : forall ts : list (string * string * string),
             (fun r => (email r, aff r))
               <$> (author_row extract_city extract_country <$> ts)
             = (fun t => (snd (fst t), snd t)) <$> ts).
  { intros ts. rewrite <- list_fmap_compose.
    apply list_fmap_ext. by intros _ [[a e] f] _. }
  split; [apply Hrows|].
  destruct occ as [|[[a e] f] occ]; reflexivity.
Qed.

(** The theorem for the two records of [Jane Doe]. *)
Lemma candidate_pool_keeps_every_occurrence_witness :
  exists pool : list AuthorRow,
    candidate_pool no_parse no_parse [jane_first; jane_second] = inr pool
    /\ length pool = 2%nat.
Proof.
  destruct (candidate_pool no_parse no_parse [jane_first; jane_second])
    as [e|pool] eqn:Hpool; [discriminate Hpool|].
  exists pool. split; [reflexivity|].
  exact (proj1 (candidate_pool_keeps_every_occurrence no_parse no_parse
                  [jane_first; jane_second] pool Hpool)).
Defined.

(** C2 (as stated, refuted).  Two source records give the same cleaned
    name [Jane Doe] with different emails and affiliations; the candidate
    table has two entries for that name, one per record. *)
Lemma candidate_pool_keeps_both_emails :
  exists pool : list AuthorRow,
    candidate_pool no_parse no_parse [jane_first; jane_second] = inr pool
    /\ clean_author "Jane Doe, MD, PhD" = "Jane Doe"
    /\ clean_author "Jane Doe" = "Jane Doe"
    /\ (fun r => (email r, aff r)) <$> entries_for "Jane Doe" pool
       = [("jane@uni-a.edu", "University A"); ("jdoe@clinic-b.org", "Clinic B")]
    /\ length (entries_for "Jane Doe" pool) <> 1%nat.
Proof.
  eexists. split; [reflexivity|]. split; [reflexivity|]. split; [reflexivity|].
  split; [reflexivity|]. vm_compute. discriminate.
Qed.

End CandidateMergerProps.

(** ** Manual addition of an author *)

Module ManualAuthorsProps.
Import Table Store ManualAuthors Samples.

(** C10.  When the look-up returns no email or no affiliation for the
    name, the store is left exactly as it was, whatever else holds; the
    response is a 404: the not-found error for the author whenever the
    job exists and its candidate table can be loaded, the invalid-job
    error when the job does not exist. *)
Theorem manual_authors_not_found_is_atomic
    (search_pubmed_author : string -> Exn + (Cell * Cell))
    (extract_city extract_country : string -> ParseResult)
    (store : JobStore) (job_id author_name : string)
    (author_email author_affiliation : Cell) :
  search_pubmed_author author_name = inr (author_email, author_affiliation) ->
  cell_truthy author_email = false \/ cell_truthy author_affiliation = false ->
  snd (manual_authors search_pubmed_author extract_city extract_country
         store job_id author_name) = store
  /\ (store !! job_id = None ->
      fst (manual_authors search_pubmed_author extract_city extract_country
             store job_id author_name)
      = JSONResponse
          (error ("Invalid job_id '" +:+ job_id
                  +:+ "'. Please upload and extract metadata first.")) 404)
  /\ (forall (job_dir : JobDir) (df : list CandidateRow),
      store !! job_id = Some job_dir ->
      load_candidates job_dir = inr df ->
      fst (manual_authors search_pubmed_author extract_city extract_country
             store job_id author_name)
      = JSONResponse
          (error ("Author '" +:+ author_name
                  +:+ "' not found or missing email/affiliation.")) 404).
Proof.
  intros Hsearch Hmissing.
  assert (Hguard : negb (PyStr.truthy (PyStr.strip author_name))
                   || negb (cell_truthy author_email)
                   || negb (cell_truthy author_affiliation) = true).
  { destruct Hmissing as [-> | ->]; simpl.
    - by rewrite orb_true_r.
    - by rewrite orb_true_r. }
  unfold manual_authors. split; [|split].
  - destruct (store !! job_id) as [job_dir|]; [|done].
    destruct (load_candidates job_dir); [done|].
    by rewrite Hsearch, Hguard.
  - by intros ->.
  - intros job_dir df -> ->. by rewrite Hsearch, Hguard.
Qed.

(** The theorem for a look-up that finds an affiliation and no email. *)
Lemma manual_authors_not_found_is_atomic_witness :
  snd (manual_authors lookup_without_email city_of country_of
         job_with_dana "job-2" "Cy Young") = job_with_dana
  /\ fst (manual_authors lookup_without_email city_of country_of
            job_with_dana "job-2" "Cy Young")
     = JSONResponse (error "Author 'Cy Young' not found or missing email/affiliation.") 404.
Proof.
  destruct (manual_authors_not_found_is_atomic lookup_without_email city_of country_of
              job_with_dana "job-2" "Cy Young" None (Some "University C")
              eq_refl (or_introl eq_refl))
    as (Hstore & _ & Hresponse).
  split; [exact Hstore|].
  exact (Hresponse {[ candidates_file := CandidateTable [dana] ]} [dana]
           eq_refl eq_refl).
Defined.

(** For comparison, a complete answer of the look-up does change the
    stored table: the new author is appended. *)
Example manual_authors_adds_when_found :
  snd (manual_authors lookup_found city_of country_of job_with_dana "job-2" " Cy Young ")
    !! "job-2" ≫= (fun d => d !! candidates_file)
  = Some (CandidateTable
            [ {| c_author := Some "Dana Fox";
                 c_email := Some "dana@uni-d.edu";
                 c_aff := Some "University D";
                 c_city := Some "Springfield";
                 c_country := Some "{'USA'}" |};
              {| c_author := Some "Cy Young";
                 c_email := Some "cy@uni-c.edu";
                 c_aff := Some "University C";
                 c_city := Some "Springfield";
                 c_country := Some "{'USA'}" |} ]).
Proof. reflexivity. Qed.

End ManualAuthorsProps.

(** ** Texts: stripping, cleaned names, parsed keywords *)

Module TextProps.
Import PyStr Shape.

Lemma lstrip_head (s : string) : starts_with_space (lstrip s) = false.
Proof.
  induction s as [|c s IH]; [done|]. simpl.
  destruct (isspace c) eqn:Hc; [done|]. simpl. done.
Qed.

Lemma lstrip_id (s : string) : starts_with_space s = false -> lstrip s = s.
Proof. destruct s as [|c s]; [done|]. simpl. by intros ->. Qed.

Lemma rstrip_cons (c : ascii) (s : string) :
  rstrip (String c s)
  = match rstrip s with
    | EmptyString => if isspace c then EmptyString else String c EmptyString
    | r => String c r
    end.
Proof. reflexivity. Qed.

Lemma rstrip_head (s : string) :
  starts_with_space s = false -> starts_with_space (rstrip s) = false.
Proof.
  destruct s as [|c s]; [done|]. rewrite rstrip_cons. simpl. intros Hc.
  destruct (rstrip s); simpl; by rewrite ?Hc.
Qed.

Lemma rstrip_starts (s : string) :
  starts_with_space (rstrip s) = true -> starts_with_space s = true.
Proof.
  destruct (starts_with_space s) eqn:Hs; [done|].
  by rewrite (rstrip_head s Hs).
Qed.

Lemma rstrip_idemp (s : string) : rstrip (rstrip s) = rstrip s.
Proof.
  induction s as [|c s IH]; [done|]. rewrite rstrip_cons.
  destruct (rstrip s) as [|d r] eqn:Hr.
  - destruct (isspace c) eqn:Hc; [done|]. simpl. by rewrite Hc.
  - rewrite rstrip_cons, IH. done.
Qed.

(** Stripping twice is stripping once. *)
Lemma strip_idemp (s : string) : strip (strip s) = strip s.
Proof.
  unfold strip. rewrite (lstrip_id (rstrip (lstrip s))).
  - apply rstrip_idemp.
  - apply rstrip_head, lstrip_head.
Qed.

Lemma any_char_lstrip (P : ascii -> bool) (s : string) :
  any_char P s = false -> any_char P (lstrip s) = false.
Proof.
  induction s as [|c s IH]; [done|]. simpl. intros H.
  apply orb_false_elim in H as [Hc Hs].
  destruct (isspace c); [auto|]. simpl. by rewrite Hc, Hs.
Qed.

Lemma any_char_rstrip (P : ascii -> bool) (s : string) :
  any_char P s = false -> any_char P (rstrip s) = false.
Proof.
  induction s as [|c s IH]; [done|]. rewrite rstrip_cons. simpl. intros H.
  apply orb_false_elim in H as [Hc Hs]. specialize (IH Hs).
  destruct (rstrip s) as [|d r].
  - destruct (isspace c); [done|]. simpl. by rewrite Hc.
  - cbn [any_char] in *. by rewrite Hc.
Qed.

Lemma any_char_strip (P : ascii -> bool) (s : string) :
  any_char P s = false -> any_char P (strip s) = false.
Proof. intros H. by apply any_char_rstrip, any_char_lstrip. Qed.

Lemma single_spaced_lstrip (s : string) :
  single_spaced s = true -> single_spaced (lstrip s) = true.
Proof.
  induction s as [|c s IH]; [done|]. simpl. intros H.
  apply andb_prop in H as [Hc Hs].
  destruct (isspace c) eqn:Hsp; [auto|]. simpl. by rewrite Hsp, Hs.
Qed.

Lemma single_spaced_rstrip (s : string) :
  single_spaced s = true -> single_spaced (rstrip s) = true.
Proof.
  induction s as [|c s IH]; [done|]. rewrite rstrip_cons. simpl. intros H.
  apply andb_prop in H as [Hc Hs]. specialize (IH Hs).
  destruct (rstrip s) as [|d r] eqn:Hr.
  - destruct (isspace c) eqn:Hsp; [done|]. simpl. by rewrite Hsp.
  - change (single_spaced (String c (String d r)))
      with ((if isspace c then Ascii.eqb c " " && negb (starts_with_space (String d r))
             else true) && single_spaced (String d r)).
    rewrite IH, andb_true_r.
    destruct (isspace c) eqn:Hsp; [|done].
    apply andb_prop in Hc as [Heq Hnext]. rewrite Heq. simpl.
    apply negb_true_iff. apply negb_true_iff in Hnext.
    destruct (starts_with_space (String d r)) eqn:Hd; [|done].
    rewrite <- Hr in Hd. apply rstrip_starts in Hd. congruence.
Qed.

Lemma single_spaced_strip (s : string) :
  single_spaced s = true -> single_spaced (strip s) = true.
Proof. intros H. by apply single_spaced_rstrip, single_spaced_lstrip. Qed.

End TextProps.

Module NameShapeProps.
Import PyStr Shape CandidateMerger TextProps.

Lemma has_comma_cons (c : ascii) (s : string) :
  has_comma (String c s) = Ascii.eqb "," c || has_comma s.
Proof. reflexivity. Qed.

Lemma sub_commas_no_comma (s : string) : has_comma (sub_commas s) = false.
Proof.
  induction s as [|c s IH]; [done|]. cbn [sub_commas].
  destruct (Ascii.eqb c ",") eqn:Hc; [done|].
  rewrite has_comma_cons, IH, orb_false_r, Ascii.eqb_sym. exact Hc.
Qed.

Lemma sub_spaces_no_comma (in_run : bool) (s : string) :
  has_comma s = false -> has_comma (sub_spaces in_run s) = false.
Proof.
  revert in_run.
  induction s as [|c s IH]; intros in_run H; [done|]. cbn [sub_spaces].
  rewrite has_comma_cons in H. apply orb_false_elim in H as [Hc Hs].
  destruct (isspace c); [destruct in_run|]; rewrite ?has_comma_cons, ?Hc; auto.
  all: rewrite ?(IH true Hs), ?(IH false Hs); try done.
Qed.

Lemma sub_spaces_single_spaced (in_run : bool) (s : string) :
  single_spaced (sub_spaces in_run s) = true
  /\ (in_run = true -> starts_with_space (sub_spaces in_run s) = false).
Proof.
  revert in_run. induction s as [|c s IH]; intros in_run; [done|]. simpl.
  destruct (isspace c) eqn:Hc.
  - destruct (IH true) as [Hs Hhead]. destruct in_run.
    + split; [done|]. intros _. by apply Hhead.
    + split; [|discriminate]. simpl. by rewrite Hs, (Hhead eq_refl).
  - destruct (IH false) as [Hs _]. split.
    + simpl. by rewrite Hc, Hs.
    + intros _. simpl. exact Hc.
Qed.

(** X1.  A cleaned author name holds no comma, has nothing left to
    strip, and every whitespace in it is a single space between two other
    characters. *)
Theorem clean_author_shape (name : string) :
  has_comma (clean_author name) = false
  /\ strip (clean_author name) = clean_author name
  /\ single_spaced (clean_author name) = true.
Proof.
  unfold clean_author. split; [|split].
  - apply any_char_strip, sub_spaces_no_comma, sub_commas_no_comma.
  - apply strip_idemp.
  - apply single_spaced_strip, sub_spaces_single_spaced.
Qed.

(** X4 at the start of a name that opens with a degree, the alternatives
    tried in the reverse order. *)
Lemma match_degree_any_order_witness :
  String.length <$> find (word_matches None "PhD Jane Doe") (reverse DEGREE_WORDS)
  = match_degree None "PhD Jane Doe".
Proof.
  apply (CandidateMergerProps.match_degree_any_order None "PhD Jane Doe"
           (reverse DEGREE_WORDS)).
  apply reverse_Permutation.
Defined.

End NameShapeProps.

Module KeywordParseProps.
Import PyStr Shape KeywordQuery TextProps.

Lemma split_nonempty (sep : ascii) (s : string) : split sep s <> [].
Proof.
  induction s as [|c s IH]; [done|]. simpl.
  destruct (Ascii.eqb c sep); [done|]. by destruct (split sep s).
Qed.

Lemma split_fields_no_sep (sep : ascii) (s : string) :
  Forall (fun f => any_char (Ascii.eqb sep) f = false) (split sep s).
Proof.
  induction s as [|c s IH]; simpl.
  - by repeat constructor.
  - destruct (Ascii.eqb c sep) eqn:Hc.
    + by constructor.
    + destruct (split sep s) as [|f fs]; [by repeat constructor; simpl; rewrite Ascii.eqb_sym, Hc|].
      inversion IH as [|? ? Hf Hfs]; subst. constructor; [|done].
      simpl. by rewrite Ascii.eqb_sym, Hc, Hf.
Qed.

Lemma split_no_sep (sep : ascii) (s : string) :
  any_char (Ascii.eqb sep) s = false -> split sep s = [s].
Proof.
  induction s as [|c s IH]; [done|]. simpl. intros H.
  apply orb_false_elim in H as [Hc Hs].
  rewrite Ascii.eqb_sym, Hc, (IH Hs). done.
Qed.

Lemma split_app_sep (sep : ascii) (a b : string) :
  split sep (a +:+ String sep b) = split sep a ++ split sep b.
Proof.
  induction a as [|c a IH]; simpl.
  - by rewrite Ascii.eqb_refl.
  - destruct (Ascii.eqb c sep); [by rewrite IH|].
    rewrite IH. pose proof (split_nonempty sep a).
    by destruct (split sep a).
Qed.

Lemma parse_keywords_keep (input : string) :
  parse_keywords input = omap keep (split "," input).
Proof. reflexivity. Qed.

Lemma keep_clean (kw : string) : clean_keyword kw -> keep kw = Some kw.
Proof. intros (Ht & Hs & _). unfold keep. by rewrite Hs, Ht. Qed.

Lemma keep_space (kw : string) : keep (String " " kw) = keep kw.
Proof. reflexivity. Qed.

(** X2.  The keywords parsed from a form field are clean: none is empty,
    none has leading or trailing whitespace, none holds a comma; so the
    filter of [build_string] has nothing left to remove. *)
Theorem parse_keywords_clean (input : string) :
  Forall clean_keyword (parse_keywords input)
  /\ nonempty_terms (parse_keywords input) = parse_keywords input.
Proof.
  assert (Hclean : Forall clean_keyword (parse_keywords input)).
  { rewrite parse_keywords_keep. apply Forall_forall. intros kw Hkw.
    apply list_elem_of_omap in Hkw as (f & Hf & Hkeep).
    pose proof (split_fields_no_sep "," input) as Hsep.
    rewrite Forall_forall in Hsep. specialize (Hsep f Hf).
    unfold keep in Hkeep. destruct (truthy (strip f)) eqn:Ht; [|discriminate].
    injection Hkeep as <-. split; [done|]. split; [apply strip_idemp|].
    by apply any_char_strip. }
  split; [done|]. unfold nonempty_terms.
  induction Hclean as [|kw kws (Ht & _) _ IH]; [done|].
  rewrite filter_cons, IH. by destruct (decide (truthy kw = true)).
Qed.

Lemma any_char_app (P : ascii -> bool) (a b : string) :
  any_char P (a +:+ b) = any_char P a || any_char P b.
Proof. induction a as [|c a IH]; [done|]. simpl. by rewrite IH, orb_assoc. Qed.

Lemma omap_keep_clean (kw : string) (rest : list string) :
  clean_keyword kw ->
  omap keep (kw :: rest) = kw :: omap keep rest
  /\ omap keep (String " " kw :: rest) = kw :: omap keep rest.
Proof.
  intros Hkw. cbn [omap list_omap]. by rewrite keep_space, (keep_clean kw Hkw).
Qed.

Lemma parse_join_prefixed (kws : list string) :
  Forall clean_keyword kws -> kws <> [] ->
  omap keep (split "," (join ", " kws)) = kws
  /\ omap keep (split "," (String " " (join ", " kws))) = kws.
Proof.
  induction 1 as [|kw kws Hkw Hkws IH]; [done|]. intros _.
  pose proof Hkw as (Ht & Hs & Hc).
  destruct (omap_keep_clean kw [] Hkw) as [Hone Hone'].
  destruct kws as [|kw2 kws].
  - change (join ", " [kw]) with kw.
    rewrite (split_no_sep "," kw) by exact Hc.
    rewrite (split_no_sep "," (String " " kw)) by exact Hc.
    done.
  - destruct (IH ltac:(done)) as [_ IH2].
    assert (Hjoin : join ", " (kw :: kw2 :: kws)
                    = kw +:+ String "," (String " " (join ", " (kw2 :: kws)))).
    { reflexivity. }
    rewrite Hjoin.
    change (String " " (kw +:+ String "," (String " " (join ", " (kw2 :: kws)))))
      with ((String " " kw) +:+ String "," (String " " (join ", " (kw2 :: kws)))).
    rewrite !split_app_sep, !omap_app, IH2.
    rewrite (split_no_sep "," kw) by exact Hc.
    rewrite (split_no_sep "," (String " " kw)) by exact Hc.
    by rewrite Hone, Hone'.
Qed.

(** X3.  Parsing undoes joining: a list of clean keywords joined with
    [", "] (as line 321 joins keyword lists) parses back to the same list;
    the empty list goes to the empty field and back. *)
Theorem parse_keywords_join (kws : list string) :
  Forall clean_keyword kws -> parse_keywords (join ", " kws) = kws.
Proof.
  intros Hkws. destruct kws as [|kw kws]; [done|].
  rewrite parse_keywords_keep. by apply parse_join_prefixed.
Qed.

(** The theorem for two keywords, one of them made of two words. *)
Lemma parse_keywords_join_witness :
  Forall clean_keyword ["asthma"; "air pollution"]
  /\ parse_keywords (join ", " ["asthma"; "air pollution"]) = ["asthma"; "air pollution"].
Proof.
  assert (Hclean : Forall clean_keyword ["asthma"; "air pollution"]).
  { repeat constructor. }
  split; [exact Hclean|]. exact (parse_keywords_join _ Hclean).
Defined.

End KeywordParseProps.

(** ** float64 rounding *)

Module Float64Props.
Import Validation.
Local Open Scope Q_scope.

Lemma two_neq_0 : ~ 2 == 0.
Proof. discriminate. Qed.

Lemma pow2_pos (k : Z) : 0 < 2 ^ k.
Proof. by apply Qpower_0_lt. Qed.

Lemma pow2_add (x y : Z) : 2 ^ (x + y) == 2 ^ x * 2 ^ y.
Proof. apply Qpower_plus, two_neq_0. Qed.

Lemma pow2_le (x y : Z) : (x <= y)%Z -> 2 ^ x <= 2 ^ y.
Proof. intros H. by apply Qpower_le_compat_l. Qed.

Lemma pow2_lt (x y : Z) : (x < y)%Z -> 2 ^ x < 2 ^ y.
Proof. intros H. by apply Qpower_lt_compat_l. Qed.

Lemma pow2_Z (k : Z) : (0 <= k)%Z -> 2 ^ k == inject_Z (2 ^ k).
Proof. intros H. symmetry. by apply (Zpower_Qpower 2 k). Qed.

Lemma ilog2_spec (q : Q) : 0 < q -> 2 ^ ilog2 q <= q /\ q < 2 ^ (ilog2 q + 1).
Proof.
  intros Hq. unfold ilog2.
  destruct q as [n d]. cbn [Qnum Qden].
  assert (Hn : (0 < n)%Z).
  { unfold Qlt in Hq. simpl in Hq. lia. }
  set (ln := Z.log2 n). set (ld := Z.log2 (Z.pos d)).
  destruct (Z.log2_spec n Hn) as [Hn1 Hn2]. fold ln in Hn1, Hn2.
  destruct (Z.log2_spec (Z.pos d) ltac:(lia)) as [Hd1 Hd2]. fold ld in Hd1, Hd2.
  pose proof (Z.log2_nonneg n) as Hln. fold ln in Hln.
  pose proof (Z.log2_nonneg (Z.pos d)) as Hld. fold ld in Hld.
  assert (Hq' : n # d == inject_Z n / inject_Z (Z.pos d)) by apply Qmake_Qdiv.
  assert (Hdpos : 0 < inject_Z (Z.pos d)) by (unfold Qlt; simpl; lia).
  (* bounds in Q *)
  assert (Hn1' : 2 ^ ln <= inject_Z n).
  { rewrite pow2_Z by lia. by rewrite <- Zle_Qle. }
  assert (Hn2' : inject_Z n < 2 ^ (ln + 1)).
  { rewrite pow2_Z by lia. by rewrite <- Zlt_Qlt. }
  assert (Hd1' : 2 ^ ld <= inject_Z (Z.pos d)).
  { rewrite pow2_Z by lia. by rewrite <- Zle_Qle. }
  assert (Hd2' : inject_Z (Z.pos d) < 2 ^ (ld + 1)).
  { rewrite pow2_Z by lia. by rewrite <- Zlt_Qlt. }
  set (D := inject_Z (Z.pos d)) in *. set (N := inject_Z n) in *.
  assert (Hmul : forall x, x * D <= N <-> x <= N / D).
  { intros x. split; intros H.
    - apply Qle_shift_div_l; [done|done].
    - apply (Qmult_le_r _ _ (/ D)); [by apply Qinv_lt_0_compat|].
      rewrite <- Qmult_assoc, Qmult_inv_r, Qmult_1_r; [done|].
      intros H0. rewrite H0 in Hdpos. discriminate. }
  assert (Hmul' : forall x, N < x * D <-> N / D < x).
  { intros x. split; intros H.
    - apply Qlt_shift_div_r; [done|done].
    - apply (Qmult_lt_r _ _ (/ D)); [by apply Qinv_lt_0_compat|].
      rewrite <- (Qmult_assoc x), Qmult_inv_r, Qmult_1_r; [done|].
      intros H0. rewrite H0 in Hdpos. discriminate. }
  assert (Hup : N < 2 ^ (ln - ld + 1) * D).
  { replace (ln - ld + 1)%Z with ((ln + 1) + (- ld))%Z by lia.
    rewrite pow2_add, Qpower_opp.
    apply (Qlt_le_trans _ (2 ^ (ln + 1))); [done|].
    rewrite <- (Qmult_1_r (2 ^ (ln + 1))) at 1. rewrite <- Qmult_assoc.
    apply Qmult_le_l; [apply pow2_pos|].
    apply (Qmult_le_l _ _ (2 ^ ld)); [apply pow2_pos|].
    rewrite Qmult_1_r, Qmult_assoc, Qmult_inv_r, Qmult_1_l; [done|].
    intros H0. pose proof (pow2_pos ld) as Hp. rewrite H0 in Hp. discriminate. }
  assert (Hlow : 2 ^ (ln - ld - 1) * D <= N).
  { replace (ln - ld - 1)%Z with (ln + (- (ld + 1)))%Z by lia.
    rewrite pow2_add, Qpower_opp.
    apply (Qle_trans _ (2 ^ ln)); [|done].
    rewrite <- (Qmult_1_r (2 ^ ln)) at 2. rewrite <- Qmult_assoc.
    apply Qmult_le_l; [apply pow2_pos|].
    apply (Qmult_le_l _ _ (2 ^ (ld + 1))); [apply pow2_pos|].
    rewrite Qmult_1_r, Qmult_assoc, Qmult_inv_r, Qmult_1_l; [by apply Qlt_le_weak|].
    intros H0. pose proof (pow2_pos (ld + 1)) as Hp. rewrite H0 in Hp. discriminate. }
  destruct (Qle_bool (2 ^ (ln - ld)) (n # d)) eqn:Hcmp.
  - apply Qle_bool_iff in Hcmp. split; [done|].
    rewrite Hq'. by apply Hmul'.
  - assert (Hlt : n # d < 2 ^ (ln - ld)).
    { apply Qnot_le_lt. intros H. apply Qle_bool_iff in H. congruence. }
    split.
    + rewrite Hq'. by apply Hmul.
    + by replace (ln - ld - 1 + 1)%Z with (ln - ld)%Z by lia.
Qed.

Lemma round_half_even_near (m : Q) :
  inject_Z (round_half_even m) - (1 # 2) <= m
  /\ m <= inject_Z (round_half_even m) + (1 # 2).
Proof.
  unfold round_half_even.
  pose proof (Qfloor_le m) as Hlo. pose proof (Qlt_floor m) as Hhi.
  rewrite inject_Z_plus in Hhi.
  set (f := Qfloor m) in *.
  change (inject_Z 1) with 1 in Hhi.
  destruct (m - inject_Z f ?= 1 # 2) eqn:Hc.
  - apply Qeq_alt in Hc.
    destruct (Z.even f); rewrite ?inject_Z_plus; change (inject_Z 1) with 1; lra.
  - apply Qlt_alt in Hc. lra.
  - apply Qgt_alt in Hc. rewrite inject_Z_plus. change (inject_Z 1) with 1. lra.
Qed.

Lemma round_half_even_ge (z : Z) (m : Q) :
  inject_Z z <= m -> (z <= round_half_even m)%Z.
Proof.
  intros H. destruct (round_half_even_near m) as [_ Hup].
  assert (Hlt : inject_Z (z - 1) < inject_Z (round_half_even m)).
  { unfold Z.sub. rewrite inject_Z_plus. change (inject_Z (- (1))) with (- (1)). lra. }
  rewrite <- Zlt_Qlt in Hlt. lia.
Qed.

Lemma round_half_even_le (z : Z) (m : Q) :
  m <= inject_Z z -> (round_half_even m <= z)%Z.
Proof.
  intros H. destruct (round_half_even_near m) as [Hlo _].
  assert (Hlt : inject_Z (round_half_even m) < inject_Z (z + 1)).
  { rewrite inject_Z_plus. change (inject_Z 1) with 1. lra. }
  rewrite <- Zlt_Qlt in Hlt. lia.
Qed.

Lemma round_half_even_gt (z : Z) (m : Q) :
  inject_Z z + (1 # 2) < m -> (z + 1 <= round_half_even m)%Z.
Proof.
  intros H. destruct (round_half_even_near m) as [_ Hup].
  assert (Hlt : inject_Z z < inject_Z (round_half_even m)) by lra.
  rewrite <- Zlt_Qlt in Hlt. lia.
Qed.

(** The scaled significand lies in [2^52, 2^53). *)
Lemma significand_range (q : Q) :
  0 < q ->
  2 ^ 52 <= q * 2 ^ (52 - ilog2 q) /\ q * 2 ^ (52 - ilog2 q) < 2 ^ 53.
Proof.
  intros Hq. destruct (ilog2_spec q Hq) as [Hlo Hhi].
  set (e := ilog2 q) in *. pose proof (pow2_pos (52 - e)) as Hp. split.
  - replace 52%Z with (e + (52 - e))%Z at 1 by lia. rewrite pow2_add.
    by apply Qmult_le_compat_r; [|apply Qlt_le_weak].
  - replace 53%Z with ((e + 1) + (52 - e))%Z by lia. rewrite pow2_add.
    by apply Qmult_lt_compat_r.
Qed.

Lemma nearest_range (q : Q) :
  0 < q -> 2 ^ ilog2 q <= nearest q /\ nearest q <= 2 ^ (ilog2 q + 1).
Proof.
  intros Hq. destruct (significand_range q Hq) as [Hlo Hhi]. unfold nearest.
  set (e := ilog2 q) in *. set (m := q * 2 ^ (52 - e)) in *.
  pose proof (pow2_pos (e - 52)) as Hp.
  assert (H52 : (2 ^ 52 <= round_half_even m)%Z).
  { apply round_half_even_ge. by rewrite <- pow2_Z. }
  assert (H53 : (round_half_even m <= 2 ^ 53)%Z).
  { apply round_half_even_le. rewrite <- pow2_Z by done. by apply Qlt_le_weak. }
  rewrite Zle_Qle, <- !pow2_Z in H52, H53 by done. split.
  - replace e with (52 + (e - 52))%Z at 1 by lia. rewrite pow2_add.
    by apply Qmult_le_compat_r; [|apply Qlt_le_weak].
  - replace (e + 1)%Z with (53 + (e - 52))%Z by lia. rewrite pow2_add.
    by apply Qmult_le_compat_r; [|apply Qlt_le_weak].
Qed.

Ltac closed_le := apply Qle_bool_iff; vm_compute; reflexivity.
Ltac closed_lt := apply Qlt_alt; vm_compute; reflexivity.

(** Rounding and the comparison with one half. *)
Lemma nearest_half (q : Q) :
  0 < q ->
  (q <= 1 # 2 -> nearest q <= 1 # 2)
  /\ ((1 # 2) + 2 ^ (- 54) < q -> 1 # 2 < nearest q).
Proof.
  intros Hq. destruct (ilog2_spec q Hq) as [Hlo Hhi].
  destruct (nearest_range q Hq) as [Hnlo Hnhi].
  assert (Hhalf : 2 ^ (- 1) == 1 # 2) by reflexivity.
  split.
  - intros Hle.
    assert (He : (ilog2 q <= - 1)%Z).
    { destruct (Z_le_gt_dec (ilog2 q) (- 1)) as [|Hgt]; [done|].
      pose proof (pow2_le 0 (ilog2 q) ltac:(lia)) as H0.
      change (2 ^ 0) with 1 in H0. lra. }
    destruct (Z_le_gt_dec (ilog2 q) (- 2)) as [He2|He2].
    + pose proof (pow2_le (ilog2 q + 1) (- 1) ltac:(lia)) as H1. lra.
    + assert (Heq : ilog2 q = (- 1)%Z) by lia. unfold nearest. rewrite Heq.
      change (52 - -1)%Z with 53%Z. change (-1 - 52)%Z with (- 53)%Z.
      assert (Hr : (round_half_even (q * 2 ^ 53) <= 2 ^ 52)%Z).
      { apply round_half_even_le.
        apply (Qle_trans _ ((1 # 2) * 2 ^ 53)); [|closed_le].
        apply Qmult_le_compat_r; [done|]. apply Qlt_le_weak, pow2_pos. }
      rewrite Zle_Qle in Hr.
      apply (Qle_trans _ (inject_Z (2 ^ 52) * 2 ^ (- 53))); [|closed_le].
      apply Qmult_le_compat_r; [done|]. apply Qlt_le_weak, pow2_pos.
  - intros Hgt.
    assert (H54 : 0 < 2 ^ (- 54)) by apply pow2_pos.
    assert (He : (- 1 <= ilog2 q)%Z).
    { destruct (Z_le_gt_dec (- 1) (ilog2 q)) as [|Hlt]; [done|].
      pose proof (pow2_le (ilog2 q + 1) (- 1) ltac:(lia)) as H1. lra. }
    destruct (Z_le_gt_dec 0 (ilog2 q)) as [He0|He0].
    + pose proof (pow2_le 0 (ilog2 q) He0) as H0.
      change (2 ^ 0) with 1 in H0. lra.
    + assert (Heq : ilog2 q = (- 1)%Z) by lia. unfold nearest. rewrite Heq.
      change (52 - -1)%Z with 53%Z. change (-1 - 52)%Z with (- 53)%Z.
      assert (Hr : (2 ^ 52 + 1 <= round_half_even (q * 2 ^ 53))%Z).
      { apply round_half_even_gt.
        apply (Qle_lt_trans _ (((1 # 2) + 2 ^ (- 54)) * 2 ^ 53)); [closed_le|].
        apply Qmult_lt_compat_r; [apply pow2_pos|done]. }
      rewrite Zle_Qle in Hr.
      apply (Qlt_le_trans _ (inject_Z (2 ^ 52 + 1) * 2 ^ (- 53))); [closed_lt|].
      apply Qmult_le_compat_r; [done|]. apply Qlt_le_weak, pow2_pos.
Qed.

Lemma inject_Z_lt (x y : Z) : (x < y)%Z <-> inject_Z x < inject_Z y.
Proof. by rewrite Zlt_Qlt. Qed.

Lemma inject_Z_le (x y : Z) : (x <= y)%Z <-> inject_Z x <= inject_Z y.
Proof. by rewrite Zle_Qle. Qed.

Lemma round_half_even_int (n : Z) (m : Q) : m == inject_Z n -> round_half_even m = n.
Proof.
  intros Hm.
  pose proof (round_half_even_ge n m ltac:(rewrite Hm; apply Qle_refl)).
  pose proof (round_half_even_le n m ltac:(rewrite Hm; apply Qle_refl)).
  lia.
Qed.

(** Integers below 2^53 are float64 numbers. *)
Lemma nearest_int (z : Z) : (0 < z < 2 ^ 53)%Z -> nearest (inject_Z z) == inject_Z z.
Proof.
  intros [Hz1 Hz2].
  assert (Hq : 0 < inject_Z z) by (by apply (inject_Z_lt 0 z)).
  destruct (ilog2_spec _ Hq) as [Hlo Hhi]. unfold nearest.
  set (e := ilog2 (inject_Z z)) in *.
  assert (He0 : (0 <= e)%Z).
  { destruct (Z_le_gt_dec 0 e) as [|Hneg]; [done|].
    pose proof (pow2_le (e + 1) 0 ltac:(lia)) as H1. change (2 ^ 0) with 1 in H1.
    assert (1 <= inject_Z z) by (apply (inject_Z_le 1 z); lia). lra. }
  assert (He52 : (e <= 52)%Z).
  { destruct (Z_le_gt_dec e 52) as [|Hbig]; [done|].
    pose proof (pow2_le 53 e ltac:(lia)) as H1. rewrite (pow2_Z 53) in H1 by done.
    rewrite Zlt_Qlt in Hz2. lra. }
  assert (Hm : inject_Z z * 2 ^ (52 - e) == inject_Z (z * 2 ^ (52 - e))).
  { rewrite inject_Z_mult, <- pow2_Z by lia. reflexivity. }
  rewrite (round_half_even_int _ _ Hm), inject_Z_mult, <- pow2_Z by lia.
  rewrite <- Qmult_assoc, <- pow2_add.
  replace (52 - e + (e - 52))%Z with 0%Z by lia. change (2 ^ 0) with 1. ring.
Qed.

Lemma float64_int (z : Z) :
  (- 2 ^ 53 < z < 2 ^ 53)%Z -> float64 (inject_Z z) == inject_Z z.
Proof.
  intros Hz. unfold float64. destruct (inject_Z z ?= 0) eqn:Hc.
  - apply Qeq_alt in Hc. by rewrite Hc.
  - apply Qlt_alt in Hc. apply (inject_Z_lt z 0) in Hc.
    change (- inject_Z z) with (inject_Z (- z)).
    rewrite nearest_int by lia. rewrite inject_Z_opp. ring.
  - apply Qgt_alt in Hc. apply (inject_Z_lt 0 z) in Hc. apply nearest_int. lia.
Qed.

Lemma nearest_pos (q : Q) : 0 < q -> 0 < nearest q.
Proof.
  intros Hq. destruct (nearest_range q Hq) as [Hlo _].
  pose proof (pow2_pos (ilog2 q)). lra.
Qed.

(** Rounding keeps the sign. *)
Lemma float64_nonpos (q : Q) : q <= 0 -> float64 q <= 0.
Proof.
  intros Hq. unfold float64. destruct (q ?= 0) eqn:Hc.
  - apply Qle_refl.
  - apply Qlt_alt in Hc. pose proof (nearest_pos (- q) ltac:(lra)). lra.
  - apply Qgt_alt in Hc. lra.
Qed.

Lemma float64_pos (q : Q) : 0 < q -> float64 q = nearest q.
Proof.
  intros Hq. unfold float64. destruct (q ?= 0) eqn:Hc; [| |done].
  - apply Qeq_alt in Hc. lra.
  - apply Qlt_alt in Hc. lra.
Qed.

(** The quotient of two counts below 2^53, rounded, exceeds one half
    exactly when the quotient does. *)
Lemma float64_quotient_half (a b : Z) (q : Q) :
  (0 < b < 2 ^ 53)%Z ->
  q == inject_Z a / inject_Z b ->
  (1 # 2 < float64 q <-> (b < 2 * a)%Z).
Proof.
  intros [Hb1 Hb2] Hq.
  assert (HB : 0 < inject_Z b) by (by apply (inject_Z_lt 0 b)).
  assert (HB0 : ~ inject_Z b == 0) by lra.
  assert (Hqb : q * inject_Z b == inject_Z a).
  { rewrite Hq. field. done. }
  destruct (Z_lt_le_dec b (2 * a)) as [Hyes|Hno].
  - split; [done|]. intros _.
    assert (Ha : (b + 1 <= 2 * a)%Z) by lia.
    rewrite Zle_Qle, inject_Z_plus, inject_Z_mult in Ha.
    change (inject_Z 1) with 1 in Ha. change (inject_Z 2) with 2 in Ha.
    assert (Hb53 : inject_Z b < 2 ^ 53).
    { rewrite (pow2_Z 53) by done. by rewrite <- Zlt_Qlt. }
    assert (Hgt : (1 # 2) + 2 ^ (- 54) < q).
    { apply (Qmult_lt_r _ _ (2 * inject_Z b)); [lra|].
      assert (((1 # 2) + 2 ^ (- 54)) * (2 * inject_Z b)
              == inject_Z b + 2 ^ (- 53) * inject_Z b) as ->.
      { assert (H54 : 2 ^ (- 54) * 2 == 2 ^ (- 53)) by reflexivity.
        rewrite <- H54. ring. }
      assert (q * (2 * inject_Z b) == 2 * inject_Z a) as -> by (rewrite <- Hqb; ring).
      assert (Hsmall : 2 ^ (- 53) * inject_Z b < 1).
      { apply (Qlt_le_trans _ (2 ^ (- 53) * 2 ^ 53)); [|closed_le].
        apply Qmult_lt_l; [apply pow2_pos|done]. }
      lra. }
    assert (Hqpos : 0 < q).
    { pose proof (pow2_pos (- 54)). lra. }
    rewrite (float64_pos q Hqpos). by apply (nearest_half q Hqpos).
  - split; [|lia]. intros Hhalf. exfalso.
    rewrite Zle_Qle, inject_Z_mult in Hno. change (inject_Z 2) with 2 in Hno.
    assert (Hle : q <= 1 # 2).
    { apply (Qmult_le_r _ _ (2 * inject_Z b)); [lra|].
      assert (q * (2 * inject_Z b) == 2 * inject_Z a) as -> by (rewrite <- Hqb; ring).
      lra. }
    destruct (Qlt_le_dec 0 q) as [Hqpos|Hqneg].
    + rewrite (float64_pos q Hqpos) in Hhalf.
      pose proof (proj1 (nearest_half q Hqpos) Hle). lra.
    + pose proof (float64_nonpos q Hqneg). lra.
Qed.

End Float64Props.

(** ** The score in terms of the metrics *)

Module ScoreProps.
Import Table Store Validation Samples MoreSamples.

Lemma gt_half_truediv (e t : Z) :
  0 < t -> below_2_53 t -> below_2_53 e ->
  gt_half (truediv e t) = true <-> t < 2 * e.
Proof.
  intros Ht Hbt Hbe. unfold truediv. destruct (Z.eqb_spec t 0) as [->|_]; [lia|].
  unfold gt_half. rewrite negb_true_iff, <- not_true_iff_false, Qle_bool_iff.
  rewrite <- (Float64Props.float64_quotient_half e t
                (float64 (inject_Z e) / float64 (inject_Z t))%Q).
  - split; [apply Qnot_le_lt|apply Qlt_not_le].
  - unfold below_2_53 in Hbt. lia.
  - by rewrite !Float64Props.float64_int.
Qed.

Lemma english_cond_iff (t e : Z) :
  below_2_53 t -> below_2_53 e ->
  english_cond t e = 1 <-> 0 < t /\ t < 2 * e.
Proof.
  intros Hbt Hbe. unfold english_cond. destruct (Z.ltb_spec 0 t) as [Ht|Ht]; simpl.
  - rewrite <- (gt_half_truediv e t Ht Hbt Hbe).
    destruct (gt_half (truediv e t)); simpl; split; intros; try done; try lia.
  - split; [discriminate|lia].
Qed.

(** X5.  For counts that float64 holds exactly (below 2^53 in absolute
    value), the English-ratio condition, computed with a float64 division
    and a comparison with 0.5, is an integer test: it is 1 exactly when
    the total count is positive and less than twice the English count. *)
Theorem english_condition_integer_test (m : ValidationMetrics) :
  below_2_53 (Total_Publications m) ->
  below_2_53 (English_Pubs m) ->
  (english_condition (condition_score m) = 1
   <-> 0 < Total_Publications m /\ Total_Publications m < 2 * English_Pubs m).
Proof. apply english_cond_iff. Qed.

(** The theorem for a candidate with four publications, three of them
    English. *)
Lemma english_condition_integer_test_witness :
  english_condition (condition_score mostly_english_metrics) = 1.
Proof.
  apply (english_condition_integer_test mostly_english_metrics).
  - unfold below_2_53. split; reflexivity.
  - unfold below_2_53. split; reflexivity.
  - split; reflexivity.
Defined.

(** The bound is needed: with a total of 2^54 and 2^53 + 1 English
    publications the total is less than twice the English count, but the
    English count is rounded to 2^53, the quotient is 0.5 and the
    condition is 0. *)
Example english_condition_beyond_2_53 :
  2 ^ 54 < 2 * (2 ^ 53 + 1) /\ english_cond (2 ^ 54) (2 ^ 53 + 1) = 0.
Proof. split; [reflexivity|]. vm_compute. reflexivity. Qed.

Lemma pub_condition_10_years_iff (x : Z) : pub_condition_10_years x = 1 <-> 8 <= x.
Proof. unfold pub_condition_10_years. destruct (Z.geb_spec x 8); split; intros; try done; lia. Qed.

Lemma pub_condition_5_years_iff (x : Z) : pub_condition_5_years x = 1 <-> 3 <= x.
Proof. unfold pub_condition_5_years. destruct (Z.geb_spec x 3); split; intros; try done; lia. Qed.

Lemma pub_condition_2_years_iff (x : Z) : pub_condition_2_years x = 1 <-> 1 <= x.
Proof. unfold pub_condition_2_years. destruct (Z.geb_spec x 1); split; intros; try done; lia. Qed.

Lemma coauthor_cond_iff (x : bool) : coauthor_cond x = 1 <-> x = false.
Proof. destruct x; simpl; split; intros; try done; lia. Qed.

Lemma aff_cond_iff (x : string) : aff_cond x = 1 <-> x = "NO".
Proof.
  unfold aff_cond. destruct (String.eqb_spec x "NO"); split; intros; try done; lia.
Qed.

Lemma country_match_cond_iff (x : string) : country_match_cond x = 1 <-> x = "YES".
Proof.
  unfold country_match_cond.
  destruct (String.eqb_spec x "YES"); split; intros; try done; lia.
Qed.

Lemma retracted_cond_iff (x : Z) : retracted_cond x = 1 <-> 1 < x.
Proof. unfold retracted_cond. destruct (Z.gtb_spec x 1); split; intros; try done; lia. Qed.

(** X6.  For counts that float64 holds exactly, a candidate scores 8 of
    8 exactly when all eight column tests pass at once; for the
    retraction column this means more than one retracted publication. *)
Theorem perfect_score_iff (m : ValidationMetrics) :
  below_2_53 (Total_Publications m) ->
  below_2_53 (English_Pubs m) ->
  (conditions_met (condition_score m) = 8
   <-> 8 <= Publications_10_years m
       /\ 3 <= Relevant_Publications_5_years m
       /\ 1 <= Publications_2_years m
       /\ (0 < Total_Publications m /\ Total_Publications m < 2 * English_Pubs m)
       /\ coauthor m = false
       /\ aff_match m = "NO"
       /\ country_match m = "YES"
       /\ 1 < Retracted_Pubs_no m).
Proof.
  intros Hbt Hbe.
  rewrite <- pub_condition_10_years_iff, <- pub_condition_5_years_iff,
    <- pub_condition_2_years_iff, <- (english_cond_iff _ _ Hbt Hbe), <- coauthor_cond_iff,
    <- aff_cond_iff, <- country_match_cond_iff, <- retracted_cond_iff.
  simpl.
  pose proof (ConditionProps.pub_condition_10_years_range (Publications_10_years m)).
  pose proof (ConditionProps.pub_condition_5_years_range (Relevant_Publications_5_years m)).
  pose proof (ConditionProps.pub_condition_2_years_range (Publications_2_years m)).
  pose proof (ConditionProps.english_cond_range (Total_Publications m) (English_Pubs m)).
  pose proof (ConditionProps.coauthor_cond_range (coauthor m)).
  pose proof (ConditionProps.aff_cond_range (aff_match m)).
  pose proof (ConditionProps.country_match_cond_range (country_match m)).
  pose proof (ConditionProps.retracted_cond_range (Retracted_Pubs_no m)).
  lia.
Qed.

(** The theorem for the same candidate, who has no other merit: the
    score is not 8. *)
Lemma perfect_score_iff_witness :
  conditions_met (condition_score mostly_english_metrics) <> 8.
Proof.
  intros Hperfect.
  apply (perfect_score_iff mostly_english_metrics) in Hperfect.
  - destruct Hperfect as (H10 & _). vm_compute in H10. by apply H10.
  - unfold below_2_53. split; reflexivity.
  - unfold below_2_53. split; reflexivity.
Defined.

Lemma nine_cases (n : Z) :
  0 <= n <= 8 ->
  n = 0 \/ n = 1 \/ n = 2 \/ n = 3 \/ n = 4 \/ n = 5 \/ n = 6 \/ n = 7 \/ n = 8.
Proof. lia. Qed.

(** X7.  The label is one of the nine texts ["0 of 8"] ... ["8 of 8"], and
    two candidates have the same label exactly when they meet the same
    number of conditions. *)
Theorem conditions_satisfied_labels (m : ValidationMetrics) :
  conditions_satisfied (condition_score m)
    ∈ ["0 of 8"; "1 of 8"; "2 of 8"; "3 of 8"; "4 of 8";
       "5 of 8"; "6 of 8"; "7 of 8"; "8 of 8"]
  /\ forall m' : ValidationMetrics,
      conditions_satisfied (condition_score m) = conditions_satisfied (condition_score m')
      <-> conditions_met (condition_score m) = conditions_met (condition_score m').
Proof.
  assert (Hlabel : forall n : Z, 0 <= n <= 8 ->
            (pretty n +:+ " of 8")
              ∈ ["0 of 8"; "1 of 8"; "2 of 8"; "3 of 8"; "4 of 8";
                 "5 of 8"; "6 of 8"; "7 of 8"; "8 of 8"]
            /\ forall n' : Z, 0 <= n' <= 8 ->
                 pretty n +:+ " of 8" = pretty n' +:+ " of 8" -> n = n').
  { intros n Hn. apply nine_cases in Hn. split.
    - destruct Hn as [Hn|[Hn|[Hn|[Hn|[Hn|[Hn|[Hn|[Hn|Hn]]]]]]]];
        rewrite Hn; vm_compute; set_solver.
    - intros n' Hn'. apply nine_cases in Hn'.
      destruct Hn as [Hn|[Hn|[Hn|[Hn|[Hn|[Hn|[Hn|[Hn|Hn]]]]]]]];
        destruct Hn' as [Hn'|[Hn'|[Hn'|[Hn'|[Hn'|[Hn'|[Hn'|[Hn'|Hn']]]]]]]];
        rewrite Hn, Hn'; vm_compute; congruence. }
  pose proof (ConditionProps.conditions_met_range m) as Hm.
  split.
  - apply (Hlabel _ Hm).
  - intros m'. pose proof (ConditionProps.conditions_met_range m') as Hm'.
    split.
    + apply (Hlabel _ Hm); exact Hm'.
    + intros Heq. change (pretty (conditions_met (condition_score m)) +:+ " of 8"
                          = pretty (conditions_met (condition_score m')) +:+ " of 8").
      by rewrite Heq.
Qed.

End ScoreProps.

(** ** The validation stage: errors, frame, flags *)

Module ValidationStageProps.
Import Table Store Validation Samples MoreSamples.

(** A text is read back as missing exactly when it is one of the markers. *)
Lemma csv_cell_missing (s : string) : csv_cell s = None <-> s ∈ STR_NA_VALUES.
Proof.
  unfold csv_cell, is_na.
  destruct (existsb (String.eqb s) STR_NA_VALUES) eqn:Hna.
  - split; [intros _|done].
    apply existsb_exists in Hna as (x & Hx & Heq).
    apply String.eqb_eq in Heq. rewrite Heq. by apply list_elem_of_In.
  - split; [discriminate|]. intros Hin. apply list_elem_of_In in Hin.
    assert (existsb (String.eqb s) STR_NA_VALUES = true) as Hyes.
    { apply existsb_exists. exists s. split; [done|apply String.eqb_refl]. }
    congruence.
Qed.

Section Loop.

Variable check : string -> string -> bool.

Lemma coauthored_with_any_exn (x : string) (authors : list Cell) (e : Exn) :
  snd (coauthored_with_any check x authors) = inl e -> e = AttributeError "strip".
Proof.
  induction authors as [|[ref|] rest IH]; simpl.
  - discriminate.
  - destruct (check x (PyStr.strip ref)); [discriminate|].
    destruct (coauthored_with_any check x rest) as [calls r]. exact IH.
  - by intros [= <-].
Qed.

Lemma coauthor_loop_exn (rows authors : list Cell) (e : Exn) :
  coauthor_loop check rows authors = inl e -> e = AttributeError "strip".
Proof.
  induction rows as [|[a|] rows IH]; simpl.
  - discriminate.
  - destruct (snd (coauthored_with_any check (PyStr.strip a) authors)) as [e'|flag] eqn:Hin.
    + intros [= <-]. by apply coauthored_with_any_exn in Hin.
    + destruct (coauthor_loop check rows authors); [|discriminate].
      intros [= <-]. by apply IH.
  - by intros [= <-].
Qed.

Lemma coauthor_loop_missing (rows authors : list Cell) :
  None ∈ rows -> coauthor_loop check rows authors = inl (AttributeError "strip").
Proof.
  induction rows as [|[a|] rows IH]; intros Hin.
  - by apply not_elem_of_nil in Hin.
  - apply elem_of_cons in Hin as [Hin|Hin]; [discriminate|]. simpl.
    destruct (snd (coauthored_with_any check (PyStr.strip a) authors)) as [e|flag] eqn:Hc.
    + by apply coauthored_with_any_exn in Hc as ->.
    + by rewrite (IH Hin).
  - done.
Qed.

Lemma coauthor_loop_length (rows authors : list Cell) (flags : list bool) :
  coauthor_loop check rows authors = inr flags -> length flags = length rows.
Proof.
  revert flags. induction rows as [|[a|] rows IH]; intros flags; simpl.
  - by intros [= <-].
  - destruct (snd (coauthored_with_any check (PyStr.strip a) authors)); [discriminate|].
    destruct (coauthor_loop check rows authors) as [|flags']; [discriminate|].
    intros [= <-]. simpl. by rewrite (IH flags').
  - discriminate.
Qed.

End Loop.

Lemma all_text (cells : list Cell) :
  None ∉ cells -> exists names : list string, cells = Some <$> names.
Proof.
  induction cells as [|[a|] cells IH]; intros Hnone.
  - by exists [].
  - destruct IH as [names ->].
    + intros Hin. apply Hnone. by apply list_elem_of_further.
    + by exists (a :: names).
  - destruct Hnone. apply list_elem_of_here.
Qed.

Lemma candidate_zip_with (f : CandidateRow -> bool -> ValidationMetrics)
    (df : list CandidateRow) (flags : list bool) :
  length flags = length df ->
  candidate <$> zip_with (fun r flag => scored r (f r flag)) df flags = df.
Proof.
  revert flags. induction df as [|r df IH]; intros [|flag flags] Hlen; try done.
  simpl. f_equal. apply IH. simpl in Hlen. lia.
Qed.

Lemma scored_pool_cases (C : Collaborators) (kw : string) (df : list CandidateRow) :
  (None ∈ map c_author df /\ scored_pool C kw df = inl (AttributeError "strip"))
  \/ ((None ∉ map c_author df)
      /\ (exists pool, scored_pool C kw df = inr pool /\ candidate <$> pool = df)).
Proof.
  unfold scored_pool, coauthor_results.
  destruct (decide (None ∈ map c_author df)) as [Hin|Hnot].
  - left. split; [done|]. by rewrite coauthor_loop_missing.
  - right. split; [done|].
    destruct (coauthor_loop _ _ _) as [e|flags] eqn:Hloop.
    + destruct (all_text _ Hnot) as [names Hnames]. rewrite Hnames in Hloop.
      by rewrite CoauthorshipProps.coauthor_loop_text in Hloop.
    + eexists. split; [done|]. apply candidate_zip_with.
      rewrite (coauthor_loop_length _ _ _ _ Hloop). by rewrite length_map.
Qed.

(** X8.  For a job whose candidate table and keyword string load, the
    validation raises [AttributeError] (from [.strip()] on a missing
    value) and leaves the store as it was exactly when some row of the
    table has no author. *)
Theorem validate_authors_missing_author (C : Collaborators)
    (sort : list ScoredRow -> list ScoredRow) (store : JobStore)
    (job_id kw : string) (job_dir : JobDir) (df : list CandidateRow) :
  store !! job_id = Some job_dir ->
  job_dir !! candidates_file = Some (CandidateTable df) ->
  load_keyword_string job_dir = inr kw ->
  ((exists r : CandidateRow, r ∈ df /\ c_author r = None)
   <-> validate_authors C sort store job_id = (Raised (AttributeError "strip"), store)).
Proof.
  intros Hjob Hfile Hkw. unfold validate_authors, ranked_pool.
  rewrite Hjob, Hfile, Hkw.
  destruct (scored_pool_cases C kw df) as [[Hin ->]|[Hnot (pool & -> & _)]].
  - split; [done|]. intros _.
    apply list_elem_of_fmap in Hin as (r & Hr & Hin). eauto.
  - split; [|discriminate]. intros (r & Hr & Hnone). destruct Hnot.
    apply list_elem_of_fmap. exists r. eauto.
Qed.

(** The theorem for a job whose second candidate has no name. *)
Lemma validate_authors_missing_author_witness :
  validate_authors quiet sort_desc job_with_nameless "job-3"
  = (Raised (AttributeError "strip"), job_with_nameless).
Proof.
  apply (validate_authors_missing_author quiet sort_desc job_with_nameless "job-3" ""
           {[ candidates_file := CandidateTable [ada; nameless] ]} [ada; nameless]
           eq_refl eq_refl eq_refl).
  exists nameless. split; [|reflexivity].
  apply list_elem_of_further, list_elem_of_here.
Defined.

(** X9.  When every row has an author, the validation drops and
    duplicates no candidate: for any sort honouring the contract of
    [sort_values], the candidates of the ranked table are a reordering of
    the rows of the candidate table. *)
Theorem validate_authors_keeps_every_candidate (C : Collaborators)
    (sort : list ScoredRow -> list ScoredRow) (kw : string) (df : list CandidateRow) :
  sort_values_contract sort ->
  (forall r : CandidateRow, r ∈ df -> is_Some (c_author r)) ->
  exists ranked : list ScoredRow,
    ranked_pool C sort kw df = inr ranked
    /\ candidate <$> ranked ≡ₚ df
    /\ length ranked = length df.
Proof.
  intros Hsort Hall. unfold ranked_pool.
  destruct (scored_pool_cases C kw df) as [[Hin _]|[_ (pool & -> & Hpool)]].
  - apply list_elem_of_fmap in Hin as (r & Hr & Hin).
    destruct (Hall r Hin) as [a Ha]. congruence.
  - destruct (Hsort pool) as [Hperm _]. eexists. split; [done|].
    assert (Hcand : candidate <$> sort pool ≡ₚ df) by (by rewrite Hperm, Hpool).
    split; [done|]. apply Permutation_length in Hcand. by rewrite length_fmap in Hcand.
Qed.

Lemma ada_ben_named (r : CandidateRow) : r ∈ [ada; ben] -> is_Some (c_author r).
Proof.
  intros Hr. apply elem_of_cons in Hr as [Hr|Hr]; [rewrite Hr; by eexists|].
  apply list_elem_of_singleton in Hr. rewrite Hr. by eexists.
Defined.

(** The theorem for [Ada Park] and [Ben Ruiz], with the merge sort. *)
Lemma validate_authors_keeps_every_candidate_witness :
  exists ranked : list ScoredRow,
    ranked_pool quiet sort_desc "" [ada; ben] = inr ranked
    /\ candidate <$> ranked ≡ₚ [ada; ben]
    /\ length ranked = 2%nat.
Proof.
  exact (validate_authors_keeps_every_candidate quiet sort_desc "" [ada; ben]
           RankingProps.sort_desc_contract ada_ben_named).
Defined.

(** The display projection asks for exactly one label the frame does not
    have: [Publications_last_year], whose column is named
    [Publications_last_year)]. *)
Lemma display_projection_fails :
  missing_labels display_columns frame_columns = ["Publications_last_year"].
Proof. reflexivity. Qed.

(** X10.  The endpoint never returns its success response.  The display
    projection asks for the label [Publications_last_year], which is no
    column of the frame (line 897 names the column
    [Publications_last_year)]); so the endpoint either answers 404 with
    the store untouched, or an exception escapes it, and the display file
    is never written. *)
Theorem validate_authors_never_succeeds (C : Collaborators)
    (sort : list ScoredRow -> list ScoredRow) (store : JobStore) (job_id : string) :
  missing_labels display_columns frame_columns = ["Publications_last_year"]
  /\ "Publications_last_year)" ∈ frame_columns
  /\ ((exists msg : string,
         validate_authors C sort store job_id = (JSONResponse (error msg) 404, store))
      \/ (exists e : Exn, fst (validate_authors C sort store job_id) = Raised e))
  /\ snd (validate_authors C sort store job_id) !! job_id ≫= (fun d => d !! display_file)
     = store !! job_id ≫= (fun d => d !! display_file).
Proof.
  split; [apply display_projection_fails|].
  split; [apply list_elem_of_In; vm_compute; tauto|].
  unfold validate_authors.
  destruct (store !! job_id) as [job_dir|] eqn:Hjob;
    [|cbn [snd]; rewrite Hjob; eauto].
  destruct (job_dir !! candidates_file) as [[]|];
    try (cbn [snd]; rewrite Hjob; by eauto).
  destruct (load_keyword_string job_dir); [cbn [snd]; rewrite Hjob; eauto|].
  destruct (ranked_pool C sort _ _); [cbn [snd]; rewrite Hjob; eauto|].
  rewrite display_projection_fails. split; [eauto|].
  cbn [snd]. rewrite lookup_insert_eq. cbn [mbind option_bind].
  by rewrite !lookup_insert_ne.
Qed.

Ltac unchanged H :=
  cbn [snd]; split; [intros; reflexivity|split; intros; [reflexivity|by rewrite ?H]].

(** X11.  The validation creates and removes no job, touches no other
    job, and within its own job changes at most the two files
    [author_email_df_after_val.csv] and [Final_authors.csv]; the candidate
    table and the keyword file stay as they were. *)
Theorem validate_authors_frame (C : Collaborators)
    (sort : list ScoredRow -> list ScoredRow) (store : JobStore) (job_id : string) :
  (forall j : string,
      is_Some (snd (validate_authors C sort store job_id) !! j) <-> is_Some (store !! j))
  /\ (forall j : string,
      j <> job_id -> snd (validate_authors C sort store job_id) !! j = store !! j)
  /\ (forall f : string,
      f <> after_val_file -> f <> final_authors_file ->
      snd (validate_authors C sort store job_id) !! job_id ≫= (fun d => d !! f)
      = store !! job_id ≫= (fun d => d !! f)).
Proof.
  unfold validate_authors.
  destruct (store !! job_id) as [job_dir|] eqn:Hjob; [|unchanged Hjob].
  destruct (job_dir !! candidates_file) as [[]|]; try unchanged Hjob.
  destruct (load_keyword_string job_dir); [unchanged Hjob|].
  destruct (ranked_pool C sort _ _); [unchanged Hjob|].
  rewrite display_projection_fails. cbn [snd]. split; [|split].
  - intros j. destruct (decide (job_id = j)) as [<-|Hne].
    + rewrite lookup_insert_eq, Hjob. split; eauto.
    + by rewrite lookup_insert_ne.
  - intros j Hne. by rewrite lookup_insert_ne.
  - intros f Hf1 Hf2. rewrite lookup_insert_eq. simpl.
    by rewrite !lookup_insert_ne.
Qed.

(** X12.  If the coauthorship collaborator answers yes for every
    candidate paired with itself, every candidate is flagged as coauthor:
    the no-coauthorship condition is 0 on every row and no candidate meets
    more than 7 conditions. *)
Theorem self_coauthorship_flags_everyone (C : Collaborators) (kw : string)
    (df : list CandidateRow) :
  (forall r : CandidateRow,
      r ∈ df ->
      exists a : string,
        c_author r = Some a
        /\ check_coauthorship_selenium C (PyStr.strip a) (PyStr.strip a) = true) ->
  exists pool : list ScoredRow,
    scored_pool C kw df = inr pool
    /\ candidate <$> pool = df
    /\ forall r : ScoredRow,
        r ∈ pool ->
        coauthor (metrics r) = true
        /\ coauthor_condition (score r) = 0
        /\ conditions_met (score r) <= 7.
Proof.
  intros Hself.
  assert (Hnames : exists names : list string, map c_author df = Some <$> names
            /\ forall a, a ∈ names ->
                 check_coauthorship_selenium C (PyStr.strip a) (PyStr.strip a) = true).
  { clear kw. induction df as [|r df IH].
    { exists []. split; [done|]. intros a Ha. by apply not_elem_of_nil in Ha. }
    destruct IH as (names & Hmap & Hnames).
    { intros r' Hr'. apply Hself. by apply list_elem_of_further. }
    destruct (Hself r) as (a & Ha & Hcheck); [apply list_elem_of_here|].
    exists (a :: names). split; [simpl; by rewrite Ha, Hmap|].
    intros a' [->|Hin]%elem_of_cons; auto. }
  destruct Hnames as (names & Hmap & Hnames).
  unfold scored_pool, coauthor_results. rewrite Hmap.
  rewrite CoauthorshipProps.coauthor_loop_text.
  eexists. split; [done|]. split.
  - apply candidate_zip_with. rewrite length_fmap.
    apply (f_equal length) in Hmap. by rewrite length_map, length_fmap in Hmap.
  - intros r Hr. apply elem_of_zip_with in Hr as (c & flag & -> & Hc & Hflag).
    apply list_elem_of_fmap in Hflag as (a & -> & Ha).
    assert (Hflag : existsb (fun Y => check_coauthorship_selenium C (PyStr.strip a)
                                        (PyStr.strip Y)) names = true).
    { apply existsb_exists. exists a. split; [by apply list_elem_of_In|auto]. }
    rewrite Hflag. split; [done|]. split; [done|].
    cbn [score scored conditions_met condition_score coauthor metrics_row].
    set (m := metrics_row _ _ _ _ _ _).
    pose proof (ConditionProps.pub_condition_10_years_range (Publications_10_years m)).
    pose proof (ConditionProps.pub_condition_5_years_range (Relevant_Publications_5_years m)).
    pose proof (ConditionProps.pub_condition_2_years_range (Publications_2_years m)).
    pose proof (ConditionProps.english_cond_range (Total_Publications m) (English_Pubs m)).
    pose proof (ConditionProps.aff_cond_range (aff_match m)).
    pose proof (ConditionProps.country_match_cond_range (country_match m)).
    pose proof (ConditionProps.retracted_cond_range (Retracted_Pubs_no m)).
    change (coauthor m) with true. change (coauthor_cond true) with 0. lia.
Qed.

(** The theorem for [Ada Park] and [Ben Ruiz], with name equality as the
    coauthorship collaborator. *)
Lemma self_coauthorship_flags_everyone_witness :
  exists pool : list ScoredRow,
    scored_pool quiet "" [ada; ben] = inr pool
    /\ candidate <$> pool = [ada; ben]
    /\ forall r : ScoredRow,
        r ∈ pool ->
        coauthor (metrics r) = true
        /\ coauthor_condition (score r) = 0
        /\ conditions_met (score r) <= 7.
Proof.
  apply (self_coauthorship_flags_everyone quiet "" [ada; ben]).
  intros r Hr. apply elem_of_cons in Hr as [Hr|Hr].
  - rewrite Hr. exists "Ada Park". split; reflexivity.
  - apply list_elem_of_singleton in Hr. rewrite Hr.
    exists "Ben Ruiz". split; reflexivity.
Defined.

(** X13.  The list of unique countries (line 970) has no duplicate, has
    the same members as the extracted list, keeps their order of first
    appearance and starts with the same country. *)
Theorem dict_fromkeys_unique (l : list string) :
  NoDup (dict_fromkeys l)
  /\ (forall x : string, x ∈ dict_fromkeys l <-> x ∈ l)
  /\ dict_fromkeys l `sublist_of` l
  /\ head (dict_fromkeys l) = head l.
Proof.
  assert (Hmem : forall l x, x ∈ dict_fromkeys l <-> x ∈ l).
  { clear l. intros l x. induction l as [|y l IH]; [done|]. simpl.
    rewrite !elem_of_cons, list_elem_of_filter, IH.
    destruct (decide (x = y)); tauto. }
  split; [|split; [apply Hmem|split]].
  - induction l as [|y l IH]; [constructor|]. simpl. constructor.
    + rewrite list_elem_of_filter. by intros [Hne _].
    + by apply NoDup_filter.
  - induction l as [|y l IH]; [done|]. simpl. apply sublist_skip.
    etrans; [apply sublist_filter|done].
  - by destruct l.
Qed.

End ValidationStageProps.

(** ** Manual additions: what is stored *)

Module ManualAuthorsMoreProps.
Import Table Store ManualAuthors ManualRows Samples.

Ltac unchanged H :=
  cbn [snd]; split; [intros; reflexivity|split; intros; [reflexivity|by rewrite ?H]].

Section Manual.

Variable search_pubmed_author : string -> Exn + (Cell * Cell).
Variables extract_city extract_country : string -> ParseResult.

Abbreviation manual := (manual_authors search_pubmed_author extract_city extract_country).

Lemma manual_authors_found (store : JobStore) (job_id author_name e a : string)
    (job_dir : JobDir) (old : list CandidateRow) :
  store !! job_id = Some job_dir ->
  load_candidates job_dir = inr old ->
  search_pubmed_author author_name = inr (Some e, Some a) ->
  PyStr.truthy (PyStr.strip author_name) = true ->
  PyStr.truthy e = true ->
  PyStr.truthy a = true ->
  manual store job_id author_name
  = (JSONResponse
       (added ("Author '" +:+ author_name +:+ "' added successfully.")
              job_id (new_row extract_city extract_country author_name e a)) 200,
     <[job_id :=
         <[candidates_file :=
             CandidateTable
               (to_csv <$> (refresh_city_country extract_city extract_country
                              <$> (filter (fun r => complete r = true) old
                                     ++ [new_row extract_city extract_country author_name e a])))]> job_dir]> store).
Proof.
  intros Hjob Hload Hsearch Hname He Ha. unfold manual_authors.
  rewrite Hjob, Hload, Hsearch. simpl. rewrite Hname, He, Ha. simpl.
  rewrite filter_app. reflexivity.
Qed.

Lemma csv_cell_empty : csv_cell "" = None.
Proof. reflexivity. Qed.

(** X14.  A successful manual addition answers 200 and stores the
    table made of the previously stored rows that had no missing cell, in
    order, followed by the new author (name, email and affiliation
    stripped): previously stored rows with a missing cell are dropped, so
    the table grows by at most one row. *)
Theorem manual_authors_appends (store : JobStore) (job_id author_name e a : string)
    (job_dir : JobDir) (old : list CandidateRow) :
  store !! job_id = Some job_dir ->
  load_candidates job_dir = inr old ->
  search_pubmed_author author_name = inr (Some e, Some a) ->
  PyStr.truthy (PyStr.strip author_name) = true ->
  PyStr.truthy e = true ->
  PyStr.truthy a = true ->
  exists stored : list CandidateRow,
    fst (manual store job_id author_name)
    = JSONResponse
        (added ("Author '" +:+ author_name +:+ "' added successfully.")
               job_id (new_row extract_city extract_country author_name e a)) 200
    /\ snd (manual store job_id author_name) !! job_id
         ≫= (fun d => d !! candidates_file)
       = Some (CandidateTable stored)
    /\ (fun r => (c_author r, c_email r, c_aff r)) <$> stored
       = ((fun r => (reread (c_author r), reread (c_email r), reread (c_aff r)))
            <$> filter (fun r => complete r = true) old)
         ++ [(csv_cell (PyStr.strip author_name),
              csv_cell (PyStr.strip e), csv_cell (PyStr.strip a))]
    /\ length stored = S (length (filter (fun r => complete r = true) old))
    /\ (length stored <= S (length old))%nat.
Proof.
  intros Hjob Hload Hsearch Hname He Ha.
  rewrite (manual_authors_found store job_id author_name e a job_dir old) by done.
  eexists. split; [reflexivity|]. split.
  { cbn [snd]. rewrite lookup_insert_eq. simpl. by rewrite lookup_insert_eq. }
  split; [|split].
  - by rewrite <- !list_fmap_compose, fmap_app.
  - rewrite !length_fmap, length_app. simpl. lia.
  - rewrite !length_fmap, length_app. simpl.
    pose proof (length_filter (fun r => complete r = true) old). lia.
Qed.

(** X15.  A manually added author whose affiliation gives no city or no
    country is lost at the next addition: starting from a job without a
    candidate table, after adding A and then B the stored table holds the
    single row of B. *)
Theorem manual_authors_drops_author_without_city (store : JobStore)
    (job_id A eA aA B eB aB : string) (job_dir : JobDir) :
  store !! job_id = Some job_dir ->
  job_dir !! candidates_file = None ->
  search_pubmed_author A = inr (Some eA, Some aA) ->
  PyStr.truthy (PyStr.strip A) = true -> PyStr.truthy eA = true -> PyStr.truthy aA = true ->
  search_pubmed_author B = inr (Some eB, Some aB) ->
  PyStr.truthy (PyStr.strip B) = true -> PyStr.truthy eB = true -> PyStr.truthy aB = true ->
  parse_truthy (extract_city (PyStr.strip aA)) = false
  \/ parse_truthy (extract_country (PyStr.strip aA)) = false ->
  exists rowA rowB : CandidateRow,
    snd (manual store job_id A) !! job_id ≫= (fun d => d !! candidates_file)
    = Some (CandidateTable [rowA])
    /\ c_author rowA = csv_cell (PyStr.strip A)
    /\ snd (manual (snd (manual store job_id A)) job_id B) !! job_id
         ≫= (fun d => d !! candidates_file)
       = Some (CandidateTable [rowB])
    /\ c_author rowB = csv_cell (PyStr.strip B).
Proof.
  intros Hjob Hfile HA HnA HeA HaA HB HnB HeB HaB Hcity.
  assert (Hload : load_candidates job_dir = inr []).
  { unfold load_candidates. by rewrite Hfile. }
  rewrite (manual_authors_found store job_id A eA aA job_dir []) by done.
  cbn [snd filter app list_filter fmap list_fmap].
  set (rowA := to_csv (refresh_city_country extract_city extract_country (new_row extract_city extract_country A eA aA))).
  set (dir1 := <[candidates_file := CandidateTable [rowA]]> job_dir).
  assert (Hincomplete : complete rowA = false).
  { subst rowA. unfold complete, to_csv, refresh_city_country, new_row. cbn.
    destruct (csv_cell (PyStr.strip A)); [|done].
    destruct (csv_cell (PyStr.strip eA)); [|done].
    destruct (csv_cell (PyStr.strip aA)); [|done].
    destruct Hcity as [-> | ->]; cbn; [done|].
    by destruct (csv_cell _). }
  rewrite (manual_authors_found (<[job_id := dir1]> store) job_id B eB aB dir1 [rowA]);
    try done.
  - exists rowA, (to_csv (refresh_city_country extract_city extract_country
                            (new_row extract_city extract_country B eB aB))).
    split; [by rewrite lookup_insert_eq; cbn; rewrite lookup_insert_eq|].
    split; [reflexivity|].
    split.
    + cbn [snd]. rewrite lookup_insert_eq. cbn [mbind option_bind].
      rewrite lookup_insert_eq. rewrite filter_cons, Hincomplete.
      by destruct (decide (false = true)).
    + reflexivity.
  - apply lookup_insert_eq.
  - unfold load_candidates. subst dir1. by rewrite lookup_insert_eq.
Qed.

(** X16.  A manual addition creates and removes no job, touches no other
    job, and within its own job changes no file but the candidate table. *)
Theorem manual_authors_frame (store : JobStore) (job_id author_name : string) :
  (forall j : string,
      is_Some (snd (manual store job_id author_name) !! j) <-> is_Some (store !! j))
  /\ (forall j : string,
      j <> job_id -> snd (manual store job_id author_name) !! j = store !! j)
  /\ (forall f : string,
      f <> candidates_file ->
      snd (manual store job_id author_name) !! job_id ≫= (fun d => d !! f)
      = store !! job_id ≫= (fun d => d !! f)).
Proof.
  unfold manual_authors.
  destruct (store !! job_id) as [job_dir|] eqn:Hjob; [|unchanged Hjob].
  destruct (load_candidates job_dir); [unchanged Hjob|].
  destruct (search_pubmed_author author_name) as [|[author_email author_affiliation]];
    [unchanged Hjob|].
  destruct (_ || _); [unchanged Hjob|].
  cbn [snd]. split; [|split].
  - intros j. destruct (decide (job_id = j)) as [<-|Hne].
    + rewrite lookup_insert_eq, Hjob. split; eauto.
    + by rewrite lookup_insert_ne.
  - intros j Hne. by rewrite lookup_insert_ne.
  - intros f Hf. rewrite lookup_insert_eq. simpl. by rewrite lookup_insert_ne.
Qed.

End Manual.

(** X14 for the job of [Dana Fox] and a look-up that finds [Cy Young]:
    the stored table has two rows. *)
Lemma manual_authors_appends_witness :
  exists stored : list CandidateRow,
    snd (manual_authors lookup_found city_of country_of job_with_dana "job-2" " Cy Young ")
      !! "job-2" ≫= (fun d => d !! candidates_file)
    = Some (CandidateTable stored)
    /\ length stored = 2%nat.
Proof.
  destruct (manual_authors_appends lookup_found city_of country_of job_with_dana "job-2"
              " Cy Young " " cy@uni-c.edu" "University C "
              {[ candidates_file := CandidateTable [dana] ]} [dana]
              eq_refl eq_refl eq_refl eq_refl eq_refl eq_refl)
    as (stored & _ & Hstored & _ & Hlen & _).
  exists stored. split; [exact Hstored|exact Hlen].
Defined.

(** X15 for two additions to a job without a candidate table, with
    affiliation parsers that find neither city nor country: after the
    second addition the first author is gone. *)
Lemma manual_authors_drops_author_without_city_witness :
  exists rowB : CandidateRow,
    snd (manual_authors lookup_found no_parse no_parse
           (snd (manual_authors lookup_found no_parse no_parse
                   job_without_candidates "job-1" "Ann Lee"))
           "job-1" "Bo Chen")
      !! "job-1" ≫= (fun d => d !! candidates_file)
    = Some (CandidateTable [rowB])
    /\ c_author rowB = Some "Bo Chen".
Proof.
  destruct (manual_authors_drops_author_without_city lookup_found no_parse no_parse
              job_without_candidates "job-1"
              "Ann Lee" " cy@uni-c.edu" "University C "
              "Bo Chen" " cy@uni-c.edu" "University C "
              {[ "paper_keywordstring.json" := KeywordJson (Some "(asthma)") ]}
              eq_refl eq_refl eq_refl eq_refl eq_refl eq_refl
              eq_refl eq_refl eq_refl eq_refl (or_introl eq_refl))
    as (rowA & rowB & _ & _ & HB & HnameB).
  exists rowB. split; [exact HB|exact HnameB].
Defined.

End ManualAuthorsMoreProps.

(** ** Where a candidate comes from *)

Module ProvenanceProps.
Import Table Store CandidateMerger Samples.

Lemma dict_get_elem {V} (d : list (string * V)) (k : string) (default : V) :
  k ∈ map fst d -> (k, dict_get d k default) ∈ d.
Proof.
  induction d as [|[k' v] d IH]; simpl; intros Hk.
  - by apply not_elem_of_nil in Hk.
  - destruct (String.eqb_spec k' k) as [->|Hne].
    + apply list_elem_of_here.
    + apply list_elem_of_further, IH.
      apply elem_of_cons in Hk as [Hk|Hk]; [congruence|done].
Qed.

(** X17.  Every entry of the candidate table comes from one author key
    of one source row whose two maps are non-empty: its email is that
    key's entry in the row's email map, its affiliation the key's entry in
    the row's affiliation map (the empty text when the key is absent
    there), its name the cleaned key, and its city and country are parsed
    from that affiliation. *)
Theorem candidate_pool_provenance
    (extract_city extract_country : string -> ParseResult)
    (final_df : list SourceRow) (pool : list AuthorRow) :
  candidate_pool extract_city extract_country final_df = inr pool ->
  forall r : AuthorRow,
    r ∈ pool ->
    exists (row : SourceRow) (key : string),
      row ∈ final_df
      /\ Author_Email_Map row <> []
      /\ Author_with_Affiliation row <> []
      /\ (key, Some (email r)) ∈ Author_Email_Map row
      /\ dict_get (Author_with_Affiliation row) key (Some "") = Some (aff r)
      /\ author r = clean_author key
      /\ city r = extract_city (aff r)
      /\ country r = extract_country (aff r).
Proof.
  intros Hpool r Hr.
  apply CandidateMergerProps.candidate_pool_surviving in Hpool as ->.
  apply list_elem_of_fmap in Hr as ([[a e] f] & -> & Ht).
  unfold surviving in Ht. apply list_elem_of_omap in Ht as (t & Ht & Hdrop).
  unfold records in Ht. apply list_elem_of_In, in_flat_map in Ht as (row & Hrow & Ht).
  apply list_elem_of_In in Hrow. unfold filter_valid in Hrow.
  apply list_elem_of_filter in Hrow as [[Hemail Haff] Hrow].
  unfold row_records in Ht. apply in_map_iff in Ht as (key & <- & Hkey).
  apply list_elem_of_In in Hkey.
  unfold dropna_triple in Hdrop. cbn in Hdrop.
  destruct (dict_get (Author_Email_Map row) key (Some "")) as [e'|] eqn:He; [|done].
  destruct (dict_get (Author_with_Affiliation row) key (Some "")) as [f'|] eqn:Hf; [|done].
  injection Hdrop as <- <- <-.
  exists row, key. cbn. repeat split; try done.
  rewrite <- He. by apply dict_get_elem.
Qed.

(** The theorem for the two records of [Jane Doe]: every entry of the
    table has a key of one of the two rows behind it. *)
Lemma candidate_pool_provenance_witness :
  exists pool : list AuthorRow,
    candidate_pool no_parse no_parse [jane_first; jane_second] = inr pool
    /\ forall r : AuthorRow,
        r ∈ pool ->
        exists (row : SourceRow) (key : string),
          row ∈ [jane_first; jane_second] /\ author r = clean_author key.
Proof.
  destruct (candidate_pool no_parse no_parse [jane_first; jane_second])
    as [e|pool] eqn:Hpool; [discriminate Hpool|].
  exists pool. split; [reflexivity|]. intros r Hr.
  destruct (candidate_pool_provenance no_parse no_parse [jane_first; jane_second]
              pool Hpool r Hr) as (row & key & Hrow & _ & _ & _ & _ & Hname & _).
  exists row, key. split; [exact Hrow|exact Hname].
Defined.

End ProvenanceProps.

(** ** Keyword enhancement: splitting and listing *)

Module EnhancementProps.
Import PyStr PyText Shape KeywordEnhancement TextProps KeywordParseProps.

Lemma ahead_no_space (s : string) : ahead_or_and s = true -> span_space s = O.
Proof.
  destruct s as [|c r]; [done|]. unfold ahead_or_and. intros H.
  apply orb_prop in H as [H|H];
    apply CandidateMergerProps.prefix_cons_inv in H as [<- _]; reflexivity.
Qed.

Lemma match_with_none (k : nat) (s : string) : match_with k s = None.
Proof.
  unfold match_with.
  destruct (ahead_or_and (CandidateMerger.drop_string k s)) eqn:Hahead; [|done].
  rewrite (ahead_no_space _ Hahead). by destruct (negb _).
Qed.

Lemma match_from_none (k : nat) (s : string) : match_from k s = None.
Proof. induction k as [|k IH]; [done|]. simpl. by rewrite match_with_none. Qed.

(** The pattern of [smart_split] matches nowhere: what follows its first
    [\s+] would have to be both "OR" or "AND" and a whitespace. *)
Lemma match_pattern_none (s : string) : match_pattern s = None.
Proof. apply match_from_none. Qed.

Lemma re_split_no_match (matcher : string -> option nat) (s : string) :
  (forall t, matcher t = None) -> re_split matcher O s = [s].
Proof.
  intros Hnone. induction s as [|c s IH]; [done|].
  cbn [re_split]. by rewrite Hnone, IH.
Qed.

Lemma unwrap_stripped (s : string) : strip (unwrap (strip s)) = unwrap (strip s).
Proof.
  unfold unwrap. destruct (_ && _); apply strip_idemp.
Qed.

Lemma smart_split_one (focus_str : string) :
  smart_split focus_str = [unwrap (strip focus_str)].
Proof.
  unfold smart_split.
  rewrite (re_split_no_match _ _ match_pattern_none). simpl.
  by rewrite unwrap_stripped.
Qed.

(** X18.  [smart_split] never splits: whatever the focus text, it
    returns exactly one piece, the stripped text with one pair of
    enclosing parentheses taken off; a text that is not enclosed in
    parentheses comes back stripped and whole, its OR and AND included. *)
Theorem smart_split_never_splits (focus_str : string) :
  smart_split focus_str = [unwrap (strip focus_str)]
  /\ length (smart_split focus_str) = 1%nat
  /\ (startswith "(" (strip focus_str) && endswith ")" (strip focus_str) = false ->
      smart_split focus_str = [strip focus_str]).
Proof.
  pose proof (smart_split_one focus_str) as H.
  split; [done|]. split; [by rewrite H|].
  intros Hwrap. rewrite H. unfold unwrap. by rewrite Hwrap.
Qed.

Lemma split_strip_shape (s : string) :
  Forall (fun k => strip k = k /\ has_comma k = false) (strip <$> split "," s).
Proof.
  apply Forall_fmap, Forall_forall. intros f Hf. simpl.
  pose proof (split_fields_no_sep "," s) as Hsep.
  rewrite Forall_forall in Hsep. split; [apply strip_idemp|].
  apply any_char_strip, Hsep, Hf.
Qed.

Lemma strip_keep_clean (kws : list string) :
  Forall clean_keyword kws -> kws <> [] ->
  strip <$> split "," (String " " (join ", " kws)) = kws.
Proof.
  induction 1 as [|kw kws Hkw Hkws IH]; [done|]. intros _.
  pose proof Hkw as (Ht & Hs & Hc).
  assert (Hone : strip (String " " kw) = kw) by exact Hs.
  destruct kws as [|kw2 kws].
  - change (join ", " [kw]) with kw.
    rewrite (split_no_sep "," (String " " kw)) by exact Hc.
    simpl. by rewrite Hone.
  - change (String " " (join ", " (kw :: kw2 :: kws)))
      with ((String " " kw) +:+ String "," (String " " (join ", " (kw2 :: kws)))).
    rewrite split_app_sep, fmap_app, IH by done.
    rewrite (split_no_sep "," (String " " kw)) by exact Hc.
    simpl. by rewrite Hone.
Qed.

(** X19.  The keyword list of a group never raises and is never empty:
    it starts with the comma-separated pieces of the focus string, each
    stripped and comma-free; with no additional keyword it ends with an
    empty keyword; with clean additional keywords it ends with exactly
    those keywords. *)
Theorem all_focus_list_shape (focus_str : string) (additional : list string) :
  exists front : list string,
    front = strip <$> split "," (replace " OR " ", " (unwrap (strip focus_str)))
    /\ front <> []
    /\ Forall (fun k => strip k = k /\ has_comma k = false) front
    /\ all_focus_list focus_str [] = inr (front ++ [""])
    /\ (Forall clean_keyword additional -> additional <> [] ->
        all_focus_list focus_str additional = inr (front ++ additional)).
Proof.
  eexists. split; [reflexivity|]. split; [|split; [apply split_strip_shape|]].
  { intros H. apply fmap_nil_inv in H. by apply split_nonempty in H. }
  unfold all_focus_list.
  rewrite smart_split_one.
  set (fs := replace " OR " ", " (unwrap (strip focus_str))).
  split.
  - change (join ", " []) with "".
    change (fs +:+ ", " +:+ "") with (fs +:+ String "," " ").
    by rewrite split_app_sep, fmap_app.
  - intros Hclean Hne.
    change (fs +:+ ", " +:+ join ", " additional)
      with (fs +:+ String "," (String " " (join ", " additional))).
    by rewrite split_app_sep, fmap_app, strip_keep_clean.
Qed.

Lemma pad_left_fst (ss : list string) :
  fst <$> map (fun s : string => (EmptyString, s)) ss = replicate (length ss) EmptyString.
Proof. induction ss as [|x ss IH]; [done|]. simpl. by rewrite <- IH. Qed.

Lemma pad_left_snd (ss : list string) :
  snd <$> map (fun s : string => (EmptyString, s)) ss = ss.
Proof. induction ss as [|x ss IH]; [done|]. simpl. by rewrite <- IH at 2. Qed.

(** X20.  The rows of [keywords.csv] pair the two keyword lists position
    by position and pad the shorter one with empty cells: there are as
    many rows as the longer list has keywords, and no keyword is lost. *)
Theorem keyword_rows_pad (primary secondary : list string) :
  length (keyword_rows primary secondary)
  = Nat.max (length primary) (length secondary)
  /\ fst <$> keyword_rows primary secondary
     = primary ++ replicate (length secondary - length primary) ""
  /\ snd <$> keyword_rows primary secondary
     = secondary ++ replicate (length primary - length secondary) "".
Proof.
  revert secondary. induction primary as [|p ps IH]; intros [|s ss].
  - done.
  - cbn [keyword_rows]. rewrite !fmap_cons, pad_left_fst, pad_left_snd.
    cbn [length]. rewrite length_map. simpl. by rewrite app_nil_r.
  - destruct (IH []) as (Hlen & Hfst & Hsnd). cbn [keyword_rows].
    rewrite !fmap_cons, Hfst, Hsnd. cbn [length]. rewrite Hlen. simpl.
    by rewrite !app_nil_r, Nat.sub_0_r, Nat.max_0_r.
  - destruct (IH ss) as (Hlen & Hfst & Hsnd). cbn [keyword_rows].
    rewrite !fmap_cons, Hfst, Hsnd. cbn [length]. by rewrite Hlen.
Qed.

End EnhancementProps.

(** ** Files of a job found by suffix *)

Module StoreProps.
Import Table Store PyText.

Lemma app_string_assoc (a b c : string) : (a +:+ b) +:+ c = a +:+ (b +:+ c).
Proof.
  induction a as [|x a IH]; [done|].
  change (String x ((a +:+ b) +:+ c) = String x (a +:+ (b +:+ c))). by rewrite IH.
Qed.

Lemma rev_app_acc (s acc : string) : String.rev_app s acc = String.rev s +:+ acc.
Proof.
  revert acc. induction s as [|x s IH]; intros acc; [done|]. unfold String.rev.
  cbn [String.rev_app]. rewrite (IH (String x acc)), (IH (String x "")).
  by rewrite app_string_assoc.
Qed.

Lemma rev_app_app (a b acc : string) :
  String.rev_app (a +:+ b) acc = String.rev_app b (String.rev_app a acc).
Proof.
  revert acc. induction a as [|x a IH]; intros acc; [done|].
  change (String x a +:+ b) with (String x (a +:+ b)). cbn [String.rev_app].
  apply IH.
Qed.

Lemma rev_app_string (a b : string) :
  String.rev (a +:+ b) = String.rev b +:+ String.rev a.
Proof. unfold String.rev at 1. by rewrite rev_app_app, rev_app_acc. Qed.

Lemma prefix_app (a b : string) : String.prefix a (a +:+ b) = true.
Proof.
  induction a as [|x a IH]; [by destruct b|].
  change (String x a +:+ b) with (String x (a +:+ b)). cbn [String.prefix].
  by destruct (ascii_dec x x).
Qed.

Lemma endswith_app (base suffix : string) : endswith suffix (base +:+ suffix) = true.
Proof. unfold endswith. rewrite rev_app_string. apply prefix_app. Qed.

Lemma endswith_exclusive (name : string) :
  endswith "_metadata.json" name = true ->
  endswith "_keywordstring.json" name = false.
Proof.
  unfold endswith. intros Hm.
  destruct (String.prefix (String.rev "_keywordstring.json") (String.rev name)) eqn:Hk;
    [|done].
  assert (String.prefix (String.rev "_metadata.json") (String.rev "_keywordstring.json")
          = true) as Hbad; [|discriminate Hbad].
  apply (CandidateMergerProps.prefix_common _ _ (String.rev name)); [done..|].
  vm_compute. lia.
Qed.

Lemma glob_suffix_elem (suffix name : string) (file : Artifact) (job_dir : JobDir) :
  (name, file) ∈ glob_suffix suffix job_dir
  <-> job_dir !! name = Some file /\ endswith suffix name = true.
Proof.
  unfold glob_suffix. rewrite list_elem_of_filter, elem_of_map_to_list. simpl.
  unfold endswith. tauto.
Qed.

Lemma glob_suffix_NoDup (suffix : string) (job_dir : JobDir) :
  NoDup (glob_suffix suffix job_dir).
Proof. apply NoDup_filter, NoDup_map_to_list. Qed.

Lemma NoDup_singleton_eq {A} (l : list A) (a : A) :
  NoDup l -> (forall x, x ∈ l <-> x = a) -> l = [a].
Proof.
  intros Hnd Hl. destruct l as [|x l].
  - assert (a ∈ []) as Hin by (by apply Hl). by apply not_elem_of_nil in Hin.
  - assert (x = a) as -> by (apply Hl, list_elem_of_here).
    destruct l as [|y l]; [done|].
    assert (y = a) as -> by (apply Hl, list_elem_of_further, list_elem_of_here).
    apply NoDup_cons in Hnd as [Hnot _]. destruct Hnot. apply list_elem_of_here.
Qed.

(** Writing a file whose name does not end in [suffix] leaves the files
    found for [suffix] the same, up to their order. *)
Lemma glob_suffix_insert_other (suffix name : string) (file : Artifact) (job_dir : JobDir) :
  endswith suffix name = false ->
  forall x, x ∈ glob_suffix suffix (<[name := file]> job_dir)
            <-> x ∈ glob_suffix suffix job_dir.
Proof.
  intros Hname [n a]. rewrite !glob_suffix_elem.
  destruct (decide (name = n)) as [<-|Hne].
  - rewrite Hname. split; intros [_ ?]; done.
  - by rewrite lookup_insert_ne.
Qed.

Lemma endswith_shorter (s1 s2 name : string) :
  endswith s1 name = true -> endswith s2 name = true ->
  (String.length (String.rev s1) <= String.length (String.rev s2))%nat ->
  endswith s1 s2 = true.
Proof.
  unfold endswith. intros H1 H2 Hlen.
  by apply (CandidateMergerProps.prefix_common _ _ (String.rev name)).
Qed.

Lemma glob_suffix_empty (suffix : string) (job_dir : JobDir) :
  (forall x, x ∉ glob_suffix suffix job_dir) -> glob_suffix suffix job_dir = [].
Proof.
  destruct (glob_suffix suffix job_dir) as [|x l]; [done|].
  intros Hno. destruct (Hno x). apply list_elem_of_here.
Qed.

End StoreProps.

(** ** The endpoints in sequence *)

Module EndpointProps.
Import Table Store PyText Endpoints StoreProps Samples MoreSamples.

Section WithJson.

Variable json_load : string -> Exn + JObject.
Variable json_dump : JObject -> string.
Variable now : string.

Abbreviation generator := (keyword_string_generator json_load json_dump now).

Lemma glob_head_elem (suffix name : string) (file : Artifact)
    (rest : list (string * Artifact)) (job_dir : JobDir) :
  glob_suffix suffix job_dir = (name, file) :: rest ->
  job_dir !! name = Some file /\ endswith suffix name = true.
Proof.
  intros Hglob. apply (glob_suffix_elem suffix). rewrite Hglob. apply list_elem_of_here.
Qed.

(** X21.  The keyword-string generator creates and removes no job,
    touches no other job, and within its own job changes only files whose
    names end in [_keywordstring.json] or [_metadata.json]; unless it
    answers with its success body it changes nothing at all. *)
Theorem keyword_string_generator_frame (store : JobStore) (job_id p s : string) :
  (forall j : string,
      is_Some (snd (generator store job_id p s) !! j) <-> is_Some (store !! j))
  /\ (forall j : string,
      j <> job_id -> snd (generator store job_id p s) !! j = store !! j)
  /\ (forall f : string,
      endswith "_keywordstring.json" f = false ->
      endswith "_metadata.json" f = false ->
      snd (generator store job_id p s) !! job_id ≫= (fun d => d !! f)
      = store !! job_id ≫= (fun d => d !! f))
  /\ ((forall answer : KeywordAnswer, fst (generator store job_id p s) <> Ok answer) ->
      snd (generator store job_id p s) = store).
Proof.
  unfold keyword_string_generator.
  destruct (store !! job_id) as [job_dir|] eqn:Hjob.
  2: { cbn [snd fst]. rewrite Hjob. by repeat split. }
  destruct (glob_suffix "_metadata.json" job_dir) as [|[mname mfile] rest] eqn:Hglob.
  { cbn [snd fst]. rewrite Hjob. by repeat split. }
  destruct (read_json json_load mfile) as [e|input_data].
  { cbn [snd fst]. rewrite Hjob. by repeat split. }
  apply glob_head_elem in Hglob as [Hm Hmeta].
  cbn [snd fst]. split; [|split; [|split]].
  - intros j. destruct (decide (job_id = j)) as [<-|Hne].
    + rewrite lookup_insert_eq, Hjob. split; eauto.
    + by rewrite lookup_insert_ne.
  - intros j Hne. by rewrite lookup_insert_ne.
  - intros f Hk Hmd. rewrite lookup_insert_eq. cbn [mbind option_bind].
    rewrite !lookup_insert_ne; [done| |].
    + intros <-. unfold keyword_file_name in Hk. by rewrite endswith_app in Hk.
    + intros <-. congruence.
  - intros Hno. by destruct (Hno _ eq_refl).
Qed.

(** X22.  What the generator stores is what the later stages load.  After
    a successful run on a job in which no keyword-string file other than
    the one it writes exists, the answer carries the string built from the
    two parsed inputs, the keyword file holds that string, the loader of
    the search and validation stages reads that same string back, and the
    candidate table is as it was. *)
Theorem generated_keyword_string_is_loaded (store store' : JobStore)
    (job_id p s : string) (job_dir : JobDir) (answer : KeywordAnswer) :
  store !! job_id = Some job_dir ->
  generator store job_id p s = (Ok answer, store') ->
  (forall (name : string) (file : Artifact),
      (name, file) ∈ glob_suffix "_keywordstring.json" job_dir ->
      name = ka_keyword_file answer) ->
  exists job_dir' : JobDir,
    store' !! job_id = Some job_dir'
    /\ ka_keyword_string answer
       = KeywordQuery.keyword_string (KeywordQuery.parse_keywords p)
                                     (KeywordQuery.parse_keywords s)
    /\ job_dir' !! ka_keyword_file answer
       = Some (KeywordJson (Some (ka_keyword_string answer)))
    /\ Validation.load_keyword_string job_dir' = inr (ka_keyword_string answer)
    /\ job_dir' !! candidates_file = job_dir !! candidates_file.
Proof.
  intros Hjob Hrun Hothers. unfold keyword_string_generator in Hrun.
  rewrite Hjob in Hrun.
  destruct (glob_suffix "_metadata.json" job_dir) as [|[mname mfile] rest] eqn:Hglob;
    [discriminate|].
  destruct (read_json json_load mfile) as [e|input_data]; [discriminate|].
  injection Hrun as <- <-. cbn [ka_keyword_file ka_keyword_string] in *.
  apply glob_head_elem in Hglob as [Hm Hmeta].
  pose proof (endswith_exclusive mname Hmeta) as Hmk.
  pose proof (endswith_app (replace "_metadata" "" (stem mname)) "_keywordstring.json")
    as Hkk. fold (keyword_file_name mname) in Hkk.
  set (ks := KeywordQuery.keyword_string _ _) in *.
  set (kname := keyword_file_name mname) in *.
  assert (Hne : mname <> kname) by (intros Heq; rewrite Heq in Hmk; congruence).
  eexists. split; [apply lookup_insert_eq|]. split; [done|]. split; [|split].
  - rewrite lookup_insert_ne by done. apply lookup_insert_eq.
  - unfold Validation.load_keyword_string.
    rewrite (NoDup_singleton_eq _ (kname, KeywordJson (Some ks))
               (glob_suffix_NoDup _ _)); [done|].
    intros [n a]. rewrite glob_suffix_insert_other by done.
    rewrite glob_suffix_elem. split.
    + intros [Hn Hend]. destruct (decide (kname = n)) as [<-|Hkn].
      * rewrite lookup_insert_eq in Hn. by injection Hn as <-.
      * rewrite lookup_insert_ne in Hn by done. destruct Hkn. symmetry.
        apply (Hothers n a), glob_suffix_elem. done.
    + intros Heq. injection Heq as Hn Ha. rewrite Hn, Ha.
      split; [apply lookup_insert_eq|done].
  - rewrite !lookup_insert_ne; [done| |].
    + intros Heq. rewrite Heq in Hkk. vm_compute in Hkk. discriminate Hkk.
    + intros Heq. rewrite Heq in Hmeta. vm_compute in Hmeta. discriminate Hmeta.
Qed.

(** X29.  Generation, then the metadata view.  After a successful run of
    the generator on a job with one metadata file and no [*_keywords.json]
    file, the metadata endpoint serves the metadata file, not the
    keyword-string file the generator also wrote: it answers with that
    file's name and with what the JSON reader finds in the text the
    generator dumped, the old metadata updated with the timestamp, the two
    keyword lists and the keyword string. *)
Theorem metadata_after_generator (store store' : JobStore) (job_id p s mname : string)
    (job_dir : JobDir) (mfile : Artifact) (answer : KeywordAnswer) :
  store !! job_id = Some job_dir ->
  glob_suffix "_keywords.json" job_dir = [] ->
  glob_suffix "_metadata.json" job_dir = [(mname, mfile)] ->
  generator store job_id p s = (Ok answer, store') ->
  exists input_data : JObject,
    read_json json_load mfile = inr input_data
    /\ ka_metadata_file answer = mname
    /\ metadata_extraction json_load store' job_id
       = match
           json_load
             (json_dump
                (dict_update input_data
                   [("timestamp", JString now);
                    ("input_primary_keywords", JStrings (ka_input_primary_keywords answer));
                    ("input_secondary_keywords",
                     JStrings (ka_input_secondary_keywords answer));
                    ("keyword_string", JString (ka_keyword_string answer))]))
         with
         | inl e => Escaped e
         | inr metadata_result =>
             Ok {| ma_job_id := job_id;
                   ma_file_name := mname;
                   ma_data := metadata_result |}
         end.
Proof.
  intros Hjob Hnokw Hglob Hrun. unfold keyword_string_generator in Hrun.
  rewrite Hjob, Hglob in Hrun.
  destruct (read_json json_load mfile) as [e|input_data]; [discriminate|].
  injection Hrun as <- <-. exists input_data. split; [done|]. split; [done|].
  cbn [ka_input_primary_keywords ka_input_secondary_keywords ka_keyword_string].
  assert (Hm : job_dir !! mname = Some mfile /\ endswith "_metadata.json" mname = true).
  { apply (glob_suffix_elem "_metadata.json"). rewrite Hglob. apply list_elem_of_here. }
  destruct Hm as [Hm Hmeta].
  pose proof (endswith_app (replace "_metadata" "" (stem mname)) "_keywordstring.json")
    as Hkk. fold (keyword_file_name mname) in Hkk.
  set (kname := keyword_file_name mname) in *.
  assert (Hmk : endswith "_keywords.json" mname = false).
  { destruct (endswith "_keywords.json" mname) eqn:Hk; [|done].
    pose proof (endswith_shorter _ _ _ Hk Hmeta) as Hbad.
    vm_compute in Hbad. by specialize (Hbad ltac:(lia)). }
  assert (Hkk' : endswith "_keywords.json" kname = false).
  { destruct (endswith "_keywords.json" kname) eqn:Hk; [|done].
    pose proof (endswith_shorter _ _ _ Hk Hkk) as Hbad.
    vm_compute in Hbad. by specialize (Hbad ltac:(lia)). }
  assert (Hkm : endswith "_metadata.json" kname = false).
  { destruct (endswith "_metadata.json" kname) eqn:Hk; [|done].
    pose proof (endswith_shorter _ _ _ Hk Hkk) as Hbad.
    vm_compute in Hbad. by specialize (Hbad ltac:(lia)). }
  unfold metadata_extraction. rewrite lookup_insert_eq. unfold metadata_files.
  rewrite (glob_suffix_empty "_keywords.json").
  2: { intros x. rewrite !glob_suffix_insert_other by done. rewrite Hnokw.
       apply not_elem_of_nil. }
  set (text := json_dump _).
  rewrite (NoDup_singleton_eq _ (mname, OtherFile text) (glob_suffix_NoDup _ _)).
  { cbn [read_json]. done. }
  intros [n a]. rewrite glob_suffix_elem. split.
  - intros [Hn Hend]. destruct (decide (mname = n)) as [<-|Hne].
    { rewrite lookup_insert_eq in Hn. by injection Hn as <-. }
    rewrite lookup_insert_ne in Hn by done.
    destruct (decide (kname = n)) as [<-|Hne']; [congruence|].
    rewrite lookup_insert_ne in Hn by done.
    assert (Hin : (n, a) ∈ glob_suffix "_metadata.json" job_dir)
      by (by apply glob_suffix_elem).
    rewrite Hglob in Hin. apply list_elem_of_singleton in Hin. congruence.
  - intros Heq. injection Heq as Hn Ha. rewrite Hn, Ha.
    split; [apply lookup_insert_eq|done].
Qed.

End WithJson.

(** A run whose first component is known. *)
Lemma run_with {A B} (run : A * B) (a : A) : fst run = a -> run = (a, snd run).
Proof. intros <-. apply surjective_pairing. Qed.

(** X22 for a job that holds its metadata file only, with the keywords
    [asthma, copd] and [children]. *)
Lemma generated_keyword_string_is_loaded_witness :
  exists job_dir' : JobDir,
    snd (keyword_string_generator load_empty dump_flat noon job_with_metadata "job-4"
           "asthma, copd" "children") !! "job-4" = Some job_dir'
    /\ Validation.load_keyword_string job_dir' = inr "(asthma OR copd) AND (children)".
Proof.
  assert (Hrun : { answer : KeywordAnswer |
             keyword_string_generator load_empty dump_flat noon job_with_metadata "job-4"
               "asthma, copd" "children"
             = (Ok answer,
                snd (keyword_string_generator load_empty dump_flat noon job_with_metadata
                       "job-4" "asthma, copd" "children")) }).
  { eexists. apply run_with. vm_compute. reflexivity. }
  destruct Hrun as [answer Hrun].
  assert (Hnone : forall (name : string) (file : Artifact),
             (name, file) ∈ glob_suffix "_keywordstring.json"
                              ({[ "paper_metadata.json" := OtherFile "{}" ]} : JobDir) ->
             name = ka_keyword_file answer).
  { intros name file Hin. exfalso. revert Hin.
    assert (glob_suffix "_keywordstring.json"
              ({[ "paper_metadata.json" := OtherFile "{}" ]} : JobDir) = []) as ->
      by (vm_compute; reflexivity).
    apply not_elem_of_nil. }
  destruct (generated_keyword_string_is_loaded load_empty dump_flat noon
              job_with_metadata _ "job-4" "asthma, copd" "children"
              {[ "paper_metadata.json" := OtherFile "{}" ]} answer
              eq_refl Hrun Hnone)
    as (job_dir' & Hjob & Hstring & _ & Hload & _).
  exists job_dir'. split; [exact Hjob|].
  rewrite Hload, Hstring. vm_compute. reflexivity.
Defined.

(** X29 for the same job: the view shows the metadata file. *)
Lemma metadata_after_generator_witness :
  metadata_extraction load_empty
    (snd (keyword_string_generator load_empty dump_flat noon job_with_metadata "job-4"
            "asthma, copd" "children"))
    "job-4"
  = Ok {| ma_job_id := "job-4"; ma_file_name := "paper_metadata.json"; ma_data := [] |}.
Proof.
  assert (Hrun : { answer : KeywordAnswer |
             keyword_string_generator load_empty dump_flat noon job_with_metadata "job-4"
               "asthma, copd" "children"
             = (Ok answer,
                snd (keyword_string_generator load_empty dump_flat noon job_with_metadata
                       "job-4" "asthma, copd" "children")) }).
  { eexists. apply run_with. vm_compute. reflexivity. }
  destruct Hrun as [answer Hrun].
  assert (Hjob : job_with_metadata !! "job-4" = Some metadata_dir).
  { vm_compute. reflexivity. }
  assert (Hnone : glob_suffix "_keywords.json" metadata_dir = []).
  { vm_compute. reflexivity. }
  assert (Hglob : glob_suffix "_metadata.json" metadata_dir
                  = [("paper_metadata.json", OtherFile "{}")]).
  { vm_compute. reflexivity. }
  destruct (metadata_after_generator load_empty dump_flat noon job_with_metadata _
              "job-4" "asthma, copd" "children" "paper_metadata.json" metadata_dir
              (OtherFile "{}") answer Hjob Hnone Hglob Hrun)
    as (input_data & _ & _ & Hview).
  exact Hview.
Defined.

Section Search.

Variable json_load : string -> Exn + JObject.
Variable S : Searchers.
Variables extract_city extract_country : string -> ParseResult.

Abbreviation search := (database_search json_load S extract_city extract_country).

Abbreviation known_websites := ["ScienceDirect"; "TandFonline"; "WileyLibrary"; "PubMed"].

Lemma source_rows_ext (selected selected' : list string) (website : string)
    (result : option (list SourceRow)) :
  (website ∈ selected <-> website ∈ selected') ->
  source_rows selected website result = source_rows selected' website result.
Proof.
  intros H. unfold source_rows.
  destruct (bool_decide_reflect (website ∈ selected)) as [Hin|Hout];
    destruct (bool_decide_reflect (website ∈ selected')); tauto.
Qed.

Lemma source_rows_tagged (selected : list string) (website : string)
    (result : option (list SourceRow)) (row : SourceRow) :
  row ∈ source_rows selected website result ->
  Website row = website /\ website ∈ selected.
Proof.
  unfold source_rows. destruct (bool_decide_reflect (website ∈ selected)) as [Hin|Hout].
  - intros (r & <- & _)%list_elem_of_In%in_map_iff. done.
  - by intros ?%not_elem_of_nil.
Qed.

Lemma source_rows_websites (selected : list string) (website : string)
    (result : option (list SourceRow)) :
  Website <$> source_rows selected website result
  = replicate (length (source_rows selected website result)) website.
Proof.
  unfold source_rows. destruct (bool_decide _); [|done].
  induction (default [] result) as [|r rs IH]; [done|]. simpl. by rewrite <- IH.
Qed.

(** X23.  The combined table of the search depends only on which of the
    four known websites are selected, not on the order or the repetitions
    in the selection: every row carries the name of a selected known
    website, and the rows come in four blocks in the fixed order
    ScienceDirect, TandFonline, WileyLibrary, PubMed. *)
Theorem combined_sources (selected : list string) (keyword_string : string) :
  (forall selected' : list string,
      (forall w : string, w ∈ selected <-> w ∈ selected') ->
      combined S selected keyword_string = combined S selected' keyword_string)
  /\ (forall row : SourceRow,
      row ∈ combined S selected keyword_string ->
      Website row ∈ selected /\ Website row ∈ known_websites)
  /\ exists n1 n2 n3 n4 : nat,
      Website <$> combined S selected keyword_string
      = replicate n1 "ScienceDirect" ++ replicate n2 "TandFonline"
        ++ replicate n3 "WileyLibrary" ++ replicate n4 "PubMed".
Proof.
  split; [|split].
  - intros selected' Hsame. unfold combined.
    by rewrite !(source_rows_ext selected selected') by apply Hsame.
  - intros row Hrow. unfold combined in Hrow.
    rewrite !elem_of_app in Hrow.
    destruct Hrow as [H|[H|[H|H]]]; apply source_rows_tagged in H as [-> Hsel];
      (split; [done|]); set_solver.
  - unfold combined. do 4 eexists. rewrite !fmap_app, !source_rows_websites. done.
Qed.

(** X24.  The search creates and removes no job, touches no other job,
    and within its own job changes at most the three files [final_df.csv],
    [final_df_1.csv] and the candidate table, so the keyword and metadata
    files stay as they were.  It changes nothing at all unless it answers
    200 or a [TypeError] escapes: the one raised when the response is
    rendered comes after the three files are written. *)
Theorem database_search_frame (store : JobStore) (job_id selected : string) :
  (forall j : string,
      is_Some (snd (search store job_id selected) !! j) <-> is_Some (store !! j))
  /\ (forall j : string,
      j <> job_id -> snd (search store job_id selected) !! j = store !! j)
  /\ (forall f : string,
      f <> "final_df.csv" -> f <> "final_df_1.csv" -> f <> candidates_file ->
      snd (search store job_id selected) !! job_id ≫= (fun d => d !! f)
      = store !! job_id ≫= (fun d => d !! f))
  /\ ((forall content : Content,
         fst (search store job_id selected) <> JSONResponse content 200) ->
      (forall msg : string,
         fst (search store job_id selected) <> Raised (TypeError msg)) ->
      snd (search store job_id selected) = store).
Proof.
  unfold database_search.
  destruct (store !! job_id) as [job_dir|] eqn:Hjob.
  2: { cbn [snd fst]. rewrite Hjob. by repeat split. }
  destruct (glob_suffix "_keywordstring.json" job_dir).
  { cbn [snd fst]. rewrite Hjob. by repeat split. }
  destruct (Validation.load_keyword_string job_dir).
  { cbn [snd fst]. rewrite Hjob. by repeat split. }
  destruct (match glob_suffix "_metadata.json" job_dir with [] => _ | _ => _ end).
  { cbn [snd fst]. rewrite Hjob. by repeat split. }
  unfold CandidateMerger.merge_and_store.
  destruct (CandidateMerger.author_email_df _ _ _) as [e|df].
  { cbn [snd fst]. rewrite Hjob. by repeat split. }
  destruct (CandidateMerger.render_error df) as [e'|] eqn:Hrender;
    cbn [snd fst]; (split; [|split; [|split]]).
  1, 5: intros j; destruct (decide (job_id = j)) as [<-|Hne];
    [rewrite lookup_insert_eq, Hjob; split; eauto|by rewrite lookup_insert_ne].
  1, 4: intros j Hne; by rewrite lookup_insert_ne.
  1, 3: intros f Hf1 Hf2 Hf3; rewrite lookup_insert_eq; cbn [mbind option_bind];
    by rewrite !lookup_insert_ne.
  - intros _ Hno. unfold CandidateMerger.render_error in Hrender.
    destruct (omap _ _); [discriminate|]. injection Hrender as <-.
    by destruct (Hno _ eq_refl).
  - intros Hno _. by destruct (Hno _ eq_refl).
Qed.

Lemma search_runs (store : JobStore) (job_id selected kw : string) (job_dir : JobDir)
    (metadata_data : JObject) :
  store !! job_id = Some job_dir ->
  glob_suffix "_keywordstring.json" job_dir <> [] ->
  Validation.load_keyword_string job_dir = inr kw ->
  match glob_suffix "_metadata.json" job_dir with
  | [] => inr []
  | (_, metadata_file) :: _ => read_json json_load metadata_file
  end = inr metadata_data ->
  search store job_id selected
  = CandidateMerger.merge_and_store extract_city extract_country store job_id job_dir
      (combined S (KeywordQuery.parse_keywords selected) kw).
Proof.
  intros Hjob Hglob Hkw Hmeta. unfold database_search. rewrite Hjob, Hkw, Hmeta.
  by destruct (glob_suffix "_keywordstring.json" job_dir).
Qed.

(** X25.  A search that finds no usable author record does not answer
    with an empty table: for a job whose keyword string and metadata load,
    if no row with both maps non-empty contributes a record (in particular
    when none of the four known websites is selected), [KeyError: 'aff']
    escapes and nothing is written. *)
Theorem database_search_nothing_found (store : JobStore) (job_id selected kw : string)
    (job_dir : JobDir) (metadata_data : JObject) :
  store !! job_id = Some job_dir ->
  glob_suffix "_keywordstring.json" job_dir <> [] ->
  Validation.load_keyword_string job_dir = inr kw ->
  match glob_suffix "_metadata.json" job_dir with
  | [] => inr []
  | (_, metadata_file) :: _ => read_json json_load metadata_file
  end = inr metadata_data ->
  (CandidateMerger.records
     (CandidateMerger.filter_valid (combined S (KeywordQuery.parse_keywords selected) kw))
   = [] ->
   search store job_id selected = (Raised (KeyError "aff"), store))
  /\ ((forall w : string,
         w ∈ known_websites -> w ∉ KeywordQuery.parse_keywords selected) ->
      search store job_id selected = (Raised (KeyError "aff"), store)).
Proof.
  intros Hjob Hglob Hkw Hmeta.
  rewrite (search_runs store job_id selected kw job_dir metadata_data) by done.
  assert (Hempty : CandidateMerger.records
            (CandidateMerger.filter_valid
               (combined S (KeywordQuery.parse_keywords selected) kw)) = [] ->
          CandidateMerger.merge_and_store extract_city extract_country store job_id
            job_dir (combined S (KeywordQuery.parse_keywords selected) kw)
          = (Raised (KeyError "aff"), store)).
  { intros Hrec. unfold CandidateMerger.merge_and_store, CandidateMerger.author_email_df.
    by rewrite Hrec. }
  split; [done|]. intros Hnone. apply Hempty.
  assert (combined S (KeywordQuery.parse_keywords selected) kw = []) as ->; [|done].
  unfold combined, source_rows.
  rewrite !bool_decide_eq_false_2; [done|apply Hnone; set_solver..].
Qed.

(** The files the search stage writes do not end in [_keywordstring.json]:
    the keyword files found are the same before and after. *)
Lemma search_keeps_keyword_files (job_dir : JobDir) (f1 f2 f3 : Artifact) :
  forall x,
    x ∈ glob_suffix "_keywordstring.json"
          (<[candidates_file := f3]>
             (<["final_df_1.csv" := f2]> (<["final_df.csv" := f1]> job_dir)))
    <-> x ∈ glob_suffix "_keywordstring.json" job_dir.
Proof.
  intros x. by rewrite !glob_suffix_insert_other.
Qed.

Lemma search_then_validate_eq (C : Validation.Collaborators)
    (sort : list ScoredRow -> list ScoredRow)
    (store store' : JobStore) (job_id selected name : string) (job_dir : JobDir)
    (k : option string) (count : nat) :
  store !! job_id = Some job_dir ->
  glob_suffix "_keywordstring.json" job_dir = [(name, KeywordJson k)] ->
  search store job_id selected = (JSONResponse (searched job_id count) 200, store') ->
  exists (pool : list AuthorRow) (job_dir' : JobDir),
    CandidateMerger.candidate_pool extract_city extract_country
      (combined S (KeywordQuery.parse_keywords selected) (default "" k)) = inr pool
    /\ store' !! job_id = Some job_dir'
    /\ job_dir' !! candidates_file = Some (CandidateTable (to_csv_row <$> pool))
    /\ Validation.validate_authors C sort store' job_id
       = match Validation.ranked_pool C sort (default "" k) (to_csv_row <$> pool) with
         | inl e => (Raised e, store')
         | inr ranked =>
             (Raised (KeyError "Publications_last_year"),
              <[job_id := <[Validation.final_authors_file := ScoredTable ranked]>
                            (<[Validation.after_val_file := ScoredTable ranked]> job_dir')]>
                store')
         end.
Proof.
  intros Hjob Hglob Hrun. unfold database_search in Hrun.
  rewrite Hjob, Hglob in Hrun.
  assert (Hkw : Validation.load_keyword_string job_dir = inr (default "" k)).
  { unfold Validation.load_keyword_string. by rewrite Hglob. }
  rewrite Hkw in Hrun.
  destruct (match glob_suffix "_metadata.json" job_dir with [] => _ | _ => _ end);
    [discriminate|].
  unfold CandidateMerger.merge_and_store in Hrun.
  fold (CandidateMerger.candidate_pool extract_city extract_country
          (combined S (KeywordQuery.parse_keywords selected) (default "" k))) in Hrun.
  destruct (CandidateMerger.candidate_pool _ _ _) as [e|pool] eqn:Hpool; [discriminate|].
  destruct (CandidateMerger.render_error pool); [discriminate|].
  injection Hrun as _ <-.
  eexists pool, _. split; [done|]. split; [apply lookup_insert_eq|].
  split; [apply lookup_insert_eq|].
  unfold Validation.validate_authors. rewrite lookup_insert_eq, lookup_insert_eq.
  assert (Validation.load_keyword_string
            (<[candidates_file := CandidateTable (map to_csv_row pool)]>
               (<["final_df_1.csv" :=
                    SourceViewTable
                      (map CandidateMerger.source_view
                         (CandidateMerger.filter_valid
                            (combined S (KeywordQuery.parse_keywords selected)
                               (default "" k))))]>
                  (<["final_df.csv" :=
                       SourceTable
                         (CandidateMerger.filter_valid
                            (combined S (KeywordQuery.parse_keywords selected)
                               (default "" k)))]> job_dir)))
          = inr (default "" k)) as ->; [|done].
  unfold Validation.load_keyword_string.
  rewrite (NoDup_singleton_eq _ (name, KeywordJson k) (glob_suffix_NoDup _ _)); [done|].
  intros x. rewrite search_keeps_keyword_files, Hglob. apply list_elem_of_singleton.
Qed.


(** X27.  A candidate whose name cleans to the empty text, or to another
    text that [pd.read_csv] reads as a missing value ([NA], [None],
    [null], [nan], ...), stops the whole validation: after a search that
    answered 200 with such a name in its candidate table, the validation
    raises [AttributeError] and writes nothing. *)
Theorem missing_name_breaks_validation (C : Validation.Collaborators)
    (sort : list ScoredRow -> list ScoredRow)
    (store store' : JobStore) (job_id selected name : string) (job_dir : JobDir)
    (k : option string) (count : nat) (pool : list AuthorRow) :
  store !! job_id = Some job_dir ->
  glob_suffix "_keywordstring.json" job_dir = [(name, KeywordJson k)] ->
  search store job_id selected = (JSONResponse (searched job_id count) 200, store') ->
  CandidateMerger.candidate_pool extract_city extract_country
    (combined S (KeywordQuery.parse_keywords selected) (default "" k)) = inr pool ->
  (exists r : AuthorRow, r ∈ pool /\ author r ∈ STR_NA_VALUES) ->
  Validation.validate_authors C sort store' job_id
  = (Raised (AttributeError "strip"), store').
Proof.
  intros Hjob Hglob Hrun Hpool (r & Hin & Hr).
  destruct (search_then_validate_eq C sort store store' job_id selected name job_dir
              k count Hjob Hglob Hrun) as (pool' & job_dir' & Hpool' & _ & _ & ->).
  rewrite Hpool in Hpool'. injection Hpool' as <-. unfold Validation.ranked_pool.
  destruct (ValidationStageProps.scored_pool_cases C (default "" k) (to_csv_row <$> pool))
    as [[_ ->]|[Hnot _]]; [done|].
  destruct Hnot. apply list_elem_of_fmap. exists (to_csv_row r). split.
  - unfold to_csv_row. cbn [c_author]. symmetry.
    by apply ValidationStageProps.csv_cell_missing.
  - apply list_elem_of_fmap. eauto.
Qed.

End Search.

Lemma keyword_dir_stored : job_without_candidates !! "job-1" = Some keyword_dir.
Proof. vm_compute. reflexivity. Qed.

Lemma keyword_dir_glob :
  glob_suffix "_keywordstring.json" keyword_dir
  = [("paper_keywordstring.json", KeywordJson (Some "(asthma)"))].
Proof. vm_compute. reflexivity. Qed.

(** X25 for a job with its keyword string and a selection that names
    none of the four websites. *)
Lemma database_search_nothing_found_witness :
  database_search load_empty two_sources no_parse no_parse
    job_without_candidates "job-1" "Scopus, Embase"
  = (Raised (KeyError "aff"), job_without_candidates).
Proof.
  assert (Hglob : glob_suffix "_keywordstring.json" keyword_dir <> []).
  { rewrite keyword_dir_glob. discriminate. }
  assert (Hkw : Validation.load_keyword_string keyword_dir = inr "(asthma)").
  { vm_compute. reflexivity. }
  assert (Hmeta : match glob_suffix "_metadata.json" keyword_dir with
                  | [] => inr []
                  | (_, metadata_file) :: _ => read_json load_empty metadata_file
                  end = inr []).
  { vm_compute. reflexivity. }
  apply (proj2 (database_search_nothing_found load_empty two_sources no_parse no_parse
                  job_without_candidates "job-1" "Scopus, Embase" "(asthma)"
                  keyword_dir [] keyword_dir_stored Hglob Hkw Hmeta)).
  assert (Hsel : KeywordQuery.parse_keywords "Scopus, Embase" = ["Scopus"; "Embase"]).
  { vm_compute. reflexivity. }
  rewrite Hsel. intros w Hw Hin.
  apply elem_of_cons in Hin as [Hin|Hin].
  - rewrite Hin in Hw. apply list_elem_of_In in Hw. simpl in Hw. intuition discriminate.
  - apply list_elem_of_singleton in Hin. rewrite Hin in Hw.
    apply list_elem_of_In in Hw. simpl in Hw. intuition discriminate.
Defined.


(** With a country parser that returns a set, the same search writes its
    files and then fails to render its response. *)
Example search_with_set_valued_country :
  fst (database_search load_empty two_sources city_of country_of
         job_without_candidates "job-1" "PubMed, WileyLibrary")
  = Raised (TypeError "Object of type set is not JSON serializable")
  /\ is_Some (snd (database_search load_empty two_sources city_of country_of
                     job_without_candidates "job-1" "PubMed, WileyLibrary")
                !! "job-1" ≫= (fun d => d !! candidates_file)).
Proof. split; vm_compute; [reflexivity|eauto]. Qed.


(** A search whose second author is listed by degrees only: the name
    cleans to the empty text. *)
Lemma degrees_search :
  database_search load_empty degree_sources no_parse no_parse
    job_without_candidates "job-1" "PubMed"
  = (JSONResponse (searched "job-1" 2) 200,
     snd (database_search load_empty degree_sources no_parse no_parse
            job_without_candidates "job-1" "PubMed")).
Proof. apply run_with. vm_compute. reflexivity. Qed.

Lemma degrees_pool :
  CandidateMerger.candidate_pool no_parse no_parse
    (combined degree_sources (KeywordQuery.parse_keywords "PubMed")
       (default "" (Some "(asthma)")))
  = inr [ {| author := "Jane Doe"; email := "jane@uni-a.edu"; aff := "University A";
             city := PNone; country := PNone |};
          {| author := ""; email := "md@clinic-b.org"; aff := "Clinic B";
             city := PNone; country := PNone |} ].
Proof. vm_compute. reflexivity. Qed.

(** X27 for that search: the validation that follows raises
    [AttributeError] and leaves the store of the search as it is. *)
Lemma missing_name_breaks_validation_witness :
  Validation.validate_authors quiet sort_desc
    (snd (database_search load_empty degree_sources no_parse no_parse
            job_without_candidates "job-1" "PubMed"))
    "job-1"
  = (Raised (AttributeError "strip"),
     snd (database_search load_empty degree_sources no_parse no_parse
            job_without_candidates "job-1" "PubMed")).
Proof.
  apply (missing_name_breaks_validation load_empty degree_sources no_parse no_parse
           quiet sort_desc job_without_candidates _ "job-1" "PubMed"
           "paper_keywordstring.json" keyword_dir (Some "(asthma)") 2 _
           keyword_dir_stored keyword_dir_glob degrees_search degrees_pool).
  eexists. split; [apply list_elem_of_further, list_elem_of_here|].
  apply list_elem_of_here.
Defined.

(** X28.  Validation, then the reviewers endpoint.  For a job whose
    candidate table and keyword string load and whose candidates all have
    a name, and a sort honouring the contract of [sort_values]: although
    the validation ends in an exception, the reviewers endpoint called on
    the store it leaves answers with the ranked table, sorted by
    [conditions_met] descending, and a reviewer count equal to the number
    of candidates. *)
Theorem reviewers_after_validation (C : Validation.Collaborators)
    (sort : list ScoredRow -> list ScoredRow) (store : JobStore)
    (job_id kw : string) (job_dir : JobDir) (df : list CandidateRow) :
  Validation.sort_values_contract sort ->
  store !! job_id = Some job_dir ->
  job_dir !! candidates_file = Some (CandidateTable df) ->
  Validation.load_keyword_string job_dir = inr kw ->
  (forall r : CandidateRow, r ∈ df -> is_Some (c_author r)) ->
  exists ranked : list ScoredRow,
    Validation.ranked_pool C sort kw df = inr ranked
    /\ Sorted Validation.descending ranked
    /\ recommended_reviewers (snd (Validation.validate_authors C sort store job_id)) job_id
       = Ok {| ra_job_id := job_id;
               ra_reviewer_count := length df;
               ra_reviewers := ranked |}.
Proof.
  intros Hsort Hjob Hfile Hkw Hall.
  unfold Validation.validate_authors, Validation.ranked_pool.
  rewrite Hjob, Hfile, Hkw.
  destruct (ValidationStageProps.scored_pool_cases C kw df)
    as [[Hin _]|[_ (pool & -> & Hpool)]].
  - apply list_elem_of_fmap in Hin as (r & Hr & Hin).
    destruct (Hall r Hin) as [a Ha]. congruence.
  - destruct (Hsort pool) as [Hperm Hsorted]. eexists. split; [done|]. split; [done|].
    rewrite ValidationStageProps.display_projection_fails.
    cbn [snd]. unfold recommended_reviewers.
    rewrite lookup_insert_eq, lookup_insert_eq. do 2 f_equal.
    apply Permutation_length in Hperm. rewrite Hperm, <- Hpool. by rewrite length_fmap.
Qed.

(** X28 for the job of [Ada Park] and [Ben Ruiz], with the merge sort:
    two reviewers are served. *)
Lemma reviewers_after_validation_witness :
  exists ranked : list ScoredRow,
    Validation.ranked_pool quiet sort_desc "" [ada; ben] = inr ranked
    /\ recommended_reviewers
         (snd (Validation.validate_authors quiet sort_desc job_without_keywords "job-1"))
         "job-1"
       = Ok {| ra_job_id := "job-1"; ra_reviewer_count := 2; ra_reviewers := ranked |}.
Proof.
  destruct (reviewers_after_validation quiet sort_desc job_without_keywords "job-1" ""
              {[ candidates_file := CandidateTable [ada; ben] ]} [ada; ben]
              RankingProps.sort_desc_contract eq_refl eq_refl eq_refl
              ValidationStageProps.ada_ben_named)
    as (ranked & Hranked & _ & Hserved).
  exists ranked. split; [exact Hranked|exact Hserved].
Defined.

End EndpointProps.
